(** * LocalSignTool: the integrated build-job subsystem

    A shallow embedding of [src/builders/integrated_job.go]
    (extractJobIdFromArchive, ProcessIntegratedJob), of the wait loop
    and the two-factor prompt of [src/signing/cli.go]
    (processIntegratedJobDirectly, Prompt2FA), and of the config package
    (isAllowedExt, MakeEnabled, Load, SetBuilderSecrets).

    Go strings and byte slices are both sequences of bytes; they are
    modelled as [string].  Maps of the storage layer are [gmap]s.  Calls
    that leave the program (the tar reader, the clock, the external
    entrypoint, temp-dir creation) are inputs of the model. *)

From Stdlib Require Import ZArith String Ascii List Lia.
From stdpp Require Import base option list strings gmap.

Local Open Scope string_scope.
Local Open Scope Z_scope.

(** ** Strings *)

(** [strings.Contains(s, substr)]: some suffix of [s] starts with [substr]. *)
Fixpoint Contains (s substr : string) : bool :=
  String.prefix substr s ||
  match s with
  | EmptyString => false
  | String _ s' => Contains s' substr
  end.

(** [reader.ReadString('\n')] on the remaining input: the text up to and
    including the first newline, or [None] (io.EOF) when there is none. *)
Definition newline : ascii := ascii_of_nat 10.

Fixpoint ReadString (input : string) : option (string * string) :=
  match input with
  | EmptyString => None
  | String c rest =>
      if Ascii.eqb c newline then Some (String c EmptyString, rest)
      else match ReadString rest with
           | Some (line, rest') => Some (String c line, rest')
           | None => None
           end
  end.

(** [strings.Split(name, "/")], accumulating the current component. *)
Fixpoint splitSlash (acc s : string) : list string :=
  match s with
  | EmptyString => [acc]
  | String c s' =>
      if Ascii.eqb c "/"%char then acc :: splitSlash EmptyString s'
      else splitSlash (acc +:+ String c EmptyString) s'
  end.

(** ** Errors *)

(** Go [error] values: errors handed in from outside this code (sentinels
    such as [storage.ErrNotFound], OS and library errors) carry their text;
    [errors.New] and [errors.WithMessage] are the two constructors the
    source uses ([errors.Errorf] is [errors.New] of the formatted text). *)
Inductive error : Type :=
| ExtError (text : string)
| errors_New (text : string)
| WithMessage (cause : error) (message : string).

Global Instance error_eq_dec : EqDecision error.
Proof. solve_decision. Defined.

(** [err.Error()]. *)
Fixpoint Error (e : error) : string :=
  match e with
  | ExtError t => t
  | errors_New t => t
  | WithMessage c m => m +:+ ": " +:+ Error c
  end.

(** [errors.Is(err, target)]: [target] is met along the unwrap chain.
    Errors are compared as values. *)
Fixpoint errors_Is (err target : error) : bool :=
  bool_decide (err = target) ||
  match err with
  | WithMessage c _ => errors_Is c target
  | _ => false
  end.

(** What a Go call does: return a value, or panic. *)
Inductive Go (A : Type) : Type :=
| Value (a : A)
| Panic (reason : string).
Arguments Value {A} a.
Arguments Panic {A} reason.

(** ** The tar reader

    [archive/tar] is a library.  What the source sees of it on a given
    buffer is the sequence of headers that successive [tr.Next()] calls
    return, the bytes [tr.Read] delivers for each of them, and how the
    sequence ends: with [io.EOF] or with an error. *)

Record Header : Type := mkHeader {
  Name : string;
  Typeflag : ascii;
  Size : Z;          (* int64 *)
  Mode : Z           (* int64 *)
}.

Record Entry : Type := mkEntry {
  hdr : Header;
  data : string;             (* what reading the entry delivers *)
  dataErr : option error     (* the error, other than io.EOF, that ends it *)
}.

Record TarStream : Type := mkTar {
  entries : list Entry;
  ending : option error      (* None: io.EOF; Some e: Next fails with e *)
}.

Definition TypeDir : ascii := "5"%char.

(** [runtime.maxAlloc] on 64-bit targets; [make([]byte, n)] panics with
    "makeslice: len out of range" when [n] is negative or beyond it.
    Within these bounds the allocation is taken to succeed, as every
    allocation of the program is; a size that exhausts the memory of the
    machine ends the process with a fatal error, which is no panic and
    which the model does not describe. *)
Definition maxAlloc : Z := 2 ^ 48.

Definition make_bytes (n : Z) : Go unit :=
  if (n <? 0) || (maxAlloc <? n) then Panic "makeslice: len out of range"
  else Value tt.

(** [io.ReadFull(tr, buf)] with [len(buf) = n]: the first [n] bytes of the
    entry, or an error when the entry delivers fewer. *)
Definition ReadFull (e : Entry) (n : Z) : option string :=
  if Z.of_nat (String.length (data e)) <? n then None
  else Some (String.substring 0 (Z.to_nat n) (data e)).

(** ** Paths and the file system

    Absolute, cleaned paths are lists of components from the root.  A file
    system maps them to nodes; the root itself is always a directory. *)

Inductive Node : Type :=
| Dir (perm : Z)
| File (perm : Z) (content : string).

Abbreviation Path := (list string).
Abbreviation FS := (gmap (list string) Node).

(** [os.FileMode(header.Mode)]: an int64 converted to uint32. *)
Definition FileMode (m : Z) : Z := m mod 2 ^ 32.

(** One component of [filepath.Clean] on a rooted path, the components
    seen so far kept innermost first: empty and "." components vanish,
    ".." drops the last component (and stays at the root). *)
Definition cleanStep (stack : list string) (c : string) : list string :=
  if String.eqb c "" || String.eqb c "." then stack
  else if String.eqb c ".." then tail stack
  else c :: stack.

(** [filepath.Join(dir, name)] for an absolute cleaned [dir]:
    [Clean(dir + "/" + name)]. *)
Definition Join (dir : Path) (name : string) : Path :=
  rev (fold_left cleanStep (splitSlash "" name) (rev dir)).

(** [filepath.Dir] of a cleaned absolute path. *)
Definition parentDir (p : Path) : Path := removelast p.

(** [os.Stat]: the node at a path, if any. *)
Definition Stat (fs : FS) (p : Path) : option Node :=
  match p with
  | [] => Some (Dir 493)
  | _ => fs !! p
  end.

(** [os.MkdirAll(path, perm)]: walks down from the root, creating every
    missing directory; fails on a component that is a file. *)
Fixpoint mkdirFrom (above : Path) (todo : list string) (perm : Z) (fs : FS)
  : error + FS :=
  match todo with
  | [] => inr fs
  | c :: todo' =>
      let p := (above ++ [c])%list in
      match fs !! p with
      | Some (Dir _) => mkdirFrom p todo' perm fs
      | Some (File _ _) => inl (ExtError "mkdir: not a directory")
      | None => mkdirFrom p todo' perm (<[p := Dir perm]> fs)
      end
  end.

Definition MkdirAll (p : Path) (perm : Z) (fs : FS) : error + FS :=
  mkdirFrom [] p perm fs.

(** [os.OpenFile(path, O_CREATE|O_WRONLY|O_TRUNC, perm)] followed by
    writing [content]: an existing file is truncated and keeps its mode, a
    new file needs its parent directory. *)
Definition writeFile (p : Path) (perm : Z) (content : string) (fs : FS)
  : error + FS :=
  match Stat fs p with
  | Some (Dir _) => inl (ExtError "open: is a directory")
  | Some (File m _) => inr (<[p := File m content]> fs)
  | None =>
      match Stat fs (parentDir p) with
      | Some (Dir _) => inr (<[p := File perm content]> fs)
      | _ => inl (ExtError "open: no such file or directory")
      end
  end.

(** [os.RemoveAll(dir)]: the directory and everything below it go. *)
Definition RemoveAll (dir : Path) (fs : FS) : FS :=
  filter (fun kv => ¬ dir `prefix_of` kv.1) fs.

(** ** Storage, as the interfaces of integrated_job.go see it

    JobStorage, ReturnJob, AppStorage and App are interfaces in
    integrated_job.go; the storage package that implements them is outside
    the verified sources. *)

(** Modelled from the spec: the queue entry of the missing storage
    package.  "Return Job (queue entry): identified by a job id ...;
    references exactly one application id ...; carries a Two-Factor Relay
    slot".  The job id is the key of the queue map. *)
Record ReturnJob : Type := mkReturnJob {
  AppId : string;
  TwoFactorCode : string
}.

(** Modelled from the spec: the application record of the missing storage
    package.  "Application: ... owns zero or more named byte blobs ...
    and string metadata". *)
Record App : Type := mkApp {
  files : gmap string string;
  strings : gmap string string
}.

Inductive Level : Type := DebugLevel | InfoLevel | WarnLevel | ErrorLevel.

(** A line the entrypoint wrote, as the two scanners deliver them. *)
Inductive OutLine : Type :=
| Stdout (line : string)
| Stderr (line : string).

(** [exec.Cmd], the fields the source sets. *)
Record Cmd : Type := mkCmd {
  CmdPath : Path;
  CmdDir : Path;
  CmdEnv : list string
}.

(** What a job attempt does that an observer can see, in order. *)
Inductive Event : Type :=
| Log (level : Level) (message : string) (fields : list (string * string))
| Started (cmd : Cmd)                 (* cmd.Start() returned nil *)
| Exited (waitErr : option error).    (* cmd.Wait() returned *)

Record World : Type := mkWorld {
  jobs : gmap string ReturnJob;
  apps : gmap string App;
  fs : FS;
  console : string          (* os.Stdout *)
}.

(** The integrated builder, through its getters (its struct is outside
    the verified sources).  Durations are nanoseconds. *)
Record Integrated : Type := mkIntegrated {
  GetSignFilesDir : string;
  GetEntrypoint : string;
  GetJobTimeout : Z;
  GetSecrets : gmap string string
}.

(** How the goroutine's [jobStorage.TakeLastJob(pw)] and the
    [io.Copy(&archiveBuffer, pr)] next to it ended (integrated_job.go,
    lines 84-112).  What TakeLastJob itself does to the queue is outside
    this model: a world is the world after it. *)
Inductive TakeOutcome : Type :=
| Taken (archive : string)
    (* TakeLastJob returned nil; the pipe delivered [archive] *)
| TakeFailed (written : string) (err : error)
    (* TakeLastJob returned [err]; the pipe was closed after [written] *)
| ReadFailed (partial : string) (err : error).
    (* io.Copy from the pipe failed with [err] after [partial]: the branch
       of lines 100-111.  The goroutine ends the pipe with pw.Close(), also
       when TakeLastJob fails, and then io.Copy returns nil: a failure of
       TakeLastJob arrives as [TakeFailed], never here. *)

(** The run of the external entrypoint, and what the two scanners got of
    it.  [cmd.Wait()] (line 294) is called while the scanners still read,
    and closes the pipes once the process has exited: the lines scanned
    are, stream by stream, the first of the lines written, not always all
    of them.  The two goroutines write to one [bytes.Buffer] through one
    MultiWriter, with no lock: when their writes meet, what the buffer and
    standard output hold afterwards is not determined by the lines. *)
Record Run : Type := mkRun {
  written : list OutLine;     (* the lines the entrypoint wrote *)
  output : list OutLine;      (* the lines scanned, in the order handled *)
  raced : option (string * string);
    (* None: no two writes met.  Some (buffer, printed): writes met; what
       the capture buffer and standard output were left with *)
  waitErr : option error;     (* what cmd.Wait() returns *)
  fsAfter : FS                (* the file system the process leaves *)
}.

(** What the surroundings answer during one job attempt.  Each is asked at
    most once in an attempt.  An attempt is modelled on its own: nothing
    else touches the queue or the applications while it runs. *)
Record Env : Type := mkEnv {
  takeLastJob : TakeOutcome;
  runId : string;                    (* "integrated-<UnixNano>" *)
  mkdirTemp : error + Path;          (* os.MkdirTemp *)
  absErr : option error;             (* filepath.Abs failing *)
  copySignFiles : error + FS;        (* dirCopy.Copy: the tree afterwards *)
  environ : list string;             (* os.Environ() *)
  stdoutPipeErr : option error;
  stderrPipeErr : option error;
  startErr : option error;
  procRun : Run
}.

(** ** A state, error and trace monad for job attempts *)

Inductive Res (A : Type) : Type :=
| Done (a : A)
| Failed (err : error)
| Panicked (reason : string).
Arguments Done {A} a.
Arguments Failed {A} err.
Arguments Panicked {A} reason.

Record Result (A : Type) : Type := mkResult {
  outcome : Res A;
  final : World;
  trace : list Event
}.
Arguments mkResult {A} _ _ _.
Arguments outcome {A} _.
Arguments final {A} _.
Arguments trace {A} _.

Definition M (A : Type) : Type := World -> Result A.

Definition ret {A} (a : A) : M A := fun w => mkResult (Done a) w [].

(** The events of an earlier step come before those of a later one. *)
Definition after {A} (earlier : list Event) (r : Result A) : Result A :=
  mkResult (outcome r) (final r) (earlier ++ trace r).

Definition bind {A B} (m : M A) (f : A -> M B) : M B := fun w =>
  let r := m w in
  match outcome r with
  | Done a => after (trace r) (f a (final r))
  | Failed e => mkResult (Failed e) (final r) (trace r)
  | Panicked s => mkResult (Panicked s) (final r) (trace r)
  end.

Declare Scope job_scope.
Delimit Scope job_scope with job.
Notation "x <- m ;; k" := (bind m (fun x => k))
  (at level 100, m at next level, right associativity) : job_scope.
Notation "m ;;; k" := (bind m (fun _ => k))
  (at level 100, right associativity) : job_scope.
Local Open Scope job_scope.

Definition fail {A} (e : error) : M A := fun w => mkResult (Failed e) w [].
Definition emit (ev : Event) : M unit := fun w => mkResult (Done tt) w [ev].
Definition getWorld : M World := fun w => mkResult (Done w) w [].
Definition setFS (f : FS) : M unit := fun w =>
  mkResult (Done tt) (mkWorld (jobs w) (apps w) f (console w)) [].
Definition setJobs (j : gmap string ReturnJob) : M unit := fun w =>
  mkResult (Done tt) (mkWorld j (apps w) (fs w) (console w)) [].
Definition setApps (a : gmap string App) : M unit := fun w =>
  mkResult (Done tt) (mkWorld (jobs w) a (fs w) (console w)) [].
Definition printOut (s : string) : M unit := fun w =>
  mkResult (Done tt) (mkWorld (jobs w) (apps w) (fs w) (console w +:+ s)) [].

Definition liftGo {A} (g : Go A) : M A :=
  match g with
  | Value a => ret a
  | Panic r => fun w => mkResult (Panicked r) w []
  end.

(** [if err != nil { return errors.WithMessage(err, msg) }]. *)
Definition orFail {A} (x : error + A) (msg : string) : M A :=
  match x with
  | inl e => fail (WithMessage e msg)
  | inr a => ret a
  end.

Definition failIf (x : option error) (msg : string) : M unit :=
  match x with
  | Some e => fail (WithMessage e msg)
  | None => ret tt
  end.

(** [err := func() error { ... }()]: the closure's error becomes a value. *)
Definition closure (m : M unit) : M (option error) := fun w =>
  let r := m w in
  match outcome r with
  | Done _ => mkResult (Done None) (final r) (trace r)
  | Failed e => mkResult (Done (Some e)) (final r) (trace r)
  | Panicked s => mkResult (Panicked s) (final r) (trace r)
  end.

(** [defer cleanup]: runs when the body is left, however it is left. *)
Definition leaving {A} (cleanup : World -> World) (r : Result A) : Result A :=
  mkResult (outcome r) (cleanup (final r)) (trace r).

Definition defer {A} (cleanup : World -> World) (body : M A) : M A := fun w =>
  leaving cleanup (body w).

(** ** The storage operations ProcessIntegratedJob calls *)

(** Modelled from the spec: [jobStorage.GetById] of the missing storage
    package.  "get by id(job id) -> entry, found". *)
Definition GetById (id : string) : M (option ReturnJob) :=
  w <- getWorld ;; ret (jobs w !! id).

(** Modelled from the spec: [jobStorage.DeleteById] of the missing storage
    package.  "delete by id(job id) -> deleted? (idempotent: deleting an
    absent id is a no-op returning false, never an error)". *)
Definition DeleteById (id : string) : M bool :=
  w <- getWorld ;;
  setJobs (delete id (jobs w)) ;;;
  ret (bool_decide (is_Some (jobs w !! id))).

(** Modelled from the spec: [app.GetFile(name)] of the missing storage
    package: the named blob of the application, an error when it has
    none. *)
Definition GetFile (a : App) (name : string) : error + string :=
  match files a !! name with
  | Some content => inr content
  | None => inl (ExtError "file does not exist")
  end.

(** Modelled from the spec: [app.SetFile(name, file)] of the missing
    storage package: the application's named blob becomes what is read
    from the open file.  A directory cannot be read. *)
Definition SetFile (app name : string) (file : Node) : error + (gmap string App -> gmap string App) :=
  match file with
  | Dir _ => inl (ExtError "read: is a directory")
  | File _ content =>
      inr (alter (fun a => mkApp (<[name := content]> (files a)) (strings a)) app)
  end.

(** Modelled from the spec: [app.SetString(name, value)] of the missing
    storage package: the application's named string becomes [value]. *)
Definition SetString (app name value : string)
  : error + (gmap string App -> gmap string App) :=
  inr (alter (fun a => mkApp (files a) (<[name := value]> (strings a))) app).

(** [os.ReadFile]. *)
Definition ReadFile (fs : FS) (p : Path) : error + string :=
  match Stat fs p with
  | Some (File _ content) => inr content
  | Some (Dir _) => inl (ExtError "read: is a directory")
  | None => inl (ExtError "open: no such file or directory")
  end.

(** A path as text, for messages. *)
Definition pathString (p : Path) : string :=
  match p with
  | [] => "/"
  | _ => String.concat "" (map (fun c => "/" +:+ c) p)
  end.

Section Builders.

(** [util.TrimWhitespace] is outside the verified sources; the model is
    parametric in it.  So it is in the tar reader. *)
Variable TrimWhitespace : string -> string.
Variable tarNewReader : string -> TarStream.

(** The [for] loop of extractJobIdFromArchive (integrated_job.go, lines
    52-71) over the entries the reader yields.  Running out of entries is
    [io.EOF] or an error: both [break].  Skipping an entry
    ([io.Copy(io.Discard, tr)]) changes nothing the loop looks at. *)
Fixpoint scanForId (es : list Entry) : Go string :=
  match es with
  | [] => Value ""
  | e :: rest =>
      if String.eqb (Name (hdr e)) "id.txt" then
        match make_bytes (Size (hdr e)) with
        | Panic r => Panic r
        | Value _ =>
            match ReadFull e (Size (hdr e)) with
            | Some idBuf => Value (TrimWhitespace idBuf)
            | None => Value ""
            end
        end
      else scanForId rest
  end.

(** extractJobIdFromArchive (integrated_job.go, lines 47-73). *)
Definition extractJobIdFromArchive (archiveBuffer : string) : Go string :=
  if (String.length archiveBuffer =? 0)%nat then Value ""
  else scanForId (entries (tarNewReader archiveBuffer)).

(** [strings.ToLower] is a library function over Unicode text; the model
    is parametric in it. *)
Variable ToLower : string -> string.

(** The test on a stdout line that decides whether it is logged (lines
    266-272). *)
Definition important (line : string) : bool :=
  let lineLower := ToLower line in
  Contains lineLower "error" ||
  Contains lineLower "failed" ||
  Contains lineLower "exception" ||
  Contains lineLower "two-factor authentication (2fa) code" ||
  Contains lineLower "please enter" ||
  (Contains lineLower "2fa" &&
   (Contains lineLower "code" || Contains lineLower "required")).

Definition nl : string := String newline EmptyString.

(** One scanned line: written to the capture buffer and to the console,
    then logged according to its stream. *)
Definition handleLine (outputBuffer : string) (l : OutLine) : M string :=
  match l with
  | Stdout line =>
      printOut (line +:+ nl) ;;;
      (if important line
       then emit (Log InfoLevel "sign script" [("line", line)])
       else ret tt) ;;;
      ret (outputBuffer +:+ line +:+ nl)
  | Stderr line =>
      printOut (line +:+ nl) ;;;
      emit (Log WarnLevel "sign script stderr" [("line", line)]) ;;;
      ret (outputBuffer +:+ line +:+ nl)
  end.

(** The two scanner loops, one line after the other: [ls] holds the lines
    the scanners deliver, in the order they are handled. *)
Fixpoint streamLines (ls : list OutLine) (outputBuffer : string) : M string :=
  match ls with
  | [] => ret outputBuffer
  | l :: rest =>
      outputBuffer' <- handleLine outputBuffer l ;;
      streamLines rest outputBuffer'
  end.

Definition isStdoutLine (l : OutLine) : bool :=
  match l with Stdout _ => true | Stderr _ => false end.

Definition isStderrLine (l : OutLine) : bool :=
  match l with Stdout _ => false | Stderr _ => true end.

(** Writes of the two goroutines can only meet when both have a line to
    write. *)
Definition overlapped (raced : option (string * string)) (ls : list OutLine)
  : option (string * string) :=
  if existsb isStdoutLine ls && existsb isStderrLine ls then raced else None.

(** The output goroutine with its two scanner goroutines (lines 246-292).
    Each line is logged by the goroutine that read it.  The capture buffer
    and standard output are written line by line when no two writes meet;
    when writes of the two goroutines meet on the unlocked buffer they are
    left as the race leaves them. *)
Definition streamOutput (raced : option (string * string)) (ls : list OutLine)
    (outputBuffer : string) : M string :=
  match overlapped raced ls with
  | None => streamLines ls outputBuffer
  | Some (buffer, printed) =>
      fun w =>
        let r := streamLines ls outputBuffer w in
        mkResult (Done (outputBuffer +:+ buffer))
          (mkWorld (jobs (final r)) (apps (final r)) (fs (final r))
             (console w +:+ printed))
          (trace r)
  end.

(** The archive extraction loop into the sandbox (lines 162-193).  Modes
    are stored as requested, before any umask. *)
Fixpoint extractEntries (workDir : Path) (es : list Entry)
    (ending : option error) : M unit :=
  match es with
  | [] => failIf ending "read tar"
  | e :: rest =>
      let header := hdr e in
      let targetPath := Join workDir (Name header) in
      w <- getWorld ;;
      if Ascii.eqb (Typeflag header) TypeDir then
        f <- orFail (MkdirAll targetPath (FileMode (Mode header)) (fs w))
               ("mkdir " +:+ Name header) ;;
        setFS f ;;;
        extractEntries workDir rest ending
      else
        f <- orFail (MkdirAll (parentDir targetPath) 493 (fs w))
               ("mkdir parent " +:+ pathString targetPath) ;;
        setFS f ;;;
        f' <- orFail (writeFile targetPath (FileMode (Mode header)) (data e) f)
                ("create file " +:+ Name header) ;;
        setFS f' ;;;
        failIf (dataErr e) ("write file " +:+ Name header) ;;;
        extractEntries workDir rest ending
  end.

(** The environment of the sign script (lines 217-224): the [range] over
    the secrets map appends one "key=value" per entry, here in the order
    of [map_to_list]. *)
Definition signEnv (environ : list string) (secretsMap : gmap string string)
  : list string :=
  (fold_left (fun env kv => env ++ [kv.1 +:+ "=" +:+ kv.2])
     (map_to_list secretsMap) environ
   ++ ["PYTHONUNBUFFERED=1"] ++ ["INTEGRATED_BUILDER=1"])%list.

(** After [cmd.Wait()] and the output goroutine (lines 297-335): report
    the failure, or store the result on the application and delete the
    queue entry. *)
Definition finishJob (returnJobId appId : string) (workDir : Path)
    (err : option error) (outputBuffer : string) : M unit :=
  match err with
  | Some err =>
      let output := outputBuffer in
      emit (Log ErrorLevel "sign script failed"
              [("error", Error err); ("output", output)]) ;;;
      fail (WithMessage (WithMessage (errors_New output) (Error err)) "sign script")
  | None =>
      w <- getWorld ;;
      let signedPath := Join workDir "signed.ipa" in
      match Stat (fs w) signedPath with
      | None =>
          fail (WithMessage (ExtError "stat: no such file or directory")
                  "signed app not found")
      | Some _ =>
          match Stat (fs w) signedPath with
          | None =>
              fail (WithMessage (ExtError "open: no such file or directory")
                      "open signed app")
          | Some signedFile =>
              store <- orFail (SetFile appId "signed" signedFile) "set signed file" ;;
              setApps (store (apps w)) ;;;
              (match ReadFile (fs w) (Join workDir "bundle_id.txt") with
               | inr bundleIdBytes =>
                   let bundleId := TrimWhitespace bundleIdBytes in
                   match SetString appId "bundle_id" bundleId with
                   | inl err =>
                       emit (Log WarnLevel "set bundle id" [("error", Error err)])
                   | inr store' =>
                       w' <- getWorld ;; setApps (store' (apps w'))
                   end
               | inl _ => ret tt
               end) ;;;
              deleted <- DeleteById returnJobId ;;
              (if deleted then ret tt
               else emit (Log WarnLevel "unable to delete return job"
                            [("job_id", returnJobId)]))
          end
      end
  end.

(** The command of the sign script (lines 227-230). *)
Definition signCmd (integrated : Integrated) (env : Env) (workDir : Path) : Cmd :=
  mkCmd (Join workDir (GetEntrypoint integrated)) workDir
        (signEnv (environ env) (GetSecrets integrated)).

(** From [cmd.Start()] having succeeded to the end of the closure (lines
    242-335).  The scanners run while the closure waits in [cmd.Wait()];
    the closure goes on once the output goroutine is done
    ([<-outputDone]), with what that goroutine captured.  The trace lists
    the scanned lines before the return of [cmd.Wait()]; a scanner may
    still hand on lines it had read when the pipes were closed, and
    nothing below depends on that order. *)
Definition runScript (integrated : Integrated) (env : Env)
    (returnJobId appId : string) (workDir : Path) : M unit :=
  emit (Started (signCmd integrated env workDir)) ;;;
  outputBuffer <- streamOutput (raced (procRun env)) (output (procRun env)) "" ;;
  setFS (fsAfter (procRun env)) ;;;
  emit (Exited (waitErr (procRun env))) ;;;
  finishJob returnJobId appId workDir (waitErr (procRun env)) outputBuffer.

(** [defer os.RemoveAll(tempDir)]. *)
Definition removeSandbox (tempDir : Path) (w : World) : World :=
  mkWorld (jobs w) (apps w) (RemoveAll tempDir (fs w)) (console w).

(** The closure of ProcessIntegratedJob (lines 144-336): sandbox,
    extraction, run, result.  [mkdirTemp] answers with the absolute path
    of the new directory, so that [filepath.Abs] can only fail. *)
Definition signJob (integrated : Integrated) (env : Env)
    (returnJobId appId archive : string) : M unit :=
  tempDir <- orFail (mkdirTemp env) "make temp dir" ;;
  (w <- getWorld ;; setFS (<[tempDir := Dir 448]> (fs w))) ;;;
  defer (removeSandbox tempDir)
    (failIf (absErr env) "get work dir absolute path" ;;;
     let workDir := tempDir in
     f <- orFail (copySignFiles env) "copy sign files" ;;
     setFS f ;;;
     let tr := tarNewReader archive in
     extractEntries workDir (entries tr) (ending tr) ;;;
     w <- getWorld ;;
     match apps w !! appId with
     | None => fail (errors_New ("app not found: " +:+ appId))
     | Some app =>
         unsignedFile <- orFail (GetFile app "unsigned") "get unsigned file" ;;
         f <- orFail (writeFile (Join workDir "unsigned.ipa") 438 unsignedFile (fs w))
                "create unsigned.ipa" ;;
         setFS f ;;;
         failIf (stdoutPipeErr env) "create stdout pipe" ;;;
         failIf (stderrPipeErr env) "create stderr pipe" ;;;
         failIf (startErr env) "start sign script" ;;;
         runScript integrated env returnJobId appId workDir
     end).

(** The end of ProcessIntegratedJob, once the closure has returned (lines
    338-348). *)
Definition reportJob (env : Env) (returnJobId : string) (err : option error)
  : M unit :=
  match err with
  | Some err =>
      emit (Log ErrorLevel "integrated sign job failed"
              [("error", Error err); ("job_id", runId env)]) ;;;
      deleted <- DeleteById returnJobId ;;
      (if deleted then ret tt
       else emit (Log WarnLevel "unable to delete failed return job"
                    [("job_id", returnJobId)])) ;;;
      fail err
  | None =>
      emit (Log InfoLevel "integrated sign job completed"
              [("job_id", runId env)])
  end.

(** ProcessIntegratedJob (lines 78-349).  The job storage and the
    application storage it is handed are the [jobs] and [apps] of the
    world. *)
Definition ProcessIntegratedJob (integrated : Integrated) (env : Env)
    (errNotFound : error) : M unit :=
  match takeLastJob env with
  | ReadFailed archiveBuffer err =>
      emit (Log ErrorLevel "read job archive" [("error", Error err)]) ;;;
      returnJobId <- liftGo (extractJobIdFromArchive archiveBuffer) ;;
      (if String.eqb returnJobId "" then ret tt
       else
         deleted <- DeleteById returnJobId ;;
         if deleted
         then emit (Log InfoLevel "cleaned up job after archive read error"
                      [("job_id", returnJobId)])
         else ret tt) ;;;
      fail err
  | TakeFailed _ archiveErr =>
      (if errors_Is archiveErr errNotFound
       then emit (Log DebugLevel "no job found for integrated builder" [])
       else emit (Log ErrorLevel "take last job" [("error", Error archiveErr)])) ;;;
      if errors_Is archiveErr errNotFound then ret tt
      else fail archiveErr
  | Taken archiveBuffer =>
      returnJobId <- liftGo (extractJobIdFromArchive archiveBuffer) ;;
      if String.eqb returnJobId "" then fail (errors_New "job id not found in archive")
      else
        found <- GetById returnJobId ;;
        match found with
        | None => fail (errors_New ("return job not found: " +:+ returnJobId))
        | Some returnJob =>
            let appId := AppId returnJob in
            emit (Log InfoLevel "running integrated sign job"
                    [("job_id", runId env); ("app_id", appId)]) ;;;
            err <- closure (signJob integrated env returnJobId appId archiveBuffer) ;;
            reportJob env returnJobId err
        end
  end.

End Builders.

(** ** cli.go: the wait loop and the two-factor prompt *)

(** Modelled from the spec: [storage.Jobs.GetByAppId] of the missing
    storage package.  "get by application id(application id) -> entry,
    found": an entry of the queue that references the application, with
    its job id. *)
Definition GetByAppId (jobs : gmap string ReturnJob) (appId : string)
  : option (string * ReturnJob) :=
  List.find (fun kv => String.eqb (AppId kv.2) appId) (map_to_list jobs).

(** [time.Duration] values, in nanoseconds. *)
Definition Millisecond : Z := 1000000.
Definition Second : Z := 1000 * Millisecond.
Definition pollInterval : Z := 500 * Millisecond.
Definition checkInterval : Z := 2 * Second.

(** What one turn of the wait loop reads from its surroundings: the clock,
    the job queue, the application.  The queue and the application change
    under the loop (the worker runs meanwhile), so each turn has its own
    answers. *)
Record Poll : Type := mkPoll {
  sinceStart : Z;                      (* time.Since(startTime), loop test *)
  job : option (string * ReturnJob);   (* storage.Jobs.GetByAppId(appId) *)
  sinceLastCheck : Z;                  (* time.Since(last2FACheck) *)
  sinceStartAgain : Z;                 (* time.Since(startTime), 5 s test *)
  isSigned : error + bool;             (* app.IsSigned() *)
  status : bool * bool                 (* GetStatusByAppId: pending, exists *)
}.

Record LoopState : Type := mkLoopState {
  returnJobId : string;
  twoFAMessageShown : bool
}.

(** One turn of the [for] loop body (cli.go, lines 180-219), up to
    [time.Sleep]: either the loop is left with a result ([inl]) or it goes
    on ([inr]). *)
Definition pollOnce (appId : string) (p : Poll) (st : LoopState)
  : (option error + LoopState) * list Event :=
  match job p with
  | Some (jobId, j) =>
      let '(rid, log1) :=
        if String.eqb (returnJobId st) ""
        then (jobId, [Log InfoLevel "return job created, waiting for processing"
                        [("return_job_id", jobId)]])
        else (returnJobId st, []) in
      if checkInterval <=? sinceLastCheck p then
        if String.eqb (TwoFactorCode j) "" then
          if negb (twoFAMessageShown st) && (5 * Second <? sinceStartAgain p)
          then (inr (mkLoopState rid true),
                log1 ++ [Log InfoLevel
                           "If 2FA code is required, you will be prompted by fastlane." []])%list
          else (inr (mkLoopState rid (twoFAMessageShown st)), log1)
        else
          if negb (twoFAMessageShown st)
          then (inr (mkLoopState rid true),
                log1 ++ [Log InfoLevel "2FA code provided, waiting for processing"
                           [("return_job_id", rid)]])%list
          else (inr (mkLoopState rid (twoFAMessageShown st)), log1)
      else (inr (mkLoopState rid (twoFAMessageShown st)), log1)
  | None =>
      match isSigned p with
      | inl err => (inl (Some (WithMessage err "check signed status")), [])
      | inr true =>
          (inl None, [Log InfoLevel "job completed successfully" [("app_id", appId)]])
      | inr false =>
          let '(pending, exists_) := status p in
          if negb pending && negb exists_
          then (inl (Some (errors_New "job completed but app is not signed")), [])
          else (inr st, [])
      end
  end.

Definition errTimeout : error := errors_New "timeout waiting for job to be processed".
Definition errNotSigned : error := errors_New "job completed but app is not signed".

(** The loop from its [i]-th turn on (cli.go, lines 179-224).  [polls i]
    is what the [i]-th turn reads; [fuel] bounds the number of turns
    looked at, [None] meaning the bound was too small. *)
Fixpoint waitLoop (fuel : nat) (maxWaitTime : Z) (appId : string)
    (polls : nat -> Poll) (i : nat) (st : LoopState)
  : option (option error * list Event) :=
  match fuel with
  | O => None
  | S fuel' =>
      if sinceStart (polls i) <? maxWaitTime then
        match pollOnce appId (polls i) st with
        | (inl result, log) => Some (result, log)
        | (inr st', log) =>
            match waitLoop fuel' maxWaitTime appId polls (S i) st' with
            | Some (result, log') => Some (result, (log ++ log')%list)
            | None => None
            end
        end
      else Some (Some errTimeout, [])
  end.

(** processIntegratedJobDirectly (cli.go, lines 151-225): trigger the
    builder, then wait.  [triggerErr] is what [integrated.Trigger()]
    returns. *)
Definition processIntegratedJobDirectly (fuel : nat) (integrated : Integrated)
    (triggerErr : option error) (appId : string) (polls : nat -> Poll)
  : option (option error * list Event) :=
  match triggerErr with
  | Some err => Some (Some (WithMessage err "trigger builder"), [])
  | None =>
      match waitLoop fuel (GetJobTimeout integrated) appId polls 0
              (mkLoopState "" false) with
      | Some (result, log) =>
          Some (result,
                Log InfoLevel "triggered builder, waiting for completion"
                  [("app_id", appId)] :: log)
      | None => None
      end
  end.

(** [time.Sleep(pollInterval)] between two turns: the clock has moved on by
    at least the interval when the loop test is evaluated again. *)
Definition sleeps (polls : nat -> Poll) : Prop :=
  ∀ i, sinceStart (polls i) + pollInterval <= sinceStart (polls (S i)).

Section Prompt.

(** [strings.TrimSpace] is a library function over Unicode text; the model
    is parametric in it. *)
Variable TrimSpace : string -> string.

(** Prompt2FA (cli.go, lines 228-245): [stdin] is what standard input
    still holds. *)
Definition Prompt2FA (stdin : string) (appId : string) : M string :=
  printOut "Enter 2FA code: " ;;;
  match ReadString stdin with
  | None => fail (WithMessage (ExtError "EOF") "read 2FA code")
  | Some (code, _) =>
      let code := TrimSpace code in
      w <- getWorld ;;
      (match GetByAppId (jobs w) appId with
       | Some (id, j) =>
           setJobs (<[id := mkReturnJob (AppId j) code]> (jobs w)) ;;;
           emit (Log InfoLevel "2FA code set in job" [("app_id", appId)])
       | None => ret tt
       end) ;;;
      ret code
  end.

End Prompt.

(** ** The config package (cli.go, lines 246-471)

    What the package reads through libraries -- the configuration file
    and the environment through koanf, random bytes, the disk -- is an
    input of the model. *)

(** [builders.IntegratedData], by the fields that [createDefaultFile]
    sets; the struct itself is outside the verified sources. *)
Record IntegratedData : Type := mkIntegratedData {
  Enable : bool;
  SignFilesDir : string;
  Entrypoint : string;
  JobTimeoutMin : Z          (* minutes *)
}.

(** Modelled from the spec: [SetSecrets] of the integrated builder, which
    is outside the verified sources.  "Builder secrets: an
    immutable-once-set key->value mapping ... injected into the worker's
    process environment; written once at configuration time, read on
    every job run": the builder keeps the map for [GetSecrets], and
    returns nil. *)
Definition SetSecrets (builder : Integrated) (secrets : gmap string string)
  : option error * Integrated :=
  (None,
   mkIntegrated (GetSignFilesDir builder) (GetEntrypoint builder)
     (GetJobTimeout builder) secrets).

(** [errors.WithMessage(err, message)] on an error that may be nil: nil
    stays nil. *)
Definition errors_WithMessage (err : option error) (message : string)
  : option error :=
  match err with
  | Some e => Some (WithMessage e message)
  | None => None
  end.

(** The loop of [filepath.Ext]: [i] runs down from the end of the path, to
    the first dot (the extension starts there) or to a separator (no
    extension).  [before] holds path[:i+1] backwards, [seen] is
    path[i+1:]. *)
Fixpoint scanExt (before : list ascii) (seen : string) : string :=
  match before with
  | [] => ""
  | c :: before' =>
      if Ascii.eqb c "/"%char then ""
      else if Ascii.eqb c "."%char then String c seen
      else scanExt before' (String c seen)
  end.

Definition Ext (path : string) : string :=
  scanExt (rev (list_ascii_of_string path)) "".

(** [hex.EncodeToString]: two digits of "0123456789abcdef" per byte, the
    high half first. *)
Definition hextable : string := "0123456789abcdef".

Definition hexChar (n : N) : ascii :=
  match String.get (N.to_nat n) hextable with
  | Some c => c
  | None => "0"%char
  end.

Fixpoint EncodeToString (src : string) : string :=
  match src with
  | EmptyString => EmptyString
  | String v rest =>
      String (hexChar (N.shiftr (N_of_ascii v) 4))
        (String (hexChar (N.land (N_of_ascii v) 15)) (EncodeToString rest))
  end.

Module config.

Record BasicAuth : Type := mkBasicAuth {
  BasicAuth_Enable : bool;
  Username : string;
  Password : string
}.

Record Builder : Type := mkBuilder {
  Builder_Integrated : IntegratedData
}.

Record File : Type := mkFile {
  File_Builder : Builder;
  ServerUrl : string;
  RedirectHttps : bool;
  SaveDir : string;
  CleanupIntervalMins : Z;   (* uint64 *)
  SignTimeoutMins : Z;       (* uint64 *)
  File_BasicAuth : BasicAuth;
  File_BuilderKey : string
}.

Record EnvProfile : Type := mkEnvProfile {
  Name : string;
  ProvBase64 : string;
  CertPass : string;
  CertBase64 : string;
  AccountName : string;
  AccountPass : string
}.

(** [Config] embeds [*File]: [Current.ServerUrl] is the file's field,
    [Current.BuilderKey] the field of [Config] itself. *)
Record Config : Type := mkConfig {
  Config_Builder : gmap string Integrated;
  Config_BuilderKey : string;
  Config_File : File;
  Config_EnvProfile : EnvProfile
}.

(** createDefaultFile (lines 296-317). *)
Definition createDefaultFile : File :=
  mkFile (mkBuilder (mkIntegratedData true "./builder" "sign.py" 15))
         "http://localhost:8080" false "data" 5 60
         (mkBasicAuth false "admin" "admin") "".

(** isAllowedExt (lines 409-417). *)
Fixpoint isAllowedExt_from (fileExt : string) (allowedExts : list string) : bool :=
  match allowedExts with
  | [] => false
  | ext :: rest => if String.eqb fileExt ext then true else isAllowedExt_from fileExt rest
  end.

Definition isAllowedExt (allowedExts : list string) (fileName : string) : bool :=
  let fileExt := Ext fileName in
  isAllowedExt_from fileExt allowedExts.

(** What a call of saveFile is answered by the disk: by [os.Create], and
    by the yaml encoder writing to the file. *)
Record Saving : Type := mkSaving {
  createErr : option error;
  encodeErr : option error
}.

(** How koanf's load of the configuration file ends. *)
Inductive Existing : Type :=
| NotExist                    (* an error that os.IsNotExist accepts *)
| LoadError (err : error)     (* any other error *)
| LoadOk.

(** What [Load] is answered by the libraries and the disk, call by call. *)
Record LoadEnv : Type := mkLoadEnv {
  loadDefault : option error;          (* getFile: k.Load of the defaults *)
  loadExisting : Existing;             (* getFile: k.Load of the file *)
  loadEnvvars : option error;          (* getFile: k.Load of the environment *)
  unmarshalFile : error + File;        (* getFile: k.UnmarshalWithConf *)
  statNotExist : bool;                 (* getFile: os.IsNotExist of os.Stat *)
  saveInitial : Saving;                (* the saveFile call of getFile *)
  randRead : error + (nat -> ascii);   (* rand.Read: the byte at each index *)
  saveKey : Saving;                    (* the saveFile call of Load *)
  profileDefault : option error;       (* getProfileFromEnv: the defaults *)
  profileEnvvars : option error;       (* getProfileFromEnv: the environment *)
  unmarshalProfile : error + EnvProfile
}.

(** saveFile (lines 461-471). *)
Definition saveFile (disk : Saving) : option error :=
  match createErr disk with
  | Some err => Some (WithMessage err "create")
  | None =>
      match encodeErr disk with
      | Some err => Some (WithMessage err "write")
      | None => None
      end
  end.

(** What a function of the package leaves besides its result: the calls
    of saveFile, each with the file name and the configuration handed to
    it, and the log lines, both in order. *)
Record Effects : Type := mkEffects {
  saved : list (string * File);
  logged : list Event
}.

(** getFile (lines 419-448). *)
Definition getFile (env : LoadEnv) (fileName : string) : (error + File) * Effects :=
  match loadDefault env with
  | Some err => (inl (WithMessage err "load default"), mkEffects [] [])
  | None =>
      let creating :=
        match loadExisting env with
        | NotExist => [Log InfoLevel "creating config file" [("name", fileName)]]
        | _ => []
        end in
      match loadExisting env with
      | LoadError err => (inl (WithMessage err "load existing"), mkEffects [] [])
      | _ =>
          match loadEnvvars env with
          | Some err => (inl (WithMessage err "load envvars"), mkEffects [] creating)
          | None =>
              match unmarshalFile env with
              | inl err => (inl (WithMessage err "unmarshal"), mkEffects [] creating)
              | inr fileConfig =>
                  if statNotExist env then
                    match saveFile (saveInitial env) with
                    | Some err =>
                        (inl (WithMessage err "save initial config"),
                         mkEffects [(fileName, fileConfig)] creating)
                    | None =>
                        (inr fileConfig, mkEffects [(fileName, fileConfig)] creating)
                    end
                  else (inr fileConfig, mkEffects [] creating)
              end
          end
      end
  end.

(** getProfileFromEnv (lines 392-407). *)
Definition getProfileFromEnv (env : LoadEnv) : error + EnvProfile :=
  match profileDefault env with
  | Some err => inl (WithMessage err "load default")
  | None =>
      match profileEnvvars env with
      | Some err => inl (WithMessage err "load envvars")
      | None =>
          match unmarshalProfile env with
          | inl err => inl (WithMessage err "unmarshal")
          | inr profile => inr profile
          end
      end
  end.

(** How [Load] ends: [log.Fatal] exits the process, or [Current] is set. *)
Inductive Ended : Type :=
| Fatal (message : string) (fields : list (string * string))
| Loaded (Current : Config).

Record LoadRun : Type := mkLoadRun {
  ended : Ended;
  effects : Effects
}.

Section Builders.

(** [builders.MakeIntegrated] is outside the verified sources. *)
Variable MakeIntegrated : IntegratedData -> Integrated.

(** MakeEnabled (lines 277-283). *)
Definition MakeEnabled (b : Builder) : gmap string Integrated :=
  let results := ∅ in
  if Enable (Builder_Integrated b)
  then <["Integrated" := MakeIntegrated (Builder_Integrated b)]> results
  else results.

(** The end of Load (lines 378-387), once the builder key is known. *)
Definition setCurrent (env : LoadEnv) (builderMap : gmap string Integrated)
    (builderKey : string) (fileConfig : File) (done : Effects) : LoadRun :=
  match getProfileFromEnv env with
  | inl err =>
      mkLoadRun (Fatal "init: error checking for signing profile from envvars"
                   [("error", Error err)]) done
  | inr profile =>
      mkLoadRun (Loaded (mkConfig builderMap builderKey fileConfig profile)) done
  end.

(** Load (lines 341-388). *)
Definition Load (env : LoadEnv) (fileName : string) : LoadRun :=
  let allowedExts := [".yml"; ".yaml"] in
  if negb (isAllowedExt allowedExts fileName) then
    mkLoadRun (Fatal ("config extension not allowed: [.yml .yaml]"
                      +:+ String newline EmptyString) []) (mkEffects [] [])
  else
    let '(got, read) := getFile env fileName in
    match got with
    | inl err => mkLoadRun (Fatal "get config" [("error", Error err)]) read
    | inr fileConfig =>
        let builderMap := MakeEnabled (File_Builder fileConfig) in
        if (size builderMap <? 1)%nat then
          mkLoadRun (Fatal "init: no builders defined" []) read
        else if negb (String.eqb (File_BuilderKey fileConfig) "") then
          let builderKey := File_BuilderKey fileConfig in
          setCurrent env builderMap builderKey fileConfig
            (mkEffects (saved read)
               (logged read
                ++ [Log InfoLevel "using existing builder key from config" []]))
        else
          match randRead env with
          | inl err =>
              mkLoadRun (Fatal "init: error generating builder key"
                           [("error", Error err)]) read
          | inr byteAt =>
              let keyBytes := string_of_list_ascii (map byteAt (seq 0 32)) in
              let builderKey := EncodeToString keyBytes in
              let fileConfig :=
                mkFile (File_Builder fileConfig) (ServerUrl fileConfig)
                  (RedirectHttps fileConfig) (SaveDir fileConfig)
                  (CleanupIntervalMins fileConfig) (SignTimeoutMins fileConfig)
                  (File_BasicAuth fileConfig) builderKey in
              setCurrent env builderMap builderKey fileConfig
                (mkEffects (saved read ++ [(fileName, fileConfig)])
                   (logged read
                    ++ [match saveFile (saveKey env) with
                        | Some err =>
                            Log WarnLevel "failed to save builder key to config file"
                              [("error", Error err)]
                        | None =>
                            Log InfoLevel
                              "generated and saved new builder key to config file" []
                        end]))
          end
    end.

End Builders.

(** SetBuilderSecrets (lines 452-458), on the integrated builder. *)
Definition SetBuilderSecrets (Current : Config) (builder : Integrated)
  : option error * Integrated :=
  let secrets :=
    <["SECRET_KEY" := Config_BuilderKey Current]>
      (<["SECRET_URL" := ServerUrl (Config_File Current)]> ∅) in
  let '(err, builder') := SetSecrets builder secrets in
  (errors_WithMessage err "set builder secrets", builder').

End config.

(** ** Vocabulary of the statements *)

(** The capture buffer after the given lines: each one, newline-ended. *)
Definition lineText (l : OutLine) : string :=
  match l with Stdout line => line | Stderr line => line end.

Fixpoint captured (ls : list OutLine) : string :=
  match ls with
  | [] => ""
  | l :: rest => lineText l +:+ nl +:+ captured rest
  end.

(** What the capture buffer holds after a run, and what the run appended
    to standard output. *)
Definition capturedBy (run : Run) : string :=
  match overlapped (raced run) (output run) with
  | Some (buffer, _) => buffer
  | None => captured (output run)
  end.

Definition printedBy (run : Run) : string :=
  match overlapped (raced run) (output run) with
  | Some (_, printed) => printed
  | None => captured (output run)
  end.

(** The scanners deliver, of each stream, the first of the lines written
    to it: all of them, or those read before the pipe was closed. *)
Definition stdoutLines (ls : list OutLine) : list string :=
  flat_map (fun l => match l with Stdout line => [line] | Stderr _ => [] end) ls.

Definition stderrLines (ls : list OutLine) : list string :=
  flat_map (fun l => match l with Stdout _ => [] | Stderr line => [line] end) ls.

Definition scannedFrom (run : Run) : Prop :=
  stdoutLines (output run) `prefix_of` stdoutLines (written run) /\
  stderrLines (output run) `prefix_of` stderrLines (written run).

(** The log lines of the streaming loop, line by line. *)
Definition lineLog (ToLower : string -> string) (l : OutLine) : list Event :=
  match l with
  | Stdout line =>
      if important ToLower line
      then [Log InfoLevel "sign script" [("line", line)]] else []
  | Stderr line => [Log WarnLevel "sign script stderr" [("line", line)]]
  end.

(** The two-factor prompt phrases among the tests of [important]. *)
Definition twoFactorPrompt (lineLower : string) : bool :=
  Contains lineLower "two-factor authentication (2fa) code" ||
  (Contains lineLower "2fa" &&
   (Contains lineLower "code" || Contains lineLower "required")).

(** The log lines, as opposed to the process events. *)
Definition isLog (ev : Event) : Prop :=
  match ev with Log _ _ _ => True | _ => False end.

(** The entries the scan for the job id stops at. *)
Definition isIdEntry (e : Entry) : bool := String.eqb (Name (hdr e)) "id.txt".

(** A world with another job queue. *)
Definition withJobs (j : gmap string ReturnJob) (w : World) : World :=
  mkWorld j (apps w) (fs w) (console w).

(** The application with the signed artifact stored, and with the bundle
    id when bundle_id.txt could be read. *)
Definition withSigned (content : string) (a : App) : App :=
  mkApp (<["signed" := content]> (files a)) (strings a).

Definition withBundleId (bundle : error + string) (a : App) : App :=
  match bundle with
  | inr bundleId => mkApp (files a) (<["bundle_id" := bundleId]> (strings a))
  | inl _ => a
  end.

(** An entry name without a ".." component. *)
Definition safeName (name : string) : Prop :=
  ~ In ".." (splitSlash "" name).

(** The sandbox root and the directories above it exist. *)
Definition sandboxExists (workDir : Path) (f : FS) : Prop :=
  forall p, p <> [] -> p `prefix_of` workDir -> exists perm, f !! p = Some (Dir perm).

(** The three outcomes of the wait loop that the specification names. *)
Definition namedOutcome (result : option error) : Prop :=
  result = None \/ result = Some errNotSigned \/ result = Some errTimeout.

(** A turn of the wait loop that does not return: the queue has an entry
    for the application; or it has none, the application is not signed,
    and the job is still pending or known. *)
Definition goesOn (p : Poll) : Prop :=
  job p <> None \/ (isSigned p = inr false /\ status p <> (false, false)).

(** The buffer an attempt reads the job id from, if it reads one. *)
Definition archiveOf (take : TakeOutcome) : option string :=
  match take with
  | Taken archive => Some archive
  | ReadFailed archiveBuffer _ => Some archiveBuffer
  | TakeFailed _ _ => None
  end.

(** The two log lines of the wait loop about the two-factor code, which
    the flag [twoFAMessageShown] guards. *)
Definition isTwoFactorMessage (ev : Event) : bool :=
  match ev with
  | Log InfoLevel message _ =>
      String.eqb message "If 2FA code is required, you will be prompted by fastlane."
      || String.eqb message "2FA code provided, waiting for processing"
  | _ => false
  end.

(** The queue has at most one entry for the application. *)
Definition oneEntryFor (appId : string) (js : gmap string ReturnJob) : Prop :=
  forall id1 id2 j1 j2,
    js !! id1 = Some j1 -> js !! id2 = Some j2 ->
    AppId j1 = appId -> AppId j2 = appId -> id1 = id2.

(** The two warnings about a queue entry that could not be deleted
    (integrated_job.go, lines 332 and 342). *)
Definition isDeletionWarning (ev : Event) : bool :=
  match ev with
  | Log WarnLevel message _ =>
      String.eqb message "unable to delete return job"
      || String.eqb message "unable to delete failed return job"
  | _ => false
  end.

(** ** Examples to run the model on *)

(** ASCII versions of the library functions the model is parametric in. *)
Definition isSpace (c : ascii) : bool :=
  match nat_of_ascii c with
  | 9%nat | 10%nat | 11%nat | 12%nat | 13%nat | 32%nat => true
  | _ => false
  end.

Fixpoint trimLeft (s : string) : string :=
  match s with
  | EmptyString => EmptyString
  | String c s' => if isSpace c then trimLeft s' else s
  end.

Fixpoint trimRight (s : string) : string :=
  match s with
  | EmptyString => EmptyString
  | String c s' =>
      match trimRight s' with
      | EmptyString => if isSpace c then EmptyString else String c EmptyString
      | t => String c t
      end
  end.

Definition asciiTrim (s : string) : string := trimRight (trimLeft s).

Definition lowerChar (c : ascii) : ascii :=
  let n := nat_of_ascii c in
  if ((65 <=? n) && (n <=? 90))%nat then ascii_of_nat (n + 32) else c.

Fixpoint asciiLower (s : string) : string :=
  match s with
  | EmptyString => EmptyString
  | String c s' => String (lowerChar c) (asciiLower s')
  end.

(** A job archive with its control entries, as the tar reader reads it
    (the bytes themselves do not matter to the model); any other buffer is
    read as truncated. *)
Definition jobArchive : string := "<tar: id.txt config/args.txt>".

Definition jobEntries : list Entry :=
  [mkEntry (mkHeader "id.txt" "0"%char 6 420) ("job-1" +:+ nl) None;
   mkEntry (mkHeader "config/args.txt" "0"%char 2 420) "-a" None].

Definition readJobArchive (archiveBuffer : string) : TarStream :=
  if String.eqb archiveBuffer jobArchive then mkTar jobEntries None
  else mkTar [] (Some (ExtError "unexpected EOF")).

(** An archive whose [id.txt] header announces 2^62 bytes (a GNU base-256
    size field, or a PAX size record): the reader returns the header
    as it is, the payload is absent. *)
Definition oversizedIdArchive : TarStream :=
  mkTar [mkEntry (mkHeader "id.txt" "0"%char (2 ^ 62) 420) "" None]
        (Some (ExtError "unexpected EOF")).

Definition readOversized (archiveBuffer : string) : TarStream :=
  oversizedIdArchive.

(** A sandbox at /tmp/job, and an archive entry that climbs out of it. *)
Definition tmpJob : Path := ["tmp"; "job"].

Definition sandboxFS : FS :=
  <[["tmp"; "job"] := Dir 448]> (<[["tmp"] := Dir 511]> ∅).

Definition tmpJobWorld : World := mkWorld ∅ ∅ sandboxFS "".

Definition climbingEntry : Entry :=
  mkEntry (mkHeader "../evil.txt" "0"%char 4 420) "evil" None.

(** A queue with one job for one application, and two builders: one with
    a job deadline of fifteen minutes, one with a deadline of a second. *)
Definition queuedWorld : World :=
  mkWorld {["job-1" := mkReturnJob "app-1" ""]}
          {["app-1" := mkApp {["unsigned" := "unsigned bytes"]} ∅]}
          (<[["tmp"] := Dir 511]> ∅) "".

Definition integratedBuilder : Integrated :=
  mkIntegrated "./builder" "sign.py" (15 * 60 * Second)
    (<["SECRET_KEY" := "k3y"]> {["SECRET_URL" := "http://localhost:8080"]}).

Definition quickBuilder : Integrated :=
  mkIntegrated "./builder" "sign.py" Second ∅.

Definition errNotFound : error := ExtError "not found".

(** The entrypoint signs: it leaves signed.ipa and bundle_id.txt. *)
Definition signedRun : Run :=
  mkRun [Stdout "Signing app"; Stdout "Please enter the 2FA code"]
        [Stdout "Signing app"; Stdout "Please enter the 2FA code"] None None
        (<[["tmp"; "job"; "bundle_id.txt"] := File 420 (" com.example.app" +:+ nl)]>
           (<[["tmp"; "job"; "signed.ipa"] := File 420 "signed bytes"]> sandboxFS)).

(** The entrypoint fails with status 1 after a line on its error stream. *)
Definition failedRun : Run :=
  mkRun [Stdout "Signing app"; Stderr "ERROR: cert expired"]
        [Stdout "Signing app"; Stderr "ERROR: cert expired"] None
        (Some (ExtError "exit status 1")) sandboxFS.

Definition envWith (take : TakeOutcome) (run : Run) : Env :=
  mkEnv take "integrated-1700000000000000000" (inr tmpJob) None (inr sandboxFS)
        ["PATH=/usr/bin"] None None None run.

Definition attempt (take : TakeOutcome) (run : Run) : Result unit :=
  ProcessIntegratedJob asciiTrim readJobArchive asciiLower integratedBuilder
    (envWith take run) errNotFound queuedWorld.

(** The command these attempts start. *)
Definition fixtureCmd : Cmd :=
  mkCmd ["tmp"; "job"; "sign.py"] ["tmp"; "job"]
        ["PATH=/usr/bin"; "SECRET_KEY=k3y"; "SECRET_URL=http://localhost:8080";
         "PYTHONUNBUFFERED=1"; "INTEGRATED_BUILDER=1"].

(** A wait in which the worker takes the job, signs, and deletes the
    entry before the third turn. *)
Definition signedPolls (i : nat) : Poll :=
  mkPoll (Z.of_nat i * pollInterval)
         (if (i <? 2)%nat then Some ("job-1", mkReturnJob "app-1" "") else None)
         (Z.of_nat i * pollInterval) (Z.of_nat i * pollInterval)
         (inr true) (false, false).

(** A wait in which the queue has no entry for the application and
    reading the signed status fails. *)
Definition statFailed : error := ExtError "stat signed: permission denied".

Definition checkFailsPolls (i : nat) : Poll :=
  mkPoll (Z.of_nat i * pollInterval) None 0 0 (inl statFailed) (false, false).

(** A wait for a job that no worker takes: the queue has no entry for the
    application, the job status stays pending. *)
Definition pendingPolls (i : nat) : Poll :=
  mkPoll (Z.of_nat i * pollInterval) None 0 0 (inr false) (true, true).

(** An archive with a directory entry before a file below it. *)
Definition treeEntries : list Entry :=
  [mkEntry (mkHeader "config" TypeDir 0 493) "" None;
   mkEntry (mkHeader "config/args.txt" "0"%char 2 420) "-a" None].

(** A wait during which the entry stays in the queue for six seconds,
    without a code, and the application is signed afterwards. *)
Definition promptedPolls (i : nat) : Poll :=
  mkPoll (Z.of_nat i * pollInterval)
         (if (i <? 12)%nat then Some ("job-1", mkReturnJob "app-1" "") else None)
         checkInterval (Z.of_nat i * pollInterval)
         (inr true) (false, false).

(** A first start: no configuration file yet, so that getFile answers
    with the defaults; and a start on a file that has a builder key. *)
Definition makeIntegrated (d : IntegratedData) : Integrated :=
  mkIntegrated (SignFilesDir d) (Entrypoint d) (JobTimeoutMin d * 60 * Second) ∅.

Definition noProfile : config.EnvProfile :=
  config.mkEnvProfile "" "" "" "" "" "".

Definition firstStart : config.LoadEnv :=
  config.mkLoadEnv None config.NotExist None (inr config.createDefaultFile) true
    (config.mkSaving None None)
    (inr (fun i => ascii_of_nat (7 * i + 3))) (config.mkSaving None None)
    None None (inr noProfile).

Definition firstConfig : config.Config :=
  config.mkConfig
    {["Integrated" := makeIntegrated (mkIntegratedData true "./builder" "sign.py" 15)]}
    "030a11181f262d343b424950575e656c737a81888f969da4abb2b9c0c7ced5dc"
    (config.mkFile (config.mkBuilder (mkIntegratedData true "./builder" "sign.py" 15))
                   "http://localhost:8080" false "data" 5 60
                   (config.mkBasicAuth false "admin" "admin")
                   "030a11181f262d343b424950575e656c737a81888f969da4abb2b9c0c7ced5dc")
    noProfile.

(** The quick builder once the secrets of that first configuration are
    set, and the command its attempts start. *)
Definition configuredBuilder : Integrated :=
  snd (config.SetBuilderSecrets firstConfig quickBuilder).

Definition configuredCmd : Cmd :=
  mkCmd ["tmp"; "job"; "sign.py"] ["tmp"; "job"]
        ["PATH=/usr/bin";
         "SECRET_KEY=030a11181f262d343b424950575e656c737a81888f969da4abb2b9c0c7ced5dc";
         "SECRET_URL=http://localhost:8080";
         "PYTHONUNBUFFERED=1"; "INTEGRATED_BUILDER=1"].

(** The log of the wait on [promptedPolls]. *)
Definition promptedLog : list Event :=
  [Log InfoLevel "triggered builder, waiting for completion" [("app_id", "app-1")];
   Log InfoLevel "return job created, waiting for processing"
     [("return_job_id", "job-1")];
   Log InfoLevel "If 2FA code is required, you will be prompted by fastlane." [];
   Log InfoLevel "job completed successfully" [("app_id", "app-1")]].

(** The entrypoint fails with status 1 right after a line on its error
    stream: the pipes are closed before the scanner has read it. *)
Definition lostRun : Run :=
  mkRun [Stderr "ERROR: cert expired"] [] None
        (Some (ExtError "exit status 1")) sandboxFS.

(** The entrypoint writes a line on each stream at the same moment: the
    two writes to the capture buffer meet, and the later one lands on the
    earlier. *)
Definition racedRun : Run :=
  mkRun [Stdout "Signing app"; Stderr "ERROR: cert expired"]
        [Stdout "Signing app"; Stderr "ERROR: cert expired"]
        (Some ("ERROR: cert expired" +:+ nl,
               "ERROR: cert expired" +:+ nl +:+ "Signing app" +:+ nl))
        (Some (ExtError "exit status 1")) sandboxFS.

(** ** Facts about strings *)

Lemma prefix_app (x t : string) : String.prefix x (x +:+ t) = true.
Proof.
  induction x as [|c x IH]; simpl.
  - destruct t; reflexivity.
  - destruct (ascii_dec c c); [exact IH | congruence].
Qed.

Lemma Contains_app_l (p s x : string) :
  Contains s x = true -> Contains (p +:+ s) x = true.
Proof.
  intros H. induction p as [|c p IH]; simpl; [exact H|].
  rewrite IH. apply orb_true_r.
Qed.

Lemma Contains_middle (a x b : string) : Contains (a +:+ x +:+ b) x = true.
Proof.
  apply Contains_app_l. destruct x; simpl.
  - destruct b; reflexivity.
  - destruct (ascii_dec a0 a0); [|congruence].
    rewrite prefix_app. reflexivity.
Qed.

Lemma append_cons (c : ascii) (s t : string) :
  String c s +:+ t = String c (s +:+ t).
Proof. reflexivity. Qed.

Lemma append_nil_r (s : string) : s +:+ "" = s.
Proof. induction s as [|c s IH]; [reflexivity|]. rewrite append_cons, IH. reflexivity. Qed.

Lemma string_app_assoc (a b c : string) : (a +:+ b) +:+ c = a +:+ (b +:+ c).
Proof.
  induction a as [|x a IH]; [reflexivity|].
  rewrite !append_cons, IH. reflexivity.
Qed.

Lemma captured_In (ls : list OutLine) (l : OutLine) :
  In l ls -> Contains (captured ls) (lineText l) = true.
Proof.
  induction ls as [|l' ls IH]; simpl; [tauto|].
  intros [->|H].
  - apply (Contains_middle "" (lineText l) (nl +:+ captured ls)).
  - rewrite <- string_app_assoc. apply Contains_app_l. auto.
Qed.

(** ** extractJobIdFromArchive *)

Section ExtractFacts.

Variable TrimWhitespace : string -> string.
Variable tarNewReader : string -> TarStream.

(** The scan stops at the first entry named id.txt, whatever follows. *)
Lemma scanForId_first (es : list Entry) :
  scanForId TrimWhitespace es =
  match List.find isIdEntry es with
  | None => Value ""
  | Some e =>
      match make_bytes (Size (hdr e)) with
      | Panic r => Panic r
      | Value _ =>
          Value (match ReadFull e (Size (hdr e)) with
                 | Some idBuf => TrimWhitespace idBuf
                 | None => ""
                 end)
      end
  end.
Proof.
  induction es as [|e es IH]; simpl; [reflexivity|].
  unfold isIdEntry at 1.
  destruct (String.eqb (Name (hdr e)) "id.txt"); [|exact IH].
  destruct (make_bytes (Size (hdr e))); [|reflexivity].
  destruct (ReadFull e (Size (hdr e))); reflexivity.
Qed.

(** X18: when every id.txt header announces a size that is not negative
    and no larger than the archive buffer itself -- as in every archive
    that holds its payloads -- extractJobIdFromArchive returns: the empty
    string on an empty buffer; otherwise the trimmed text of the first
    entry named id.txt if its payload is complete, whatever comes after it
    in the archive, and the empty string if that payload is short or no
    entry has the name.  (An allocation no larger than the buffer that the
    program already holds is taken to succeed.) *)
Lemma extractJobIdFromArchive_returns (archiveBuffer : string) :
  Z.of_nat (String.length archiveBuffer) <= maxAlloc ->
  (forall e, In e (entries (tarNewReader archiveBuffer)) ->
             isIdEntry e = true ->
             0 <= Size (hdr e) <= Z.of_nat (String.length archiveBuffer)) ->
  extractJobIdFromArchive TrimWhitespace tarNewReader archiveBuffer =
  Value (if (String.length archiveBuffer =? 0)%nat then ""
         else match List.find isIdEntry (entries (tarNewReader archiveBuffer)) with
              | Some e =>
                  match ReadFull e (Size (hdr e)) with
                  | Some idBuf => TrimWhitespace idBuf
                  | None => ""
                  end
              | None => ""
              end).
Proof.
  intros Hlen Hsize. unfold extractJobIdFromArchive.
  destruct (String.length archiveBuffer =? 0)%nat; [reflexivity|].
  rewrite scanForId_first.
  destruct (List.find isIdEntry (entries (tarNewReader archiveBuffer))) as [e|] eqn:Hfind;
    [|reflexivity].
  apply find_some in Hfind as [Hin Hid].
  specialize (Hsize e Hin Hid). unfold make_bytes.
  destruct (Z.ltb_spec (Size (hdr e)) 0); [lia|].
  destruct (Z.ltb_spec maxAlloc (Size (hdr e))); [lia|].
  reflexivity.
Qed.

(** C5 (the code departs from it): on a non-empty buffer in which the
    first entry named id.txt announces a size that [make] refuses --
    negative, or beyond the largest allocation -- extractJobIdFromArchive
    does not return the not-found result: [make([]byte, header.Size)]
    panics.  The tar reader hands on such sizes as they stand in the
    header; it reads no payload before the caller does. *)
Theorem extractJobIdFromArchive_panics_on_refused_size (archiveBuffer : string)
    (e : Entry) :
  String.length archiveBuffer <> 0%nat ->
  List.find isIdEntry (entries (tarNewReader archiveBuffer)) = Some e ->
  Size (hdr e) < 0 \/ maxAlloc < Size (hdr e) ->
  extractJobIdFromArchive TrimWhitespace tarNewReader archiveBuffer =
  Panic "makeslice: len out of range".
Proof.
  intros Hlen Hfind Hsize. unfold extractJobIdFromArchive.
  destruct (Nat.eqb_spec (String.length archiveBuffer) 0); [contradiction|].
  rewrite scanForId_first, Hfind. unfold make_bytes.
  destruct Hsize as [Hneg|Hbig].
  - destruct (Z.ltb_spec (Size (hdr e)) 0); [reflexivity|lia].
  - destruct (Z.ltb_spec maxAlloc (Size (hdr e))); [|lia].
    rewrite orb_true_r. reflexivity.
Qed.

End ExtractFacts.

(** ** The monad, step by step *)

Lemma after_nil {A} (r : Result A) : after [] r = r.
Proof. destruct r; reflexivity. Qed.

Lemma bind_eq {A B} (m : M A) (f : A -> M B) (w w' : World) (a : A)
    (tr : list Event) :
  m w = mkResult (Done a) w' tr ->
  bind m f w = after tr (f a w').
Proof. intros H. unfold bind. rewrite H. reflexivity. Qed.

Lemma bind_fail {A B} (m : M A) (f : A -> M B) (w w' : World) (e : error)
    (tr : list Event) :
  m w = mkResult (Failed e) w' tr ->
  bind m f w = mkResult (Failed e) w' tr.
Proof. intros H. unfold bind. rewrite H. reflexivity. Qed.

(** A step that succeeds without events, and a step that fails. *)
Ltac run_step := erewrite bind_eq by reflexivity; rewrite after_nil.
Ltac run_fail := erewrite bind_fail by reflexivity.

(** ** The output streams *)

Section StreamFacts.

Variable ToLower : string -> string.

Lemma important_cases (line : string) :
  important ToLower line = true <->
  Contains (ToLower line) "error" = true \/
  Contains (ToLower line) "failed" = true \/
  Contains (ToLower line) "exception" = true \/
  twoFactorPrompt (ToLower line) = true \/
  Contains (ToLower line) "please enter" = true.
Proof.
  unfold important, twoFactorPrompt.
  destruct (Contains (ToLower line) "error"),
           (Contains (ToLower line) "failed"),
           (Contains (ToLower line) "exception"),
           (Contains (ToLower line) "two-factor authentication (2fa) code"),
           (Contains (ToLower line) "please enter"),
           (Contains (ToLower line) "2fa"),
           (Contains (ToLower line) "code"),
           (Contains (ToLower line) "required"); simpl; intuition congruence.
Qed.

Lemma overlapped_None (raced : option (string * string)) (ls : list OutLine) :
  raced = None \/ existsb isStdoutLine ls = false \/
  existsb isStderrLine ls = false ->
  overlapped raced ls = None.
Proof.
  unfold overlapped. intros [->|[->| ->]]; [|reflexivity|].
  - destruct (_ && _); reflexivity.
  - rewrite andb_false_r. reflexivity.
Qed.

Lemma overlapped_Some (raced : option (string * string)) (ls : list OutLine) :
  existsb isStdoutLine ls = true -> existsb isStderrLine ls = true ->
  overlapped raced ls = raced.
Proof. unfold overlapped. intros -> ->. reflexivity. Qed.

Lemma handleLine_result (buf : string) (l : OutLine) (w : World) :
  handleLine ToLower buf l w =
  mkResult (Done (buf +:+ lineText l +:+ nl))
           (mkWorld (jobs w) (apps w) (fs w) (console w +:+ lineText l +:+ nl))
           (match l with
            | Stdout line =>
                if important ToLower line
                then [Log InfoLevel "sign script" [("line", line)]] else []
            | Stderr line => [Log WarnLevel "sign script stderr" [("line", line)]]
            end).
Proof.
  destruct l as [line|line]; unfold handleLine.
  - destruct (important ToLower line); reflexivity.
  - reflexivity.
Qed.

Lemma streamLines_result (ls : list OutLine) (buf : string) (w : World) :
  streamLines ToLower ls buf w =
  mkResult (Done (buf +:+ captured ls))
           (mkWorld (jobs w) (apps w) (fs w) (console w +:+ captured ls))
           (flat_map (lineLog ToLower) ls).
Proof.
  revert buf w. induction ls as [|l ls IH]; intros buf w.
  - simpl. unfold ret. destruct w; simpl.
    rewrite !append_nil_r. reflexivity.
  - simpl streamLines. unfold bind. rewrite handleLine_result. simpl.
    rewrite IH. simpl. rewrite !string_app_assoc. reflexivity.
Qed.

(** The output goroutine: the log lines are those of the lines, one by
    one; buffer and standard output are the lines', or the race's. *)
Lemma streamOutput_result (raced : option (string * string)) (ls : list OutLine)
    (buf : string) (w : World) :
  streamOutput ToLower raced ls buf w =
  mkResult (Done (buf +:+ match overlapped raced ls with
                          | Some (buffer, _) => buffer
                          | None => captured ls
                          end))
           (mkWorld (jobs w) (apps w) (fs w)
              (console w +:+ match overlapped raced ls with
                             | Some (_, printed) => printed
                             | None => captured ls
                             end))
           (flat_map (lineLog ToLower) ls).
Proof.
  unfold streamOutput. destruct (overlapped raced ls) as [[buffer printed]|].
  - rewrite streamLines_result. reflexivity.
  - apply streamLines_result.
Qed.

End StreamFacts.

(** ** The job attempt, phase by phase *)

(** Extraction touches the file system only, says nothing, never panics. *)
Lemma extractEntries_frame (workDir : Path) (es : list Entry)
    (ending : option error) (w : World) :
  exists f',
    let w' := mkWorld (jobs w) (apps w) f' (console w) in
    extractEntries workDir es ending w = mkResult (Done tt) w' [] \/
    exists e, extractEntries workDir es ending w = mkResult (Failed e) w' [].
Proof.
  revert w. induction es as [|e es IH]; intros w; simpl.
  - exists (fs w). destruct w, ending; simpl; eauto.
  - run_step.
    destruct (Ascii.eqb (Typeflag (hdr e)) TypeDir).
    + destruct (MkdirAll _ _ _) as [err|f].
      { exists (fs w). right. run_fail.
        destruct w; simpl; eauto. }
      run_step.
      run_step.
      apply (IH (mkWorld (jobs w) (apps w) f (console w))).
    + destruct (MkdirAll _ _ _) as [err|f].
      { exists (fs w). right. run_fail.
        destruct w; simpl; eauto. }
      run_step.
      run_step.
      destruct (writeFile _ _ _ _) as [err|f'].
      { exists f. right. run_fail. simpl; eauto. }
      run_step.
      run_step.
      destruct (dataErr e).
      { exists f'. right. run_fail. simpl; eauto. }
      run_step.
      apply (IH (mkWorld (jobs w) (apps w) f' (console w))).
Qed.

Section JobFacts.

Variable TrimWhitespace : string -> string.
Variable tarNewReader : string -> TarStream.
Variable ToLower : string -> string.

(** The world in which the closure looks for the result: the queue and
    the applications as before the run, the file system as the process
    left it, the console with the streamed lines. *)
Lemma runScript_result (integrated : Integrated) (env : Env)
    (rid appId : string) (workDir : Path) (w : World) :
  runScript TrimWhitespace ToLower integrated env rid appId workDir w =
  let w1 := mkWorld (jobs w) (apps w) (fsAfter (procRun env))
                    (console w +:+ printedBy (procRun env)) in
  let r := finishJob TrimWhitespace rid appId workDir (waitErr (procRun env))
             (capturedBy (procRun env)) w1 in
  mkResult (outcome r) (final r)
    (Started (signCmd integrated env workDir)
       :: flat_map (lineLog ToLower) (output (procRun env))
       ++ Exited (waitErr (procRun env)) :: trace r).
Proof.
  unfold runScript.
  erewrite bind_eq by reflexivity.
  erewrite bind_eq by apply streamOutput_result.
  erewrite bind_eq by reflexivity.
  erewrite bind_eq by reflexivity.
  reflexivity.
Qed.

(** The closure either fails before the script is started, silently and
    without touching the queue or the applications, or it runs the script
    in the sandbox it made. *)
Lemma signJob_cases (integrated : Integrated) (env : Env)
    (rid appId archive : string) (w : World) :
  (exists e w',
      signJob TrimWhitespace tarNewReader ToLower integrated env rid appId archive w
      = mkResult (Failed e) w' [] /\
      jobs w' = jobs w /\ apps w' = apps w)
  \/
  (exists workDir w0,
      mkdirTemp env = inr workDir /\
      jobs w0 = jobs w /\ apps w0 = apps w /\ is_Some (apps w !! appId) /\
      signJob TrimWhitespace tarNewReader ToLower integrated env rid appId archive w
      = leaving (removeSandbox workDir)
          (runScript TrimWhitespace ToLower integrated env rid appId workDir w0)).
Proof.
  unfold signJob.
  destruct (mkdirTemp env) as [e|tempDir] eqn:Htemp.
  { left. run_fail. eauto. }
  run_step.
  run_step.
  unfold defer.
  destruct (absErr env) as [e|].
  { left. run_fail. simpl. eauto. }
  run_step.
  destruct (copySignFiles env) as [e|f].
  { left. run_fail. simpl. eauto. }
  run_step.
  run_step.
  simpl.
  destruct (extractEntries_frame tempDir (entries (tarNewReader archive))
              (ending (tarNewReader archive))
              (mkWorld (jobs w) (apps w) f (console w))) as (f' & [Hx|[e Hx]]);
    simpl in Hx.
  2: { left. erewrite bind_fail by exact Hx. simpl. eauto. }
  erewrite bind_eq by exact Hx. rewrite after_nil.
  run_step. simpl.
  destruct (apps w !! appId) as [app|] eqn:Happ.
  2: { left. simpl. eauto. }
  destruct (GetFile app "unsigned") as [e|unsigned].
  { left. run_fail. simpl. eauto. }
  run_step.
  destruct (writeFile _ _ _ _) as [e|f2].
  { left. run_fail. simpl. eauto. }
  run_step.
  run_step.
  destruct (stdoutPipeErr env).
  { left. run_fail. simpl. eauto. }
  run_step.
  destruct (stderrPipeErr env).
  { left. run_fail. simpl. eauto. }
  run_step.
  destruct (startErr env).
  { left. run_fail. simpl. eauto. }
  run_step.
  right. eexists tempDir, _. split; [reflexivity|]. split; [|split; [|split; [eauto|reflexivity]]]; reflexivity.
Qed.

Lemma finishJob_failed (rid appId : string) (workDir : Path) (err : error)
    (out : string) (w : World) :
  finishJob TrimWhitespace rid appId workDir (Some err) out w =
  mkResult (Failed (WithMessage (WithMessage (errors_New out) (Error err)) "sign script"))
    w [Log ErrorLevel "sign script failed" [("error", Error err); ("output", out)]].
Proof. reflexivity. Qed.

Lemma finishJob_missing (rid appId : string) (workDir : Path) (out : string)
    (w : World) :
  Stat (fs w) (Join workDir "signed.ipa") = None ->
  finishJob TrimWhitespace rid appId workDir None out w =
  mkResult (Failed (WithMessage (ExtError "stat: no such file or directory")
                      "signed app not found")) w [].
Proof.
  intros H. unfold finishJob. erewrite bind_eq by reflexivity.
  rewrite after_nil. simpl. rewrite H. reflexivity.
Qed.

Lemma finishJob_directory (rid appId : string) (workDir : Path) (out : string)
    (w : World) (m : Z) :
  Stat (fs w) (Join workDir "signed.ipa") = Some (Dir m) ->
  finishJob TrimWhitespace rid appId workDir None out w =
  mkResult (Failed (WithMessage (ExtError "read: is a directory") "set signed file"))
    w [].
Proof.
  intros H. unfold finishJob. erewrite bind_eq by reflexivity.
  rewrite after_nil. simpl. rewrite H. reflexivity.
Qed.

Lemma finishJob_stored (rid appId : string) (workDir : Path) (out : string)
    (w : World) (m : Z) (content : string) :
  Stat (fs w) (Join workDir "signed.ipa") = Some (File m content) ->
  exists tr,
    finishJob TrimWhitespace rid appId workDir None out w =
    mkResult (Done tt)
      (mkWorld (delete rid (jobs w))
         (alter (withBundleId
                   (match ReadFile (fs w) (Join workDir "bundle_id.txt") with
                    | inr text => inr (TrimWhitespace text)
                    | inl e => inl e
                    end)) appId
            (alter (withSigned content) appId (apps w)))
         (fs w) (console w))
      tr /\
    Forall isLog tr.
Proof.
  intros H. unfold finishJob. erewrite bind_eq by reflexivity.
  rewrite after_nil. simpl. rewrite H.
  run_step.
  run_step.
  destruct (ReadFile (fs w) (Join workDir "bundle_id.txt")) as [e|text].
  - run_step.
    run_step. simpl.
    assert (Hid : alter (withBundleId (inl e)) appId
                    (alter (withSigned content) appId (apps w))
                  = alter (withSigned content) appId (apps w)).
    { apply map_eq. intros k. rewrite !lookup_alter.
      repeat case_decide; subst; try congruence;
        destruct (apps w !! _); reflexivity. }
    rewrite Hid.
    destruct (bool_decide (is_Some (jobs w !! rid)));
      eexists; (split; [reflexivity|repeat constructor]).
  - run_step.
    run_step. simpl.
    destruct (bool_decide (is_Some (jobs w !! rid)));
      eexists; (split; [reflexivity|repeat constructor]).
Qed.

Lemma finishJob_logs (rid appId : string) (workDir : Path) (err : option error)
    (out : string) (w : World) :
  Forall isLog (trace (finishJob TrimWhitespace rid appId workDir err out w)).
Proof.
  destruct err as [err|].
  - rewrite finishJob_failed. repeat constructor.
  - destruct (Stat (fs w) (Join workDir "signed.ipa")) as [[m|m content]|] eqn:H.
    + erewrite finishJob_directory by eassumption. constructor.
    + destruct (finishJob_stored rid appId workDir out w m content H)
        as (tr & -> & Hlogs). exact Hlogs.
    + rewrite finishJob_missing by assumption. constructor.
Qed.

Lemma reportJob_failed (env : Env) (id : string) (err : error) (w : World) :
  exists tr,
    reportJob env id (Some err) w
    = mkResult (Failed err) (withJobs (delete id (jobs w)) w) tr /\
    Forall isLog tr.
Proof.
  unfold reportJob.
  erewrite bind_eq by reflexivity.
  erewrite bind_eq by reflexivity.
  destruct (bool_decide (is_Some (jobs w !! id))).
  - erewrite bind_eq by reflexivity. eexists. split; [reflexivity|].
    repeat constructor.
  - erewrite bind_eq by reflexivity. eexists. split; [reflexivity|].
    repeat constructor.
Qed.

Lemma closure_report (m : M unit) (env : Env) (id : string) (w : World) :
  bind (closure m) (reportJob env id) w =
  match outcome (m w) with
  | Done _ => after (trace (m w)) (reportJob env id None (final (m w)))
  | Failed err => after (trace (m w)) (reportJob env id (Some err) (final (m w)))
  | Panicked s => mkResult (Panicked s) (final (m w)) (trace (m w))
  end.
Proof.
  unfold bind, closure. destruct (outcome (m w)); reflexivity.
Qed.

Lemma ProcessIntegratedJob_taken (integrated : Integrated) (env : Env)
    (errNotFound : error) (w : World) (archive id : string) (job : ReturnJob) :
  takeLastJob env = Taken archive ->
  extractJobIdFromArchive TrimWhitespace tarNewReader archive = Value id ->
  id <> "" ->
  jobs w !! id = Some job ->
  ProcessIntegratedJob TrimWhitespace tarNewReader ToLower integrated env errNotFound w =
  after [Log InfoLevel "running integrated sign job"
           [("job_id", runId env); ("app_id", AppId job)]]
    (bind (closure (signJob TrimWhitespace tarNewReader ToLower integrated env id
                      (AppId job) archive))
          (reportJob env id) w).
Proof.
  intros Htake Hid Hne Hjob. unfold ProcessIntegratedJob. rewrite Htake, Hid.
  run_step.
  apply String.eqb_neq in Hne. rewrite Hne.
  erewrite bind_eq by (unfold GetById; erewrite bind_eq by reflexivity; reflexivity).
  rewrite after_nil. simpl. rewrite Hjob.
  erewrite bind_eq by reflexivity. reflexivity.
Qed.

Local Abbreviation Process :=
  (ProcessIntegratedJob TrimWhitespace tarNewReader ToLower).

(** An attempt either only writes log lines, or it reaches the start of
    the sign script on a taken job whose application exists. *)
Lemma ProcessIntegratedJob_quiet_or_runs (integrated : Integrated) (env : Env)
    (errNotFound : error) (w : World) :
  Forall isLog (trace (Process integrated env errNotFound w)) \/
  (exists archive id job workDir w0,
      takeLastJob env = Taken archive /\
      extractJobIdFromArchive TrimWhitespace tarNewReader archive = Value id /\
      id <> "" /\ jobs w !! id = Some job /\
      mkdirTemp env = inr workDir /\ is_Some (apps w !! AppId job) /\
      jobs w0 = jobs w /\ apps w0 = apps w /\
      signJob TrimWhitespace tarNewReader ToLower integrated env id (AppId job) archive w
      = leaving (removeSandbox workDir)
          (runScript TrimWhitespace ToLower integrated env id (AppId job) workDir w0)).
Proof.
  destruct (takeLastJob env) as [archive|written err|partial err] eqn:Htake.
  - destruct (extractJobIdFromArchive TrimWhitespace tarNewReader archive)
      as [id|reason] eqn:Hid.
    2: { left. unfold ProcessIntegratedJob. rewrite Htake, Hid. constructor. }
    destruct (String.eqb_spec id "") as [->|Hne].
    { left. unfold ProcessIntegratedJob. rewrite Htake, Hid. constructor. }
    destruct (jobs w !! id) as [job|] eqn:Hjob.
    2: { left. unfold ProcessIntegratedJob. rewrite Htake, Hid.
         run_step.
         apply String.eqb_neq in Hne. rewrite Hne.
         erewrite bind_eq
           by (unfold GetById; erewrite bind_eq by reflexivity; reflexivity).
         rewrite after_nil. simpl. rewrite Hjob. constructor. }
    destruct (signJob_cases integrated env id (AppId job) archive w)
      as [(e & w' & Hs & _)|(workDir & w0 & Htemp & Hj & Ha & Happ & Hs)].
    + left. rewrite (ProcessIntegratedJob_taken _ _ _ _ _ _ _ Htake Hid Hne Hjob).
      rewrite closure_report, Hs. cbn [outcome final trace].
      destruct (reportJob_failed env id e w') as (tr & -> & Hlogs).
      simpl. constructor; [exact I|exact Hlogs].
    + right. exists archive, id, job, workDir, w0. auto 10.
  - left. unfold ProcessIntegratedJob. rewrite Htake.
    destruct (errors_Is err errNotFound);
      erewrite bind_eq by reflexivity; repeat constructor.
  - left. unfold ProcessIntegratedJob. rewrite Htake.
    erewrite bind_eq by reflexivity.
    destruct (extractJobIdFromArchive TrimWhitespace tarNewReader partial)
      as [id|reason]; [|repeat constructor].
    run_step.
    destruct (String.eqb id "").
    { erewrite bind_eq by reflexivity. repeat constructor. }
    unfold DeleteById.
    destruct (bool_decide (is_Some (jobs w !! id))) eqn:Hdel.
    + erewrite bind_eq.
      2: { erewrite bind_eq.
           2: { run_step.
                run_step.
                reflexivity. }
           simpl. rewrite Hdel. reflexivity. }
      repeat constructor.
    + erewrite bind_eq.
      2: { erewrite bind_eq.
           2: { run_step.
                run_step.
                reflexivity. }
           simpl. rewrite Hdel. reflexivity. }
      repeat constructor.
Qed.

(** The attempt that reaches the sign script, in full: what it returns,
    the world it leaves, and its events up to the log lines at the end. *)
Lemma ProcessIntegratedJob_runs (integrated : Integrated) (env : Env)
    (errNotFound : error) (w w0 : World) (archive id : string)
    (job : ReturnJob) (workDir : Path) :
  takeLastJob env = Taken archive ->
  extractJobIdFromArchive TrimWhitespace tarNewReader archive = Value id ->
  id <> "" -> jobs w !! id = Some job ->
  jobs w0 = jobs w -> apps w0 = apps w ->
  signJob TrimWhitespace tarNewReader ToLower integrated env id (AppId job) archive w
  = leaving (removeSandbox workDir)
      (runScript TrimWhitespace ToLower integrated env id (AppId job) workDir w0) ->
  let w1 := mkWorld (jobs w) (apps w) (fsAfter (procRun env))
                    (console w0 +:+ printedBy (procRun env)) in
  let rf := finishJob TrimWhitespace id (AppId job) workDir (waitErr (procRun env))
              (capturedBy (procRun env)) w1 in
  exists tail,
    Forall isLog tail /\
    Process integrated env errNotFound w =
    mkResult (outcome rf)
      (match outcome rf with
       | Failed _ =>
           withJobs (delete id (jobs (final rf))) (removeSandbox workDir (final rf))
       | _ => removeSandbox workDir (final rf)
       end)
      (Log InfoLevel "running integrated sign job"
         [("job_id", runId env); ("app_id", AppId job)]
       :: Started (signCmd integrated env workDir)
       :: flat_map (lineLog ToLower) (output (procRun env))
       ++ Exited (waitErr (procRun env)) :: tail).
Proof.
  intros Htake Hid Hne Hjob Hj Ha Hs w1 rf.
  rewrite (ProcessIntegratedJob_taken _ _ _ _ _ _ _ Htake Hid Hne Hjob).
  rewrite closure_report, Hs, runScript_result. rewrite Hj, Ha.
  subst rf w1. cbv zeta.
  set (rf := finishJob _ _ _ _ _ _ _).
  assert (Hlogs : Forall isLog (trace rf)) by apply finishJob_logs.
  clearbody rf.
  unfold leaving. cbn [outcome final trace].
  destruct (outcome rf) as [[]|e|reason].
  - exists (trace rf ++ [Log InfoLevel "integrated sign job completed"
                           [("job_id", runId env)]])%list.
    split; [apply Forall_app; split; [exact Hlogs|repeat constructor]|].
    unfold after, reportJob, emit. cbn [outcome final trace].
    f_equal. simpl. rewrite <- app_assoc. reflexivity.
  - destruct (reportJob_failed env id e (removeSandbox workDir (final rf)))
      as (tr & -> & Htr).
    exists (trace rf ++ tr)%list.
    split; [apply Forall_app; split; assumption|].
    unfold after. cbn [outcome final trace].
    f_equal. simpl. rewrite <- app_assoc. reflexivity.
  - exists (trace rf). split; [exact Hlogs|]. reflexivity.
Qed.

Lemma lineLog_logs (ls : list OutLine) :
  Forall isLog (flat_map (lineLog ToLower) ls).
Proof.
  induction ls as [|l ls IH]; simpl; [constructor|].
  apply Forall_app. split; [|exact IH].
  destruct l as [line|line]; simpl; [destruct (important ToLower line)|];
    repeat constructor.
Qed.

(** The events of an attempt that are not log lines: the start of the
    sign script in the sandbox, and its exit. *)
Lemma ProcessIntegratedJob_events (integrated : Integrated) (env : Env)
    (errNotFound : error) (w : World) (ev : Event) :
  In ev (trace (Process integrated env errNotFound w)) -> ~ isLog ev ->
  exists archive id job workDir w0,
    (takeLastJob env = Taken archive /\
     extractJobIdFromArchive TrimWhitespace tarNewReader archive = Value id /\
     id <> "" /\ jobs w !! id = Some job /\
     mkdirTemp env = inr workDir /\ is_Some (apps w !! AppId job) /\
     jobs w0 = jobs w /\ apps w0 = apps w /\
     signJob TrimWhitespace tarNewReader ToLower integrated env id (AppId job) archive w
     = leaving (removeSandbox workDir)
         (runScript TrimWhitespace ToLower integrated env id (AppId job) workDir w0)) /\
    (ev = Started (signCmd integrated env workDir) \/
     ev = Exited (waitErr (procRun env))).
Proof.
  intros Hin Hnolog.
  destruct (ProcessIntegratedJob_quiet_or_runs integrated env errNotFound w)
    as [Hquiet|(archive & id & job & workDir & w0 & H)].
  { rewrite Forall_forall in Hquiet. exfalso. apply Hnolog.
    apply Hquiet, list_elem_of_In, Hin. }
  exists archive, id, job, workDir, w0. split; [exact H|].
  destruct H as (Htake & Hid & Hne & Hjob & Htemp & Happ & Hj & Ha & Hs).
  destruct (ProcessIntegratedJob_runs integrated env errNotFound w w0 archive id
              job workDir Htake Hid Hne Hjob Hj Ha Hs) as (tail & Htail & Heq).
  rewrite Heq in Hin. cbn [trace] in Hin.
  destruct Hin as [<-|[<-|Hin]]; [exfalso; apply Hnolog; exact I|auto|].
  apply in_app_or in Hin as [Hin|[<-|Hin]]; [|auto|].
  - exfalso. apply Hnolog.
    pose proof (lineLog_logs (output (procRun env))) as Hl.
    rewrite Forall_forall in Hl. apply Hl, list_elem_of_In, Hin.
  - exfalso. apply Hnolog. rewrite Forall_forall in Htail.
    apply Htail, list_elem_of_In, Hin.
Qed.

Lemma signEnv_eq (environ : list string) (secrets : gmap string string) :
  signEnv environ secrets =
  (environ ++ map (fun kv => kv.1 +:+ "=" +:+ kv.2) (map_to_list secrets)
   ++ ["PYTHONUNBUFFERED=1"; "INTEGRATED_BUILDER=1"])%list.
Proof.
  unfold signEnv. generalize (map_to_list secrets) as l. intros l.
  revert environ. induction l as [|kv l IH]; intros environ; simpl.
  - reflexivity.
  - rewrite IH. rewrite <- !app_assoc. reflexivity.
Qed.

(** C8 (the code departs from it in its last part): of the lines read
    from the entrypoint's stdout, exactly those whose lower-cased text
    contains "error", "failed", "exception", a two-factor prompt phrase
    or "please enter" are logged; every line read from stderr is logged
    as a warning.  Every line of both streams is appended, newline-ended,
    to the capture buffer as long as no write of one scanner goroutine
    meets a write of the other -- so whenever only one of the streams
    delivers lines.  The two goroutines write to the one buffer without a
    lock: when their writes meet, the buffer holds what the race leaves,
    which need not be the lines read. *)
Theorem streamOutput_logs_and_captures (raced : option (string * string))
    (ls : list OutLine) (outputBuffer : string) (w : World) :
  let r := streamOutput ToLower raced ls outputBuffer w in
  (forall line,
      In (Log InfoLevel "sign script" [("line", line)]) (trace r) <->
      In (Stdout line) ls /\
      (Contains (ToLower line) "error" = true \/
       Contains (ToLower line) "failed" = true \/
       Contains (ToLower line) "exception" = true \/
       twoFactorPrompt (ToLower line) = true \/
       Contains (ToLower line) "please enter" = true)) /\
  (forall line,
      In (Log WarnLevel "sign script stderr" [("line", line)]) (trace r) <->
      In (Stderr line) ls) /\
  (raced = None \/ existsb isStdoutLine ls = false \/
   existsb isStderrLine ls = false ->
   outcome r = Done (outputBuffer +:+ captured ls)) /\
  (forall buffer printed,
      raced = Some (buffer, printed) ->
      existsb isStdoutLine ls = true -> existsb isStderrLine ls = true ->
      outcome r = Done (outputBuffer +:+ buffer)).
Proof.
  intros r. subst r. rewrite streamOutput_result. cbn [outcome trace].
  split; [|split; [|split]].
  - intros line; rewrite in_flat_map.
    rewrite <- important_cases. split.
    + intros ([l|l] & Hin & Hlog); simpl in Hlog.
      * destruct (important ToLower l) eqn:Himp; simpl in Hlog; [|tauto].
        destruct Hlog as [[= <-]|[]]. auto.
      * destruct Hlog as [Heq|[]]. discriminate.
    + intros [Hin Himp]. exists (Stdout line). split; [exact Hin|].
      simpl. rewrite Himp. left. reflexivity.
  - intros line; rewrite in_flat_map. split.
    + intros ([l|l] & Hin & Hlog); simpl in Hlog.
      * destruct (important ToLower l); simpl in Hlog; [|tauto].
        destruct Hlog as [Heq|[]]. discriminate.
      * destruct Hlog as [[= <-]|[]]. exact Hin.
    + intros Hin. exists (Stderr line). split; [exact Hin|].
      left. reflexivity.
  - intros Hserial. rewrite (overlapped_None _ _ Hserial). reflexivity.
  - intros buffer printed Hraced Hout Herr.
    rewrite (overlapped_Some _ _ Hout Herr), Hraced. reflexivity.
Qed.

(** C9: whenever an attempt starts the entrypoint, its working directory
    is the sandbox root (the directory os.MkdirTemp made), and its
    environment is the ambient environment followed by one key=value
    entry per builder secret (in the order the [range] visits the map,
    which Go leaves open), then PYTHONUNBUFFERED=1 and
    INTEGRATED_BUILDER=1. *)
Theorem entrypoint_started_in_sandbox (integrated : Integrated) (env : Env)
    (errNotFound : error) (w : World) (cmd : Cmd) :
  In (Started cmd) (trace (Process integrated env errNotFound w)) ->
  mkdirTemp env = inr (CmdDir cmd) /\
  (exists secretEntries,
      CmdEnv cmd =
        (environ env ++ secretEntries
         ++ ["PYTHONUNBUFFERED=1"; "INTEGRATED_BUILDER=1"])%list /\
      secretEntries ≡ₚ
        map (fun kv => kv.1 +:+ "=" +:+ kv.2) (map_to_list (GetSecrets integrated))) /\
  (forall entry,
      In entry (CmdEnv cmd) <->
      In entry (environ env) \/
      (exists key val, GetSecrets integrated !! key = Some val /\
                       entry = key +:+ "=" +:+ val) \/
      entry = "PYTHONUNBUFFERED=1" \/ entry = "INTEGRATED_BUILDER=1").
Proof.
  intros Hin.
  destruct (ProcessIntegratedJob_events integrated env errNotFound w _ Hin)
    as (archive & id & job & workDir & w0 & H & [Hev|Hev]);
    [intros []| |discriminate].
  destruct H as (_ & _ & _ & _ & Htemp & _).
  injection Hev as Hev. subst cmd. unfold signCmd. cbn [CmdDir CmdEnv].
  rewrite signEnv_eq. split; [exact Htemp|].
  split; [eexists; split; reflexivity|].
  intros entry. rewrite !in_app_iff, in_map_iff. simpl. split.
  - intros [H|[([k v] & <- & Hkv)|[<-|[<-|[]]]]]; auto.
    right; left. exists k, v. split; [|reflexivity].
    apply elem_of_map_to_list, list_elem_of_In, Hkv.
  - intros [H|[(k & v & Hkv & Heq)|[Heq|Heq]]]; subst; auto.
    right; left. exists (k, v). split; [reflexivity|].
    apply list_elem_of_In, elem_of_map_to_list, Hkv.
Qed.

(** C6 (the code departs from it): when the entrypoint exits non-zero (a
    deadline kill included), the attempt fails with the error "sign
    script" wrapping the process's error text, wrapping the capture buffer
    as the output goroutine left it; when it exits with status 0 no
    sign-script failure is reported.  The buffer holds lines the scanners
    read.  [cmd.Wait()] is called before the scanners are done, and closes
    the pipes once the process has exited: lines the entrypoint wrote
    shortly before can go unread.  When no line was read before the pipes
    were closed, the failure message is "sign script: <process error>: "
    and nothing more, whatever the entrypoint wrote to its error stream.
    The lines that were read from the error stream are in the message, as
    long as no two writes to the buffer met. *)
Theorem failed_script_reports_what_was_captured (integrated : Integrated)
    (env : Env) (errNotFound : error) (w : World) :
  let r := Process integrated env errNotFound w in
  let buffer := capturedBy (procRun env) in
  (forall err,
      In (Exited (Some err)) (trace r) ->
      let failure := WithMessage (WithMessage (errors_New buffer) (Error err))
                       "sign script" in
      outcome r = Failed failure /\
      Error failure = "sign script: " +:+ Error err +:+ ": " +:+ buffer /\
      (output (procRun env) = [] ->
       Error failure = "sign script: " +:+ Error err +:+ ": ") /\
      (raced (procRun env) = None ->
       forall line, In (Stderr line) (output (procRun env)) ->
                    Contains (Error failure) line = true)) /\
  (In (Exited None) (trace r) ->
   forall cause, outcome r <> Failed (WithMessage cause "sign script")).
Proof.
  intros r out. subst r. split.
  - intros err Hin failure.
    destruct (ProcessIntegratedJob_events integrated env errNotFound w _ Hin)
      as (archive & id & job & workDir & w0 & H & [Hev|Hev]);
      [intros []|discriminate|].
    destruct H as (Htake & Hid & Hne & Hjob & Htemp & Happ & Hj & Ha & Hs).
    destruct (ProcessIntegratedJob_runs integrated env errNotFound w w0 archive id
                job workDir Htake Hid Hne Hjob Hj Ha Hs) as (tail & _ & Heq).
    injection Hev as Hev. rewrite <- Hev in Heq.
    rewrite finishJob_failed in Heq. rewrite Heq. cbn [outcome].
    split; [reflexivity|]. split; [reflexivity|]. split.
    + intros Hnone. subst failure out. cbn [Error]. unfold capturedBy.
      rewrite Hnone. reflexivity.
    + intros Hserial line Hline. subst failure out. cbn [Error].
      unfold capturedBy. rewrite (overlapped_None _ _ (or_introl Hserial)).
      apply (Contains_app_l "sign script"), (Contains_app_l ": ").
      apply (Contains_app_l (Error err)), (Contains_app_l ": ").
      apply (captured_In _ (Stderr line)), Hline.
  - intros Hin cause.
    destruct (ProcessIntegratedJob_events integrated env errNotFound w _ Hin)
      as (archive & id & job & workDir & w0 & H & [Hev|Hev]);
      [intros []|discriminate|].
    destruct H as (Htake & Hid & Hne & Hjob & Htemp & Happ & Hj & Ha & Hs).
    destruct (ProcessIntegratedJob_runs integrated env errNotFound w w0 archive id
                job workDir Htake Hid Hne Hjob Hj Ha Hs) as (tail & _ & Heq).
    injection Hev as Hev. rewrite <- Hev in Heq. rewrite Heq. cbn [outcome].
    set (w1 := mkWorld _ _ _ _).
    destruct (Stat (fs w1) (Join workDir "signed.ipa")) as [[m|m content]|] eqn:Hst.
    + erewrite finishJob_directory by exact Hst. simpl. congruence.
    + destruct (finishJob_stored id (AppId job) workDir
                  (capturedBy (procRun env)) w1 m content Hst)
        as (tr & -> & _). simpl. congruence.
    + rewrite finishJob_missing by exact Hst. simpl. congruence.
Qed.


(** X22: an attempt on a taken archive that returns an error after the job
    id has been read from it leaves no queue entry of that id: the errors
    of the closure go through DeleteById (lines 338-345), and before the
    closure only a missing entry is an error. *)
Theorem failed_taken_attempt_deletes_entry (integrated : Integrated) (env : Env)
    (errNotFound : error) (w : World) (archiveBuffer id : string) (e : error) :
  takeLastJob env = Taken archiveBuffer ->
  extractJobIdFromArchive TrimWhitespace tarNewReader archiveBuffer = Value id ->
  id <> "" ->
  let r := Process integrated env errNotFound w in
  outcome r = Failed e ->
  jobs (final r) !! id = None.
Proof.
  intros Htake Hid Hne r Hfail. subst r.
  destruct (jobs w !! id) as [job|] eqn:Hjob.
  - rewrite (ProcessIntegratedJob_taken _ _ _ _ _ _ _ Htake Hid Hne Hjob)
      in Hfail |- *.
    rewrite closure_report in Hfail |- *.
    destruct (outcome (signJob _ _ _ _ _ _ _ _ _)) as [[]|e'|reason].
    + discriminate.
    + destruct (reportJob_failed env id e' (final (signJob TrimWhitespace
                  tarNewReader ToLower integrated env id (AppId job)
                  archiveBuffer w))) as (tr & -> & _).
      simpl. apply lookup_delete_eq.
    + discriminate.
  - revert Hfail. unfold ProcessIntegratedJob. rewrite Htake, Hid.
    run_step.
    apply String.eqb_neq in Hne. rewrite Hne.
    erewrite bind_eq
      by (unfold GetById; erewrite bind_eq by reflexivity; reflexivity).
    rewrite after_nil. simpl. rewrite Hjob. intros _. exact Hjob.
Qed.

(** C2 (the code departs from it): when TakeLastJob fails partway, after
    id.txt of the archive has gone through the pipe, the attempt returns
    that error and leaves the queue entry of the job where it is.  The
    buffer names the job, but the id is not read from it: the clean-up of
    lines 100-111 is written for a failing io.Copy, and io.Copy does not
    fail when the goroutine ends the pipe with pw.Close(); the error of
    TakeLastJob arrives on lines 114-119, which return it at once. *)
Theorem partial_take_leaves_entry (integrated : Integrated) (env : Env)
    (errNotFound : error) (w : World) (written id : string) (err : error)
    (job : ReturnJob) :
  takeLastJob env = TakeFailed written err ->
  errors_Is err errNotFound = false ->
  extractJobIdFromArchive TrimWhitespace tarNewReader written = Value id ->
  jobs w !! id = Some job ->
  let r := Process integrated env errNotFound w in
  outcome r = Failed err /\ jobs (final r) !! id = Some job /\ final r = w.
Proof.
  intros Htake Hnf _ Hjob r. subst r.
  unfold ProcessIntegratedJob. rewrite Htake, Hnf.
  erewrite bind_eq by reflexivity. simpl.
  split; [reflexivity|]. split; [exact Hjob|]. destruct w; reflexivity.
Qed.

(** X19: any other error of TakeLastJob is returned as it is, and logged
    once as an error: on this path the job id is never read, whatever the
    pipe delivered, and the queue, the applications and the files are left
    alone. *)
Lemma take_error_is_returned (integrated : Integrated) (env : Env)
    (errNotFound : error) (w : World) (written : string) (err : error) :
  takeLastJob env = TakeFailed written err ->
  errors_Is err errNotFound = false ->
  Process integrated env errNotFound w =
  mkResult (Failed err) w [Log ErrorLevel "take last job" [("error", Error err)]].
Proof.
  intros Htake Hnf. unfold ProcessIntegratedJob. rewrite Htake, Hnf.
  erewrite bind_eq by reflexivity. destruct w; reflexivity.
Qed.

(** C7: when TakeLastJob fails with the not-found error, the attempt
    returns nil and leaves the queue, the applications, the file system
    and the console as they were; it only writes a debug log line. *)
Theorem no_job_is_idle (integrated : Integrated) (env : Env)
    (errNotFound : error) (w : World) (written : string) (err : error) :
  takeLastJob env = TakeFailed written err ->
  errors_Is err errNotFound = true ->
  Process integrated env errNotFound w =
  mkResult (Done tt) w [Log DebugLevel "no job found for integrated builder" []].
Proof.
  intros Htake Hnf. unfold ProcessIntegratedJob. rewrite Htake, Hnf.
  erewrite bind_eq by reflexivity. destruct w; reflexivity.
Qed.

End JobFacts.

(** ** Extraction into the sandbox *)

Lemma fold_cleanStep_keeps (comps : list string) (stack : list string) :
  ~ In ".." comps ->
  exists extra, fold_left cleanStep comps stack = (extra ++ stack)%list.
Proof.
  revert stack. induction comps as [|c comps IH]; intros stack Hsafe; simpl.
  - exists []. reflexivity.
  - assert (Hc : c <> "..") by (intros ->; apply Hsafe; left; reflexivity).
    assert (Hrest : ~ In ".." comps) by (intros H; apply Hsafe; right; exact H).
    unfold cleanStep at 2.
    destruct (String.eqb c "" || String.eqb c "."); [apply IH, Hrest|].
    apply String.eqb_neq in Hc. rewrite Hc.
    destruct (IH (c :: stack) Hrest) as [extra ->].
    exists (extra ++ [c])%list. rewrite <- app_assoc. reflexivity.
Qed.

(** A name without ".." resolves inside the directory it is joined to. *)
Lemma Join_inside (workDir : Path) (name : string) :
  safeName name -> workDir `prefix_of` Join workDir name.
Proof.
  intros Hsafe. unfold Join.
  destruct (fold_cleanStep_keeps (splitSlash "" name) (rev workDir) Hsafe)
    as [extra ->].
  rewrite rev_app_distr, rev_involutive. exists (rev extra). reflexivity.
Qed.

Lemma mkdirFrom_frame (above : Path) (todo : list string) (perm : Z) (f f' : FS) :
  mkdirFrom above todo perm f = inr f' ->
  forall p, (length p <= length above)%nat \/ is_Some (f !! p) \/
            ~ p `prefix_of` (above ++ todo)%list ->
            f' !! p = f !! p.
Proof.
  revert above f. induction todo as [|c todo IH]; intros above f Hmk p Hp;
    simpl in Hmk.
  - congruence.
  - assert (Hlen : length (above ++ [c]) = S (length above))
      by (rewrite length_app; simpl; lia).
    assert (Happ : ((above ++ [c]) ++ todo = above ++ c :: todo)%list)
      by (rewrite <- app_assoc; reflexivity).
    destruct (f !! (above ++ [c])%list) as [[m|m content]|] eqn:Hnode;
      [|discriminate|].
    + apply (IH _ _ Hmk). rewrite Hlen, Happ.
      destruct Hp as [Hp|[Hp|Hp]]; [left; lia|auto|auto].
    + assert (Hne : (above ++ [c])%list <> p).
      { intros <-. destruct Hp as [Hp|[Hp|Hp]].
        - lia.
        - rewrite Hnode in Hp. destruct Hp; discriminate.
        - apply Hp. exists todo. symmetry. exact Happ. }
      rewrite (IH _ _ Hmk).
      * apply lookup_insert_ne. exact Hne.
      * rewrite Hlen, Happ. rewrite lookup_insert_ne by exact Hne.
        destruct Hp as [Hp|[Hp|Hp]]; [left; lia|auto|auto].
Qed.

(** MkdirAll leaves what exists, the root, and whatever is not on the way
    to its target. *)
Lemma MkdirAll_frame (target : Path) (perm : Z) (f f' : FS) :
  MkdirAll target perm f = inr f' ->
  forall p, p = [] \/ is_Some (f !! p) \/ ~ p `prefix_of` target ->
            f' !! p = f !! p.
Proof.
  intros Hmk p Hp. apply (mkdirFrom_frame [] target perm f f' Hmk).
  destruct Hp as [->|[Hp|Hp]]; auto.
Qed.

Lemma writeFile_frame (target : Path) (perm : Z) (content : string) (f f' : FS) :
  writeFile target perm content f = inr f' ->
  (forall p, p <> target -> f' !! p = f !! p) /\
  (forall m, Stat f target <> Some (Dir m)).
Proof.
  unfold writeFile. intros Hw.
  destruct (Stat f target) as [[m|m old]|] eqn:Hst; [discriminate| |].
  - injection Hw as <-. split; [|congruence].
    intros p Hp. apply lookup_insert_ne. congruence.
  - destruct (Stat f (parentDir target)) as [[m|m old]|]; try discriminate.
    injection Hw as <-. split; [|congruence].
    intros p Hp. apply lookup_insert_ne. congruence.
Qed.

Lemma mkdir_outside (workDir target target' : Path) (perm : Z) (f f' : FS) :
  sandboxExists workDir f ->
  workDir `prefix_of` target -> target' `prefix_of` target ->
  MkdirAll target' perm f = inr f' ->
  sandboxExists workDir f' /\
  forall p, ~ workDir `prefix_of` p -> f' !! p = f !! p.
Proof.
  intros Hex Hwd Ht Hmk. split.
  - intros p Hne Hp. destruct (Hex p Hne Hp) as [m Hm]. exists m.
    rewrite (MkdirAll_frame _ _ _ _ Hmk); [exact Hm|].
    right; left. rewrite Hm. eauto.
  - intros p Hout. apply (MkdirAll_frame _ _ _ _ Hmk).
    destruct (decide (p = [])) as [->|Hne]; [auto|].
    destruct (decide (p `prefix_of` target')) as [Hp|Hp]; [|auto].
    right; left.
    assert (Hpt : p `prefix_of` target) by (etrans; eassumption).
    destruct (prefix_weak_total _ _ _ Hwd Hpt) as [H|H]; [contradiction|].
    destruct (Hex p Hne H) as [m ->]. eauto.
Qed.

Lemma write_outside (workDir target : Path) (perm : Z) (content : string)
    (f f' : FS) :
  sandboxExists workDir f ->
  workDir `prefix_of` target ->
  writeFile target perm content f = inr f' ->
  sandboxExists workDir f' /\
  forall p, ~ workDir `prefix_of` p -> f' !! p = f !! p.
Proof.
  intros Hex Hwd Hw. destruct (writeFile_frame _ _ _ _ _ Hw) as [Hframe Hnodir].
  split.
  - intros p Hne Hp. destruct (Hex p Hne Hp) as [m Hm]. exists m.
    rewrite Hframe; [exact Hm|].
    intros ->. apply (Hnodir m). unfold Stat.
    destruct target; [congruence|exact Hm].
  - intros p Hout. apply Hframe. intros ->. contradiction.
Qed.

Lemma parentDir_prefix (p : Path) : parentDir p `prefix_of` p.
Proof.
  unfold parentDir. destruct (decide (p = [])) as [->|Hne]; [reflexivity|].
  exists [List.last p ""]. apply app_removelast_last. exact Hne.
Qed.

(** C3, as the code has it: entry names are not checked.  An entry whose
    name has no ".." component resolves inside the sandbox, and
    extracting an archive of such entries -- into a sandbox that exists
    -- leaves every path outside the sandbox as it was. *)
Theorem extraction_of_safe_names_stays_inside (workDir : Path)
    (es : list Entry) (ending : option error) (w : World) :
  sandboxExists workDir (fs w) ->
  Forall (fun e => safeName (Name (hdr e))) es ->
  Forall (fun e => workDir `prefix_of` Join workDir (Name (hdr e))) es /\
  forall p, ~ workDir `prefix_of` p ->
            fs (final (extractEntries workDir es ending w)) !! p = fs w !! p.
Proof.
  intros Hex Hsafe. split.
  { eapply Forall_impl; [exact Hsafe|]. intros e He. apply Join_inside, He. }
  revert w Hex. induction Hsafe as [|e es He Hes IH]; intros w Hex p Hout.
  - simpl. destruct ending; reflexivity.
  - simpl extractEntries. run_step.
    pose proof (Join_inside workDir _ He) as Hin.
    destruct (Ascii.eqb (Typeflag (hdr e)) TypeDir).
    + destruct (MkdirAll _ _ _) as [err|f] eqn:Hmk.
      { run_fail. reflexivity. }
      destruct (mkdir_outside workDir _ _ _ _ _ Hex Hin (reflexivity _) Hmk)
        as [Hex' Hframe].
      run_step.
      run_step.
      etrans; [apply IH; [exact Hex'|exact Hout]|].
      apply Hframe, Hout.
    + destruct (MkdirAll _ _ _) as [err|f] eqn:Hmk.
      { run_fail. reflexivity. }
      destruct (mkdir_outside workDir _ _ _ _ _ Hex Hin (parentDir_prefix _) Hmk)
        as [Hex' Hframe].
      run_step.
      run_step.
      destruct (writeFile _ _ _ _) as [err|f'] eqn:Hw.
      { run_fail. simpl. apply Hframe, Hout. }
      destruct (write_outside workDir _ _ _ _ _ Hex' Hin Hw) as [Hex'' Hframe'].
      run_step.
      run_step.
      destruct (dataErr e).
      { run_fail. simpl.
        rewrite Hframe' by exact Hout. apply Hframe, Hout. }
      run_step.
      etrans; [apply IH; [exact Hex''|exact Hout]|].
      simpl. rewrite Hframe' by exact Hout. apply Hframe, Hout.
Qed.

Lemma tmpJob_exists : sandboxExists tmpJob (fs tmpJobWorld).
Proof.
  intros p Hne [k Hk]. unfold tmpJob in Hk.
  destruct p as [|a [|b [|c p]]]; try congruence.
  - injection Hk as <- _. exists 511. vm_compute. reflexivity.
  - injection Hk as <- <- _. exists 448. vm_compute. reflexivity.
  - destruct p; discriminate.
Defined.

(** C3, as stated, fails: the entry "../evil.txt" is not rejected.  The
    extraction into the sandbox /tmp/job succeeds and creates the file
    /tmp/evil.txt, outside the sandbox. *)
Lemma extraction_climbs_out_of_sandbox :
  sandboxExists tmpJob (fs tmpJobWorld) /\
  Join tmpJob (Name (hdr climbingEntry)) = ["tmp"; "evil.txt"] /\
  ~ tmpJob `prefix_of` ["tmp"; "evil.txt"] /\
  outcome (extractEntries tmpJob [climbingEntry] None tmpJobWorld) = Done tt /\
  fs tmpJobWorld !! ["tmp"; "evil.txt"] = None /\
  fs (final (extractEntries tmpJob [climbingEntry] None tmpJobWorld))
    !! ["tmp"; "evil.txt"] = Some (File 420 "evil").
Proof.
  split; [|split; [|split; [|split; [|split]]]].
  - exact tmpJob_exists.
  - vm_compute. reflexivity.
  - intros [k Hk]. discriminate.
  - vm_compute. reflexivity.
  - vm_compute. reflexivity.
  - vm_compute. reflexivity.
Qed.

(** ** The two-factor prompt *)

Lemma GetByAppId_Some (jobs : gmap string ReturnJob) (appId id : string)
    (j : ReturnJob) :
  GetByAppId jobs appId = Some (id, j) -> jobs !! id = Some j /\ AppId j = appId.
Proof.
  unfold GetByAppId. intros H. apply find_some in H as [Hin Heq].
  split.
  - apply elem_of_map_to_list, list_elem_of_In, Hin.
  - apply String.eqb_eq, Heq.
Qed.

Lemma GetByAppId_None (jobs : gmap string ReturnJob) (appId : string) :
  GetByAppId jobs appId = None ->
  forall id j, jobs !! id = Some j -> AppId j <> appId.
Proof.
  unfold GetByAppId. intros H id j Hj Heq.
  pose proof (find_none _ _ H (id, j)) as Hnone. simpl in Hnone.
  rewrite (proj2 (String.eqb_eq _ _) Heq) in Hnone.
  assert (true = false); [|discriminate]. apply Hnone.
  apply list_elem_of_In, elem_of_map_to_list, Hj.
Qed.

Section PromptFacts.

Variable TrimSpace : string -> string.

(** C10: given a line on standard input, Prompt2FA returns the trimmed
    line and no error, whether or not the queue has an entry for the
    application.  Without an entry nothing is stored and nothing logged:
    queue, applications and files stay as they were.  With an entry, the
    trimmed code is stored in the two-factor slot of an entry of that
    application. *)
Theorem Prompt2FA_returns_trimmed_code (stdin line rest appId : string)
    (w : World) :
  ReadString stdin = Some (line, rest) ->
  let r := Prompt2FA TrimSpace stdin appId w in
  outcome r = Done (TrimSpace line) /\
  ((forall id j, jobs w !! id = Some j -> AppId j <> appId) ->
   jobs (final r) = jobs w /\ apps (final r) = apps w /\
   fs (final r) = fs w /\ trace r = []) /\
  ((exists id j, jobs w !! id = Some j /\ AppId j = appId) ->
   exists id j, jobs w !! id = Some j /\ AppId j = appId /\
                jobs (final r) = <[id := mkReturnJob appId (TrimSpace line)]> (jobs w)).
Proof.
  intros Hread r. subst r. unfold Prompt2FA.
  erewrite bind_eq by reflexivity. rewrite Hread.
  erewrite bind_eq by reflexivity. cbn [jobs].
  destruct (GetByAppId (jobs w) appId) as [[id j]|] eqn:Hget.
  - apply GetByAppId_Some in Hget as [Hj Happ].
    erewrite bind_eq by (erewrite bind_eq by reflexivity; reflexivity).
    cbn [outcome final trace ret after]. split; [reflexivity|]. split.
    + intros Hnone. exfalso. exact (Hnone id j Hj Happ).
    + intros _. exists id, j. rewrite Happ. auto.
  - erewrite bind_eq by reflexivity.
    cbn [outcome final trace ret after]. split; [reflexivity|]. split.
    + intros _. auto.
    + intros (id & j & Hj & Happ). exfalso.
      exact (GetByAppId_None _ _ Hget id j Hj Happ).
Qed.

End PromptFacts.

(** ** The wait loop *)

(** How a turn of the loop body can leave the loop. *)
Lemma pollOnce_leaves (appId : string) (p : Poll) (st : LoopState)
    (result : option error) (log : list Event) :
  pollOnce appId p st = (inl result, log) ->
  job p = None /\
  ((result = None /\ isSigned p = inr true) \/
   (exists e, result = Some (WithMessage e "check signed status") /\
              isSigned p = inl e) \/
   (result = Some errNotSigned /\ isSigned p = inr false /\
    status p = (false, false))).
Proof.
  unfold pollOnce. destruct (job p) as [[jobId j]|].
  - destruct (String.eqb (returnJobId st) "");
      destruct (checkInterval <=? sinceLastCheck p);
      destruct (String.eqb (TwoFactorCode j) "");
      destruct (negb (twoFAMessageShown st));
      destruct (5 * Second <? sinceStartAgain p); simpl; discriminate.
  - intros H. split; [reflexivity|].
    destruct (isSigned p) as [e|[|]].
    + injection H as <- _. right; left. eauto.
    + injection H as <- _. left. auto.
    + destruct (status p) as [[|] [|]]; simpl in H; try discriminate.
      injection H as <- _. right; right. auto.
Qed.

(** A turn of the loop body that goes on to the sleep. *)
Lemma pollOnce_goes_on (appId : string) (p : Poll) (st st' : LoopState)
    (log : list Event) :
  pollOnce appId p st = (inr st', log) -> goesOn p.
Proof.
  unfold pollOnce, goesOn. intros H.
  destruct (job p) as [[jobId j]|]; [left; discriminate|]. right.
  destruct (isSigned p) as [e|[|]]; try discriminate.
  destruct (status p) as [[|] [|]]; simpl in H; try discriminate;
    split; congruence.
Qed.

Lemma sleeps_advance (polls : nat -> Poll) (i k : nat) :
  sleeps polls ->
  sinceStart (polls i) + Z.of_nat k * pollInterval <= sinceStart (polls (i + k)%nat).
Proof.
  intros Hs. induction k as [|k IH].
  - rewrite Nat.add_0_r. lia.
  - replace (i + S k)%nat with (S (i + k)) by lia.
    pose proof (Hs (i + k)%nat). lia.
Qed.

(** From any turn on, a loop whose deadline is reached [k] turns later
    leaves within [k] turns, in one of four ways, at the first turn that
    does not go on. *)
Lemma waitLoop_from (maxWaitTime : Z) (appId : string) (polls : nat -> Poll)
    (k i : nat) (st : LoopState) :
  maxWaitTime <= sinceStart (polls (i + k)%nat) ->
  exists n result log,
    (i <= n <= i + k)%nat /\
    (forall fuel, (n - i < fuel)%nat ->
                  waitLoop fuel maxWaitTime appId polls i st = Some (result, log)) /\
    (forall t, (i <= t < n)%nat ->
               sinceStart (polls t) < maxWaitTime /\ goesOn (polls t)) /\
    ((result = None /\ sinceStart (polls n) < maxWaitTime /\
      job (polls n) = None /\ isSigned (polls n) = inr true) \/
     (exists e, result = Some (WithMessage e "check signed status") /\
                sinceStart (polls n) < maxWaitTime /\
                job (polls n) = None /\ isSigned (polls n) = inl e) \/
     (result = Some errNotSigned /\ sinceStart (polls n) < maxWaitTime /\
      job (polls n) = None /\ isSigned (polls n) = inr false /\
      status (polls n) = (false, false)) \/
     (result = Some errTimeout /\ maxWaitTime <= sinceStart (polls n))).
Proof.
  revert i st. induction k as [|k IH]; intros i st Hdead.
  - rewrite Nat.add_0_r in Hdead.
    exists i, (Some errTimeout), []. split; [lia|]. split; [|split].
    + intros [|fuel] Hf; [lia|]. simpl.
      destruct (Z.ltb_spec (sinceStart (polls i)) maxWaitTime); [lia|reflexivity].
    + intros t Ht. lia.
    + auto 10.
  - destruct (Z.ltb_spec (sinceStart (polls i)) maxWaitTime) as [Hlt|Hge].
    2: { exists i, (Some errTimeout), []. split; [lia|]. split; [|split].
         - intros [|fuel] Hf; [lia|]. simpl.
           destruct (Z.ltb_spec (sinceStart (polls i)) maxWaitTime);
             [lia|reflexivity].
         - intros t Ht. lia.
         - auto 10. }
    destruct (pollOnce appId (polls i) st) as [[result|st'] log] eqn:Hpoll.
    + exists i, result, log. split; [lia|]. split; [|split].
      * intros [|fuel] Hf; [lia|]. simpl.
        destruct (Z.ltb_spec (sinceStart (polls i)) maxWaitTime); [|lia].
        rewrite Hpoll. reflexivity.
      * intros t Ht. lia.
      * destruct (pollOnce_leaves _ _ _ _ _ Hpoll)
          as (Hjob & [(-> & Hs)|[(e & -> & Hs)|(-> & Hs & Hst)]]); eauto 10.
    + replace (i + S k)%nat with (S i + k)%nat in Hdead by lia.
      destruct (IH (S i) st' Hdead) as (n & result & log' & Hn & Hrun & Hin & Hcase).
      exists n, result, (log ++ log')%list. split; [lia|]. split; [|split].
      * intros [|fuel] Hf; [lia|]. simpl.
        destruct (Z.ltb_spec (sinceStart (polls i)) maxWaitTime); [|lia].
        rewrite Hpoll. rewrite (Hrun fuel) by lia. reflexivity.
      * intros t Ht. destruct (decide (t = i)) as [->|Hne].
        -- split; [exact Hlt|]. exact (pollOnce_goes_on _ _ _ _ _ Hpoll).
        -- apply Hin. lia.
      * exact Hcase.
Qed.

Lemma waitLoop_leaves (maxWaitTime : Z) (appId : string)
    (polls : nat -> Poll) :
  sleeps polls ->
  exists n result log,
    (forall fuel, (n < fuel)%nat ->
                  waitLoop fuel maxWaitTime appId polls 0 (mkLoopState "" false)
                  = Some (result, log)) /\
    (forall t, (t < n)%nat ->
               sinceStart (polls t) < maxWaitTime /\ goesOn (polls t)) /\
    ((result = None /\ sinceStart (polls n) < maxWaitTime /\
      job (polls n) = None /\ isSigned (polls n) = inr true) \/
     (exists e, result = Some (WithMessage e "check signed status") /\
                sinceStart (polls n) < maxWaitTime /\
                job (polls n) = None /\ isSigned (polls n) = inl e) \/
     (result = Some errNotSigned /\ sinceStart (polls n) < maxWaitTime /\
      job (polls n) = None /\ isSigned (polls n) = inr false /\
      status (polls n) = (false, false)) \/
     (result = Some errTimeout /\ maxWaitTime <= sinceStart (polls n))).
Proof.
  intros Hs.
  set (k := Z.to_nat (maxWaitTime - sinceStart (polls 0%nat))).
  assert (Hdead : maxWaitTime <= sinceStart (polls (0 + k)%nat)).
  { pose proof (sleeps_advance polls 0 k Hs) as Hadv.
    unfold pollInterval, Millisecond in Hadv. subst k.
    destruct (Z.le_gt_cases maxWaitTime (sinceStart (polls 0%nat))).
    - replace (Z.to_nat (maxWaitTime - sinceStart (polls 0%nat))) with 0%nat in * by lia.
      simpl. lia.
    - rewrite Z2Nat.id in Hadv by lia. lia. }
  destruct (waitLoop_from maxWaitTime appId polls k 0 (mkLoopState "" false) Hdead)
    as (n & result & log & Hn & Hrun & Hin & Hcase).
  exists n, result, log. split; [|split].
  - intros fuel Hf. apply Hrun. lia.
  - intros t Ht. apply Hin. lia.
  - exact Hcase.
Qed.

(** The four results of the wait loop are four different values. *)
Lemma wait_results_differ (e : error) :
  None <> Some (WithMessage e "check signed status") /\
  None <> Some errNotSigned /\ None <> Some errTimeout /\
  Some (WithMessage e "check signed status") <> Some errNotSigned /\
  Some (WithMessage e "check signed status") <> Some errTimeout /\
  Some errNotSigned <> Some errTimeout.
Proof. repeat split; discriminate. Qed.

(** C1, as the code has it: once the builder is triggered, and when every
    sleep lasts at least the poll interval, processIntegratedJobDirectly
    returns after finitely many turns of its loop, at the first turn [n]
    that does not go on: every earlier turn was within the deadline and
    found an entry for the application in the queue, or found none, the
    application not signed and the job still pending or known.  It
    returns there with one of four results
    (four different values): success, when the queue has no entry for the
    application and IsSigned reports true; the "check signed status"
    failure, when the queue has no entry and IsSigned fails; the
    "completed but not signed" failure, when the queue has no entry, the
    application is not signed and the job status is neither pending nor
    existing; the timeout failure, when the builder's job deadline has
    passed at the loop test.  So success is only reported for a signed
    application. *)
Theorem processIntegratedJobDirectly_leaves_in_one_of_four_ways
    (integrated : Integrated) (appId : string) (polls : nat -> Poll) :
  sleeps polls ->
  let maxWaitTime := GetJobTimeout integrated in
  exists n result log,
    (forall fuel, (n < fuel)%nat ->
                  processIntegratedJobDirectly fuel integrated None appId polls
                  = Some (result, log)) /\
    (forall t, (t < n)%nat ->
               sinceStart (polls t) < maxWaitTime /\ goesOn (polls t)) /\
    ((result = None /\ sinceStart (polls n) < maxWaitTime /\
      job (polls n) = None /\ isSigned (polls n) = inr true) \/
     (exists e, result = Some (WithMessage e "check signed status") /\
                sinceStart (polls n) < maxWaitTime /\
                job (polls n) = None /\ isSigned (polls n) = inl e) \/
     (result = Some errNotSigned /\ sinceStart (polls n) < maxWaitTime /\
      job (polls n) = None /\ isSigned (polls n) = inr false /\
      status (polls n) = (false, false)) \/
     (result = Some errTimeout /\ maxWaitTime <= sinceStart (polls n))).
Proof.
  intros Hs maxWaitTime.
  destruct (waitLoop_leaves maxWaitTime appId polls Hs)
    as (n & result & log & Hrun & Hin & Hcase).
  exists n, result,
    (Log InfoLevel "triggered builder, waiting for completion" [("app_id", appId)]
       :: log).
  split; [|split; [exact Hin|exact Hcase]].
  intros fuel Hf. unfold processIntegratedJobDirectly.
  fold maxWaitTime. rewrite (Hrun fuel Hf). reflexivity.
Qed.

(** C1, as stated, fails.  With no queue entry and a failing IsSigned the
    wait ends at its first turn with the "check signed status" error,
    which is none of success, "completed but not signed" and timeout.  And
    a wait for a job that stays pending, never taken, ends in the timeout
    while the queue has no entry for the application. *)
Lemma wait_ends_outside_the_three_outcomes :
  sleeps checkFailsPolls /\
  processIntegratedJobDirectly 1 integratedBuilder None "app-1" checkFailsPolls
  = Some (Some (WithMessage statFailed "check signed status"),
          [Log InfoLevel "triggered builder, waiting for completion"
             [("app_id", "app-1")]]) /\
  ~ namedOutcome (Some (WithMessage statFailed "check signed status")) /\
  sleeps pendingPolls /\
  processIntegratedJobDirectly 3 quickBuilder None "app-1" pendingPolls
  = Some (Some errTimeout,
          [Log InfoLevel "triggered builder, waiting for completion"
             [("app_id", "app-1")]]) /\
  job (pendingPolls 2) = None.
Proof.
  split; [|split; [|split; [|split; [|split]]]].
  - intros i. unfold checkFailsPolls. cbn [sinceStart].
    unfold pollInterval, Millisecond. lia.
  - vm_compute. reflexivity.
  - intros [H|[H|H]]; discriminate.
  - intros i. unfold pendingPolls. cbn [sinceStart].
    unfold pollInterval, Millisecond. lia.
  - vm_compute. reflexivity.
  - reflexivity.
Qed.

(** ** The theorems at work on the fixtures *)

Lemma oversized_archive_panics :
  String.length "x" <> 0%nat /\
  List.find isIdEntry (entries (readOversized "x"))
  = Some (mkEntry (mkHeader "id.txt" "0"%char (2 ^ 62) 420) "" None) /\
  maxAlloc < 2 ^ 62 /\
  extractJobIdFromArchive asciiTrim readOversized "x"
  = Panic "makeslice: len out of range".
Proof.
  split; [discriminate|]. split; [reflexivity|]. split; [reflexivity|].
  apply (extractJobIdFromArchive_panics_on_refused_size asciiTrim readOversized "x"
           (mkEntry (mkHeader "id.txt" "0"%char (2 ^ 62) 420) "" None)).
  - discriminate.
  - reflexivity.
  - right. reflexivity.
Defined.

Lemma failed_run_deletes_entry :
  outcome (attempt (Taken jobArchive) failedRun)
  = Failed (WithMessage
              (WithMessage (errors_New (captured (output failedRun))) "exit status 1")
              "sign script") /\
  jobs (final (attempt (Taken jobArchive) failedRun)) !! "job-1" = None.
Proof.
  split; [vm_compute; reflexivity|].
  refine (failed_taken_attempt_deletes_entry asciiTrim readJobArchive asciiLower
            integratedBuilder (envWith (Taken jobArchive) failedRun)
            errNotFound queuedWorld jobArchive "job-1" _ _ _ _ _).
  - reflexivity.
  - vm_compute. reflexivity.
  - discriminate.
  - vm_compute. reflexivity.
Defined.

Lemma partial_take_keeps_job_entry :
  extractJobIdFromArchive asciiTrim readJobArchive jobArchive = Value "job-1" /\
  outcome (attempt (TakeFailed jobArchive (ExtError "disk error")) signedRun)
  = Failed (ExtError "disk error") /\
  jobs (final (attempt (TakeFailed jobArchive (ExtError "disk error")) signedRun))
    !! "job-1" = Some (mkReturnJob "app-1" "").
Proof.
  assert (Hid : extractJobIdFromArchive asciiTrim readJobArchive jobArchive
                = Value "job-1") by (vm_compute; reflexivity).
  split; [exact Hid|].
  destruct (partial_take_leaves_entry asciiTrim readJobArchive asciiLower
              integratedBuilder
              (envWith (TakeFailed jobArchive (ExtError "disk error")) signedRun)
              errNotFound queuedWorld jobArchive "job-1" (ExtError "disk error")
              (mkReturnJob "app-1" "")) as (Hout & Hjob & _).
  - reflexivity.
  - vm_compute. reflexivity.
  - exact Hid.
  - vm_compute. reflexivity.
  - split; [exact Hout|exact Hjob].
Defined.


Lemma unread_error_text_is_missing :
  In (Stderr "ERROR: cert expired") (written lostRun) /\
  scannedFrom lostRun /\
  In (Exited (Some (ExtError "exit status 1")))
     (trace (attempt (Taken jobArchive) lostRun)) /\
  exists failure,
    outcome (attempt (Taken jobArchive) lostRun) = Failed failure /\
    Error failure = "sign script: exit status 1: " /\
    Contains (Error failure) "ERROR: cert expired" = false.
Proof.
  assert (Hexit : In (Exited (Some (ExtError "exit status 1")))
                     (trace (attempt (Taken jobArchive) lostRun))).
  { vm_compute. right; right; left. reflexivity. }
  split; [left; reflexivity|].
  split; [split; apply prefix_nil|].
  split; [exact Hexit|].
  destruct (proj1 (failed_script_reports_what_was_captured asciiTrim readJobArchive
                     asciiLower integratedBuilder (envWith (Taken jobArchive) lostRun)
                     errNotFound queuedWorld) _ Hexit) as (Hout & _ & Hnone & _).
  eexists. split; [exact Hout|].
  split; [exact (Hnone eq_refl)|].
  rewrite (Hnone eq_refl). vm_compute. reflexivity.
Defined.

Lemma meeting_writes_lose_a_line :
  outcome (streamOutput asciiLower (raced racedRun) (output racedRun) "" queuedWorld)
  = Done ("ERROR: cert expired" +:+ nl) /\
  In (Stdout "Signing app") (output racedRun) /\
  Contains ("ERROR: cert expired" +:+ nl) "Signing app" = false.
Proof.
  split; [|split; [left; reflexivity|vm_compute; reflexivity]].
  exact (proj2 (proj2 (proj2 (streamOutput_logs_and_captures asciiTrim readJobArchive
                                asciiLower (raced racedRun) (output racedRun) ""
                                queuedWorld)))
           ("ERROR: cert expired" +:+ nl)
           ("ERROR: cert expired" +:+ nl +:+ "Signing app" +:+ nl)
           eq_refl eq_refl eq_refl).
Defined.

Lemma idle_attempt_changes_nothing :
  errors_Is errNotFound errNotFound = true /\
  attempt (TakeFailed "" errNotFound) signedRun
  = mkResult (Done tt) queuedWorld
      [Log DebugLevel "no job found for integrated builder" []].
Proof.
  split; [vm_compute; reflexivity|].
  apply (no_job_is_idle asciiTrim readJobArchive asciiLower integratedBuilder
           (envWith (TakeFailed "" errNotFound) signedRun) errNotFound
           queuedWorld "" errNotFound).
  - reflexivity.
  - vm_compute. reflexivity.
Defined.

Lemma fixture_entrypoint_started_in_sandbox :
  In (Started fixtureCmd) (trace (attempt (Taken jobArchive) signedRun)) /\
  mkdirTemp (envWith (Taken jobArchive) signedRun) = inr (CmdDir fixtureCmd) /\
  (In "SECRET_KEY=k3y" (CmdEnv fixtureCmd) <->
   In "SECRET_KEY=k3y" (environ (envWith (Taken jobArchive) signedRun)) \/
   (exists key val, GetSecrets integratedBuilder !! key = Some val /\
                    "SECRET_KEY=k3y" = key +:+ "=" +:+ val) \/
   "SECRET_KEY=k3y" = "PYTHONUNBUFFERED=1" \/
   "SECRET_KEY=k3y" = "INTEGRATED_BUILDER=1").
Proof.
  assert (Hstart : In (Started fixtureCmd)
                      (trace (attempt (Taken jobArchive) signedRun))).
  { vm_compute. right; left. reflexivity. }
  split; [exact Hstart|].
  destruct (entrypoint_started_in_sandbox asciiTrim readJobArchive asciiLower
              integratedBuilder (envWith (Taken jobArchive) signedRun)
              errNotFound queuedWorld fixtureCmd Hstart) as (Hdir & _ & Henv).
  split; [exact Hdir|]. apply Henv.
Defined.

Lemma prompt_stores_code :
  ReadString (" 123456 " +:+ nl +:+ "rest") = Some (" 123456 " +:+ nl, "rest") /\
  outcome (Prompt2FA asciiTrim (" 123456 " +:+ nl +:+ "rest") "app-1" queuedWorld)
  = Done (asciiTrim (" 123456 " +:+ nl)) /\
  asciiTrim (" 123456 " +:+ nl) = "123456".
Proof.
  split; [vm_compute; reflexivity|].
  split; [|vm_compute; reflexivity].
  apply (Prompt2FA_returns_trimmed_code asciiTrim (" 123456 " +:+ nl +:+ "rest")
           (" 123456 " +:+ nl) "rest" "app-1" queuedWorld).
  vm_compute. reflexivity.
Defined.

Lemma signedPolls_sleep : sleeps signedPolls.
Proof.
  intros i. unfold signedPolls. cbn [sinceStart].
  rewrite Nat2Z.inj_succ. unfold pollInterval, Millisecond. lia.
Defined.

Lemma signed_wait_leaves :
  sleeps signedPolls /\
  exists log,
    forall fuel, (2 < fuel)%nat ->
                 processIntegratedJobDirectly fuel integratedBuilder None "app-1"
                   signedPolls = Some (None, log).
Proof.
  split; [exact signedPolls_sleep|].
  pose proof (processIntegratedJobDirectly_leaves_in_one_of_four_ways
                integratedBuilder "app-1" signedPolls signedPolls_sleep) as Hleaves.
  cbv zeta in Hleaves.
  destruct Hleaves as (n & result & log & Hrun & Hbefore & Hcase).
  assert (Hn : n = 2%nat).
  { destruct (Nat.lt_trichotomy n 2) as [Hlt|[Heq|Hgt]]; [|exact Heq|]; exfalso.
    - destruct n as [|[|n]]; [| |lia];
        destruct Hcase as [(_ & _ & Hjob & _)
                          |[(e & _ & _ & Hjob & _)
                           |[(_ & _ & Hjob & _)|(_ & Hdead)]]];
        try discriminate Hjob; apply Hdead; reflexivity.
    - destruct (Hbefore 2%nat Hgt) as [_ [Hjob|[Hsigned _]]];
        [apply Hjob; reflexivity|discriminate Hsigned]. }
  subst n.
  assert (Hres : result = None).
  { destruct Hcase as [(Hres & _)
                      |[(e & _ & _ & _ & Hsigned)
                       |[(_ & _ & _ & Hsigned & _)|(_ & Hdead)]]];
      [exact Hres|discriminate Hsigned|discriminate Hsigned|].
    exfalso. apply Hdead. reflexivity. }
  subst result. exists log. exact Hrun.
Defined.

Lemma job_archive_stays_inside :
  sandboxExists tmpJob (fs tmpJobWorld) /\
  Forall (fun e => safeName (Name (hdr e))) jobEntries /\
  forall p, ~ tmpJob `prefix_of` p ->
            fs (final (extractEntries tmpJob jobEntries None tmpJobWorld)) !! p
            = fs tmpJobWorld !! p.
Proof.
  assert (Hsafe : Forall (fun e => safeName (Name (hdr e))) jobEntries).
  { repeat constructor; vm_compute; intuition discriminate. }
  split; [exact tmpJob_exists|]. split; [exact Hsafe|].
  apply (extraction_of_safe_names_stays_inside tmpJob jobEntries None tmpJobWorld
           tmpJob_exists Hsafe).
Defined.

(** ** More on job attempts: what they leave behind *)

Section AttemptFacts.

Variable TrimWhitespace : string -> string.
Variable tarNewReader : string -> TarStream.
Variable ToLower : string -> string.

Local Abbreviation Process :=
  (ProcessIntegratedJob TrimWhitespace tarNewReader ToLower).
Local Abbreviation extractId :=
  (extractJobIdFromArchive TrimWhitespace tarNewReader).

(** An attempt that does not reach the sign script: what it returns and
    what it leaves, case by case; or it reaches the script. *)
Lemma ProcessIntegratedJob_shape (integrated : Integrated) (env : Env)
    (errNotFound : error) (w : World) :
  let r := Process integrated env errNotFound w in
  (Forall isLog (trace r) /\ apps (final r) = apps w /\
   ((exists written err,
        takeLastJob env = TakeFailed written err /\ final r = w /\
        outcome r = if errors_Is err errNotFound then Done tt else Failed err) \/
    (exists buf reason,
        archiveOf (takeLastJob env) = Some buf /\ extractId buf = Panic reason /\
        outcome r = Panicked reason /\ final r = w) \/
    (exists buf e,
        archiveOf (takeLastJob env) = Some buf /\ extractId buf = Value "" /\
        outcome r = Failed e /\ final r = w) \/
    (exists buf id e,
        archiveOf (takeLastJob env) = Some buf /\ extractId buf = Value id /\
        id <> "" /\ outcome r = Failed e /\
        jobs (final r) = delete id (jobs w))))
  \/
  (exists archive id job workDir w0,
      takeLastJob env = Taken archive /\
      extractId archive = Value id /\
      id <> "" /\ jobs w !! id = Some job /\
      mkdirTemp env = inr workDir /\ is_Some (apps w !! AppId job) /\
      jobs w0 = jobs w /\ apps w0 = apps w /\
      signJob TrimWhitespace tarNewReader ToLower integrated env id (AppId job) archive w
      = leaving (removeSandbox workDir)
          (runScript TrimWhitespace ToLower integrated env id (AppId job) workDir w0)).
Proof.
  intros r. subst r.
  destruct (takeLastJob env) as [archive|written err|partial err] eqn:Htake.
  - destruct (extractId archive) as [id|reason] eqn:Hid.
    2: { left. unfold ProcessIntegratedJob. rewrite Htake, Hid. simpl.
         split; [constructor|]. split; [reflexivity|].
         right; left. exists archive, reason. auto. }
    destruct (String.eqb_spec id "") as [->|Hne].
    { left. unfold ProcessIntegratedJob. rewrite Htake, Hid. simpl.
      split; [constructor|]. split; [reflexivity|].
      right; right; left. eexists archive, _. auto. }
    destruct (jobs w !! id) as [job|] eqn:Hjob.
    2: { left. unfold ProcessIntegratedJob. rewrite Htake, Hid.
         run_step.
         pose proof Hne as Hne'. apply String.eqb_neq in Hne'. rewrite Hne'.
         erewrite bind_eq
           by (unfold GetById; erewrite bind_eq by reflexivity; reflexivity).
         rewrite after_nil. simpl. rewrite Hjob. simpl.
         split; [constructor|]. split; [reflexivity|].
         right; right; right. eexists archive, id, _.
         rewrite delete_id by exact Hjob. auto 10. }
    destruct (signJob_cases TrimWhitespace tarNewReader ToLower integrated env id
                (AppId job) archive w)
      as [(e & w' & Hs & Hj & Ha)|(workDir & w0 & Htemp & Hj & Ha & Happ & Hs)].
    + left.
      rewrite (ProcessIntegratedJob_taken _ _ _ _ _ _ _ _ _ _ Htake Hid Hne Hjob).
      rewrite closure_report, Hs. cbn [outcome final trace].
      destruct (reportJob_failed env id e w') as (tr & -> & Hlogs).
      simpl. split; [constructor; [exact I|exact Hlogs]|].
      split; [exact Ha|].
      right; right; right. exists archive, id, e. rewrite Hj. auto 10.
    + right. exists archive, id, job, workDir, w0. auto 10.
  - left. unfold ProcessIntegratedJob. rewrite Htake.
    destruct (errors_Is err errNotFound) eqn:Hnf;
      erewrite bind_eq by reflexivity; simpl;
      (split; [repeat constructor|]); (split; [reflexivity|]);
      left; exists written, err; rewrite Hnf; destruct w; auto.
  - left. unfold ProcessIntegratedJob. rewrite Htake.
    erewrite bind_eq by reflexivity.
    destruct (extractId partial) as [id|reason] eqn:Hid.
    2: { simpl. split; [repeat constructor|]. split; [reflexivity|].
         right; left. exists partial, reason. destruct w; auto. }
    run_step.
    destruct (String.eqb_spec id "") as [->|Hne].
    { erewrite bind_eq by reflexivity. simpl.
      split; [repeat constructor|]. split; [reflexivity|].
      right; right; left. eexists partial, _. destruct w; auto. }
    assert (Hdel : exists tr,
               Forall isLog tr /\
               (deleted <- DeleteById id ;;
                if deleted
                then emit (Log InfoLevel "cleaned up job after archive read error"
                             [("job_id", id)])
                else ret tt) w
               = mkResult (Done tt) (withJobs (delete id (jobs w)) w) tr).
    { unfold DeleteById.
      erewrite bind_eq.
      2: { run_step. run_step. reflexivity. }
      destruct (bool_decide (is_Some (jobs w !! id))); eexists;
        (split; [|reflexivity]); repeat constructor. }
    destruct Hdel as (tr & Htr & Hdel).
    erewrite bind_eq by exact Hdel. simpl.
    split; [constructor; [exact I|]|].
    { rewrite app_nil_r. exact Htr. }
    split; [reflexivity|].
    right; right; right. eexists partial, id, _. auto 10.
Qed.

(** How the end of the closure can go. *)
Lemma finishJob_cases (rid appId : string) (workDir : Path) (err : option error)
    (out : string) (w : World) :
  let rf := finishJob TrimWhitespace rid appId workDir err out w in
  (exists e, outcome rf = Failed e /\ final rf = w /\
             (err = None ->
              forall perm content,
                Stat (fs w) (Join workDir "signed.ipa") <> Some (File perm content)))
  \/
  (exists perm content,
      err = None /\
      Stat (fs w) (Join workDir "signed.ipa") = Some (File perm content) /\
      outcome rf = Done tt /\
      final rf =
        mkWorld (delete rid (jobs w))
          (alter (withBundleId
                    (match ReadFile (fs w) (Join workDir "bundle_id.txt") with
                     | inr text => inr (TrimWhitespace text)
                     | inl e => inl e
                     end)) appId
             (alter (withSigned content) appId (apps w)))
          (fs w) (console w)).
Proof.
  intros rf. subst rf. destruct err as [err|].
  - left. rewrite finishJob_failed. simpl. eexists. split; [reflexivity|].
    split; [reflexivity|discriminate].
  - destruct (Stat (fs w) (Join workDir "signed.ipa")) as [[m|m content]|] eqn:Hst.
    + left. erewrite finishJob_directory by exact Hst. simpl.
      eexists. split; [reflexivity|]. split; [reflexivity|]. discriminate.
    + right. destruct (finishJob_stored TrimWhitespace rid appId workDir out w m
                         content Hst) as (tr & -> & _).
      exists m, content. auto.
    + left. rewrite finishJob_missing by exact Hst. simpl.
      eexists. split; [reflexivity|]. split; [reflexivity|]. discriminate.
Qed.

(** The closure leaves through its deferred removal of the sandbox. *)
Lemma signJob_leaves_through_removal (integrated : Integrated) (env : Env)
    (rid appId archive : string) (w : World) (tempDir : Path) :
  mkdirTemp env = inr tempDir ->
  exists r0,
    signJob TrimWhitespace tarNewReader ToLower integrated env rid appId archive w
    = leaving (removeSandbox tempDir) r0.
Proof.
  intros Htemp. unfold signJob. rewrite Htemp.
  run_step. run_step. unfold defer. eexists. reflexivity.
Qed.

(** After the closure, only the queue changes. *)
Lemma ProcessIntegratedJob_fs_after_closure (integrated : Integrated) (env : Env)
    (errNotFound : error) (w : World) (archive id : string) (job : ReturnJob) :
  takeLastJob env = Taken archive ->
  extractId archive = Value id -> id <> "" -> jobs w !! id = Some job ->
  fs (final (Process integrated env errNotFound w)) =
  fs (final (signJob TrimWhitespace tarNewReader ToLower integrated env id
               (AppId job) archive w)).
Proof.
  intros Htake Hid Hne Hjob.
  rewrite (ProcessIntegratedJob_taken _ _ _ _ _ _ _ _ _ _ Htake Hid Hne Hjob).
  rewrite closure_report.
  destruct (outcome (signJob _ _ _ _ _ _ _ _ _)) as [[]|e|reason].
  - reflexivity.
  - destruct (reportJob_failed env id e
                (final (signJob TrimWhitespace tarNewReader ToLower integrated env id
                          (AppId job) archive w))) as (tr & -> & _).
    reflexivity.
  - reflexivity.
Qed.

(** X1: an attempt that takes a job of the queue and makes its sandbox
    leaves no file or directory at or below the sandbox root, whether it
    ends with success or with an error. *)
Theorem sandbox_is_removed_after_every_attempt (integrated : Integrated)
    (env : Env) (errNotFound : error) (w : World) (archive id : string)
    (job : ReturnJob) (tempDir : Path) :
  takeLastJob env = Taken archive ->
  extractId archive = Value id -> id <> "" -> jobs w !! id = Some job ->
  mkdirTemp env = inr tempDir ->
  forall p, tempDir `prefix_of` p ->
            fs (final (Process integrated env errNotFound w)) !! p = None.
Proof.
  intros Htake Hid Hne Hjob Htemp p Hp.
  rewrite (ProcessIntegratedJob_fs_after_closure _ _ _ _ _ _ _ Htake Hid Hne Hjob).
  destruct (signJob_leaves_through_removal integrated env id (AppId job) archive
              w tempDir Htemp) as [r0 ->].
  cbn [leaving final removeSandbox fs]. unfold RemoveAll.
  apply map_lookup_filter_None_2. right. intros x _ Hout. apply Hout. exact Hp.
Qed.

(** X2: an attempt that does not return nil leaves every application as
    it was: nothing is stored on an application unless the attempt
    succeeds. *)
Theorem failed_attempt_leaves_applications (integrated : Integrated) (env : Env)
    (errNotFound : error) (w : World) :
  outcome (Process integrated env errNotFound w) <> Done tt ->
  apps (final (Process integrated env errNotFound w)) = apps w.
Proof.
  intros Hfail.
  destruct (ProcessIntegratedJob_shape integrated env errNotFound w)
    as [(_ & Ha & _)|(archive & id & job & workDir & w0 & H)]; [exact Ha|].
  destruct H as (Htake & Hid & Hne & Hjob & Htemp & Happ & Hj & Ha & Hs).
  destruct (ProcessIntegratedJob_runs TrimWhitespace tarNewReader ToLower
              integrated env errNotFound w w0 archive id job workDir
              Htake Hid Hne Hjob Hj Ha Hs) as (tail & _ & Heq).
  rewrite Heq in Hfail |- *. cbn [outcome final] in Hfail |- *.
  destruct (finishJob_cases id (AppId job) workDir (waitErr (procRun env))
              (capturedBy (procRun env))
              (mkWorld (jobs w) (apps w) (fsAfter (procRun env))
                 (console w0 +:+ printedBy (procRun env))))
    as [(e & Ho & Hf & _)|(perm & content & _ & _ & Ho & _)].
  - rewrite Ho, Hf. reflexivity.
  - rewrite Ho in Hfail. contradiction.
Qed.

(** X3: an attempt returns nil in two cases only.  Either no job was
    there (TakeLastJob failed with the not-found error) and the world is
    as it was; or a job was taken whose queue entry existed, the
    entrypoint exited with status 0 and left the file signed.ipa in the
    sandbox: then that file's content is the "signed" blob of the job's
    application and the queue entry is gone. *)
Theorem nil_return_means_idle_or_signed (integrated : Integrated) (env : Env)
    (errNotFound : error) (w : World) :
  let r := Process integrated env errNotFound w in
  outcome r = Done tt ->
  (exists written err,
      takeLastJob env = TakeFailed written err /\
      errors_Is err errNotFound = true /\ final r = w)
  \/
  (exists archive id job workDir perm content app',
      takeLastJob env = Taken archive /\ extractId archive = Value id /\
      id <> "" /\ jobs w !! id = Some job /\ mkdirTemp env = inr workDir /\
      waitErr (procRun env) = None /\
      Stat (fsAfter (procRun env)) (Join workDir "signed.ipa")
      = Some (File perm content) /\
      jobs (final r) = delete id (jobs w) /\
      apps (final r) !! AppId job = Some app' /\
      files app' !! "signed" = Some content).
Proof.
  intros r Hnil. subst r.
  destruct (ProcessIntegratedJob_shape integrated env errNotFound w)
    as [(_ & _ & Hcase)|(archive & id & job & workDir & w0 & H)].
  - destruct Hcase as [(written & err & Htake & Hw & Hout)
                      |[(buf & reason & _ & _ & Hout & _)
                       |[(buf & e & _ & _ & Hout & _)
                        |(buf & id & e & _ & _ & _ & Hout & _)]]];
      try congruence.
    left. exists written, err. split; [exact Htake|]. split; [|exact Hw].
    destruct (errors_Is err errNotFound); [reflexivity|congruence].
  - right.
    destruct H as (Htake & Hid & Hne & Hjob & Htemp & Happ & Hj & Ha & Hs).
    destruct (ProcessIntegratedJob_runs TrimWhitespace tarNewReader ToLower
                integrated env errNotFound w w0 archive id job workDir
                Htake Hid Hne Hjob Hj Ha Hs) as (tail & _ & Heq).
    rewrite Heq in Hnil |- *. cbn [outcome final] in Hnil |- *.
    destruct (finishJob_cases id (AppId job) workDir (waitErr (procRun env))
                (capturedBy (procRun env))
                (mkWorld (jobs w) (apps w) (fsAfter (procRun env))
                   (console w0 +:+ printedBy (procRun env))))
      as [(e & Ho & _)|(perm & content & Herr & Hst & Ho & Hf)].
    { rewrite Ho in Hnil. discriminate. }
    rewrite Ho, Hf. cbn [fs jobs apps removeSandbox] in Hst |- *.
    destruct Happ as [app Happ].
    exists archive, id, job, workDir, perm, content.
    eexists. repeat (split; [first [eassumption|reflexivity]|]).
    split.
    + rewrite !lookup_alter. rewrite !decide_True by reflexivity.
      rewrite Happ. reflexivity.
    + destruct (ReadFile _ (Join workDir "bundle_id.txt")); simpl;
        apply lookup_insert_eq.
Qed.

(** X4: an attempt never adds or changes a queue entry.  It leaves the
    queue as it was, or deletes from it the one entry whose id it read
    from id.txt of the archive buffer. *)
Theorem attempt_deletes_at_most_its_own_entry (integrated : Integrated)
    (env : Env) (errNotFound : error) (w : World) :
  let r := Process integrated env errNotFound w in
  jobs (final r) = jobs w \/
  exists buf id,
    archiveOf (takeLastJob env) = Some buf /\ extractId buf = Value id /\
    id <> "" /\ jobs (final r) = delete id (jobs w).
Proof.
  intros r. subst r.
  destruct (ProcessIntegratedJob_shape integrated env errNotFound w)
    as [(_ & _ & Hcase)|(archive & id & job & workDir & w0 & H)].
  - destruct Hcase as [(written & err & _ & Hw & _)
                      |[(buf & reason & _ & _ & _ & Hw)
                       |[(buf & e & _ & _ & _ & Hw)
                        |(buf & id & e & Hbuf & Hid & Hne & _ & Hjobs)]]];
      try (left; rewrite Hw; reflexivity).
    right. exists buf, id. auto.
  - right.
    destruct H as (Htake & Hid & Hne & Hjob & Htemp & Happ & Hj & Ha & Hs).
    destruct (ProcessIntegratedJob_runs TrimWhitespace tarNewReader ToLower
                integrated env errNotFound w w0 archive id job workDir
                Htake Hid Hne Hjob Hj Ha Hs) as (tail & _ & Heq).
    exists archive, id. rewrite Htake. repeat (split; [auto; fail|]).
    rewrite Heq. cbn [outcome final].
    destruct (finishJob_cases id (AppId job) workDir (waitErr (procRun env))
                (capturedBy (procRun env))
                (mkWorld (jobs w) (apps w) (fsAfter (procRun env))
                   (console w0 +:+ printedBy (procRun env))))
      as [(e & Ho & Hf & _)|(perm & content & _ & _ & Ho & Hf)];
      rewrite Ho, Hf; reflexivity.
Qed.

(** X5: the one panic of an attempt is the allocation for id.txt.  An
    attempt panics only when the first entry named id.txt in the buffer it
    reads the job id from announces a size that [make] refuses; the queue,
    the applications and the files are then as they were (not even the
    sandbox is made), and only log lines were written.  The calls into the
    tar reader, the storage and the operating system are taken to
    return. *)
Theorem attempt_panics_only_on_id_allocation (integrated : Integrated)
    (env : Env) (errNotFound : error) (w : World) (reason : string) :
  let r := Process integrated env errNotFound w in
  outcome r = Panicked reason ->
  exists buf e,
    archiveOf (takeLastJob env) = Some buf /\
    List.find isIdEntry (entries (tarNewReader buf)) = Some e /\
    (Size (hdr e) < 0 \/ maxAlloc < Size (hdr e)) /\
    final r = w /\ Forall isLog (trace r).
Proof.
  intros r Hpanic. subst r.
  destruct (ProcessIntegratedJob_shape integrated env errNotFound w)
    as [(Hlogs & _ & Hcase)|(archive & id & job & workDir & w0 & H)].
  - destruct Hcase as [(written & err & _ & _ & Hout)
                      |[(buf & reason' & Hbuf & Hid & Hout & Hw)
                       |[(buf & e & _ & _ & Hout & _)
                        |(buf & id & e & _ & _ & _ & Hout & _)]]];
      try congruence.
    { destruct (errors_Is err errNotFound); congruence. }
    revert Hid. unfold extractJobIdFromArchive.
    destruct (String.length buf =? 0)%nat; [discriminate|].
    rewrite scanForId_first.
    destruct (List.find isIdEntry (entries (tarNewReader buf))) as [e|] eqn:Hfind;
      [|discriminate].
    unfold make_bytes.
    destruct (Z.ltb_spec (Size (hdr e)) 0) as [Hneg|Hpos].
    { intros _. exists buf, e. auto 10. }
    destruct (Z.ltb_spec maxAlloc (Size (hdr e))) as [Hbig|Hsmall].
    { intros _. exists buf, e. auto 10. }
    simpl. destruct (ReadFull e (Size (hdr e))); discriminate.
  - exfalso.
    destruct H as (Htake & Hid & Hne & Hjob & Htemp & Happ & Hj & Ha & Hs).
    destruct (ProcessIntegratedJob_runs TrimWhitespace tarNewReader ToLower
                integrated env errNotFound w w0 archive id job workDir
                Htake Hid Hne Hjob Hj Ha Hs) as (tail & _ & Heq).
    rewrite Heq in Hpanic. cbn [outcome] in Hpanic.
    destruct (finishJob_cases id (AppId job) workDir (waitErr (procRun env))
                (capturedBy (procRun env))
                (mkWorld (jobs w) (apps w) (fsAfter (procRun env))
                   (console w0 +:+ printedBy (procRun env))))
      as [(e & Ho & _)|(perm & content & _ & _ & Ho & _)];
      rewrite Ho in Hpanic; discriminate.
Qed.

(** X6: a taken archive that names no usable job.  When the id read from
    the archive is empty, or the queue has no entry of that id, the
    attempt fails at once: it returns the "job id not found in archive" or
    the "return job not found" error, writes no log line, deletes nothing
    and makes no sandbox. *)
Theorem taken_archive_without_entry_fails_untouched (integrated : Integrated)
    (env : Env) (errNotFound : error) (w : World) (archive id : string) :
  takeLastJob env = Taken archive ->
  extractId archive = Value id ->
  id = "" \/ jobs w !! id = None ->
  Process integrated env errNotFound w =
  mkResult
    (Failed (errors_New (if String.eqb id "" then "job id not found in archive"
                         else "return job not found: " +:+ id)))
    w [].
Proof.
  intros Htake Hid Hno. unfold ProcessIntegratedJob. rewrite Htake, Hid.
  run_step.
  destruct (String.eqb_spec id "") as [->|Hne]; [reflexivity|].
  destruct Hno as [->|Hjob]; [contradiction|].
  erewrite bind_eq
    by (unfold GetById; erewrite bind_eq by reflexivity; reflexivity).
  rewrite after_nil. simpl. rewrite Hjob. reflexivity.
Qed.

End AttemptFacts.

(** ** Extraction, entry by entry *)

(** A successful [MkdirAll] leaves a directory at its target. *)
Lemma mkdirFrom_makes (above : Path) (todo : list string) (perm : Z) (f f' : FS) :
  mkdirFrom above todo perm f = inr f' -> todo <> [] ->
  exists m, f' !! (above ++ todo)%list = Some (Dir m).
Proof.
  revert above f. induction todo as [|c todo IH]; intros above f Hmk Hne;
    [contradiction|].
  simpl in Hmk.
  assert (Happ : ((above ++ [c]) ++ todo = above ++ c :: todo)%list)
    by (rewrite <- app_assoc; reflexivity).
  destruct (f !! (above ++ [c])%list) as [[m|m content]|] eqn:Hnode;
    [|discriminate|].
  - destruct todo as [|c' todo].
    + simpl in Hmk. injection Hmk as <-. eauto.
    + rewrite <- Happ. apply (IH _ _ Hmk). discriminate.
  - destruct todo as [|c' todo].
    + simpl in Hmk. injection Hmk as <-. exists perm. apply lookup_insert_eq.
    + rewrite <- Happ. apply (IH _ _ Hmk). discriminate.
Qed.

Lemma MkdirAll_makes (target : Path) (perm : Z) (f f' : FS) :
  MkdirAll target perm f = inr f' -> exists m, Stat f' target = Some (Dir m).
Proof.
  intros Hmk. destruct target as [|c target]; [simpl; eauto|].
  apply (mkdirFrom_makes [] (c :: target) perm f f' Hmk). discriminate.
Qed.

Lemma MkdirAll_keeps (target : Path) (perm : Z) (f f' : FS) (p : Path) (n : Node) :
  MkdirAll target perm f = inr f' -> f !! p = Some n -> f' !! p = Some n.
Proof.
  intros Hmk Hp. rewrite (MkdirAll_frame _ _ _ _ Hmk); [exact Hp|].
  right; left. rewrite Hp. eauto.
Qed.

(** A successful write leaves a file with the content written. *)
Lemma writeFile_writes (target : Path) (perm : Z) (content : string) (f f' : FS) :
  writeFile target perm content f = inr f' ->
  exists m, f' !! target = Some (File m content) /\ target <> [].
Proof.
  unfold writeFile. intros Hw.
  assert (Hne : target <> []).
  { intros ->. simpl in Hw. discriminate. }
  destruct (Stat f target) as [[m|m old]|]; [discriminate| |].
  - injection Hw as <-. exists m. split; [apply lookup_insert_eq|exact Hne].
  - destruct (Stat f (parentDir target)) as [[m|m old]|]; try discriminate.
    injection Hw as <-. exists perm. split; [apply lookup_insert_eq|exact Hne].
Qed.

(** One entry of a successful extraction: what it did to the file system,
    and the extraction of the entries after it. *)
Lemma extractEntries_step (workDir : Path) (e : Entry) (rest : list Entry)
    (ending : option error) (w : World) :
  outcome (extractEntries workDir (e :: rest) ending w) = Done tt ->
  let target := Join workDir (Name (hdr e)) in
  exists f1,
    (if Ascii.eqb (Typeflag (hdr e)) TypeDir
     then MkdirAll target (FileMode (Mode (hdr e))) (fs w) = inr f1
     else exists f0,
         MkdirAll (parentDir target) 493 (fs w) = inr f0 /\
         writeFile target (FileMode (Mode (hdr e))) (data e) f0 = inr f1 /\
         dataErr e = None) /\
    extractEntries workDir (e :: rest) ending w =
    extractEntries workDir rest ending (mkWorld (jobs w) (apps w) f1 (console w)).
Proof.
  intros Hdone target. subst target. revert Hdone.
  simpl extractEntries. run_step.
  destruct (Ascii.eqb (Typeflag (hdr e)) TypeDir).
  - destruct (MkdirAll _ _ _) as [err|f] eqn:Hmk.
    { run_fail. discriminate. }
    run_step. run_step. intros _. exists f. split; reflexivity.
  - destruct (MkdirAll _ _ _) as [err|f] eqn:Hmk.
    { run_fail. discriminate. }
    run_step. run_step.
    destruct (writeFile _ _ _ _) as [err|f'] eqn:Hw.
    { run_fail. discriminate. }
    run_step. run_step.
    destruct (dataErr e) eqn:Hdata.
    { run_fail. discriminate. }
    run_step. intros _. exists f'. split; [|reflexivity].
    exists f. auto.
Qed.

(** A successful extraction got through every entry, up to the end of the
    archive: no entry's payload ended in an error, the stream ended with
    io.EOF. *)
Lemma extractEntries_done (workDir : Path) (es : list Entry)
    (ending : option error) (w : World) :
  outcome (extractEntries workDir es ending w) = Done tt ->
  ending = None /\
  forall e, In e es -> Ascii.eqb (Typeflag (hdr e)) TypeDir = false ->
            dataErr e = None.
Proof.
  revert w. induction es as [|e es IH]; intros w Hdone.
  - simpl in Hdone. destruct ending; [discriminate|]. split; [reflexivity|].
    intros e [].
  - destruct (extractEntries_step workDir e es ending w Hdone) as (f1 & Hstep & Heq).
    rewrite Heq in Hdone. destruct (IH _ Hdone) as [Hend Hrest].
    split; [exact Hend|]. intros e' [<-|Hin] Hfile; [|auto].
    rewrite Hfile in Hstep. destruct Hstep as (f0 & _ & _ & Hdata). exact Hdata.
Qed.

(** In a successful extraction directories stay, and a file stays as it
    is unless an entry is written to its path. *)
Lemma extractEntries_keeps (workDir : Path) (es : list Entry)
    (ending : option error) (w : World) :
  outcome (extractEntries workDir es ending w) = Done tt ->
  let f' := fs (final (extractEntries workDir es ending w)) in
  (forall p m, fs w !! p = Some (Dir m) -> f' !! p = Some (Dir m)) /\
  (forall p m content,
      fs w !! p = Some (File m content) ->
      (forall e, In e es -> Ascii.eqb (Typeflag (hdr e)) TypeDir = false ->
                 Join workDir (Name (hdr e)) <> p) ->
      f' !! p = Some (File m content)).
Proof.
  revert w. induction es as [|e es IH]; intros w Hdone f'; subst f'.
  - simpl in Hdone |- *. destruct ending; [discriminate|]. simpl. auto.
  - destruct (extractEntries_step workDir e es ending w Hdone) as (f1 & Hstep & Heq).
    rewrite Heq in Hdone |- *. destruct (IH _ Hdone) as [IHd IHf].
    cbn [fs] in IHd, IHf.
    destruct (Ascii.eqb (Typeflag (hdr e)) TypeDir) eqn:Hkind.
    + split.
      * intros p m Hp. apply IHd. eapply MkdirAll_keeps; eassumption.
      * intros p m content Hp Hother. apply IHf.
        -- eapply MkdirAll_keeps; eassumption.
        -- intros e' Hin. apply Hother. right. exact Hin.
    + destruct Hstep as (f0 & Hmk & Hw & _).
      destruct (writeFile_frame _ _ _ _ _ Hw) as [Hframe Hnodir].
      split.
      * intros p m Hp. apply IHd. rewrite Hframe.
        -- eapply MkdirAll_keeps; eassumption.
        -- intros ->. apply (Hnodir m).
           pose proof (MkdirAll_keeps _ _ _ _ _ _ Hmk Hp) as Hp0.
           unfold Stat. destruct (Join workDir (Name (hdr e))); [|exact Hp0].
           destruct (writeFile_writes _ _ _ _ _ Hw) as (m' & _ & Hne).
           contradiction.
      * intros p m content Hp Hother. apply IHf.
        -- rewrite Hframe.
           ++ eapply MkdirAll_keeps; eassumption.
           ++ intros ->. apply (Hother e); [left; reflexivity|exact Hkind|reflexivity].
        -- intros e' Hin. apply Hother. right. exact Hin.
Qed.

(** The extraction of a list of entries goes through its first part. *)
Lemma extractEntries_app (workDir : Path) (es1 es2 : list Entry)
    (ending : option error) (w : World) :
  outcome (extractEntries workDir (es1 ++ es2) ending w) = Done tt ->
  exists w1,
    extractEntries workDir (es1 ++ es2) ending w = extractEntries workDir es2 ending w1.
Proof.
  revert w. induction es1 as [|e es1 IH]; intros w Hdone.
  - exists w. reflexivity.
  - rewrite <- app_comm_cons in Hdone |- *.
    destruct (extractEntries_step workDir e _ ending w Hdone) as (f1 & _ & Heq).
    rewrite Heq in Hdone |- *. apply IH, Hdone.
Qed.

(** X7: after a successful extraction every directory entry of the
    archive is a directory of the file system, at the path its name
    resolves to from the sandbox root. *)
Theorem extracted_directories_exist (workDir : Path) (es : list Entry)
    (ending : option error) (w : World) (e : Entry) :
  outcome (extractEntries workDir es ending w) = Done tt ->
  In e es -> Typeflag (hdr e) = TypeDir ->
  exists m, Stat (fs (final (extractEntries workDir es ending w)))
              (Join workDir (Name (hdr e))) = Some (Dir m).
Proof.
  intros Hdone Hin Hdir.
  apply in_split in Hin as (es1 & es2 & ->).
  destruct (extractEntries_app workDir es1 (e :: es2) ending w Hdone) as [w1 Heq].
  rewrite Heq in Hdone |- *.
  destruct (extractEntries_step workDir e es2 ending w1 Hdone) as (f1 & Hstep & Heq').
  rewrite Heq' in Hdone |- *.
  rewrite Hdir in Hstep. simpl in Hstep.
  destruct (MkdirAll_makes _ _ _ _ Hstep) as [m Hm].
  destruct (Join workDir (Name (hdr e))) as [|c target] eqn:Htarget.
  { simpl. eauto. }
  exists m. simpl in Hm |- *.
  apply (proj1 (extractEntries_keeps workDir es2 ending _ Hdone)). exact Hm.
Qed.

(** X8: after a successful extraction the payload of a file entry can be
    read back at the path its name resolves to, unless a later file entry
    of the archive resolves to the same path (the last one wins). *)
Theorem extracted_file_holds_payload (workDir : Path) (es1 es2 : list Entry)
    (ending : option error) (w : World) (e : Entry) :
  outcome (extractEntries workDir (es1 ++ e :: es2) ending w) = Done tt ->
  Typeflag (hdr e) <> TypeDir ->
  (forall e', In e' es2 -> Typeflag (hdr e') <> TypeDir ->
              Join workDir (Name (hdr e')) <> Join workDir (Name (hdr e))) ->
  ReadFile (fs (final (extractEntries workDir (es1 ++ e :: es2) ending w)))
    (Join workDir (Name (hdr e))) = inr (data e).
Proof.
  intros Hdone Hfile Hlast.
  destruct (extractEntries_app workDir es1 (e :: es2) ending w Hdone) as [w1 Heq].
  rewrite Heq in Hdone |- *.
  destruct (extractEntries_step workDir e es2 ending w1 Hdone) as (f1 & Hstep & Heq').
  rewrite Heq' in Hdone |- *.
  apply Ascii.eqb_neq in Hfile. rewrite Hfile in Hstep.
  destruct Hstep as (f0 & _ & Hw & _).
  destruct (writeFile_writes _ _ _ _ _ Hw) as (m & Hm & Hne).
  assert (Hkept : fs (final (extractEntries workDir es2 ending
                               (mkWorld (jobs w1) (apps w1) f1 (console w1))))
                  !! Join workDir (Name (hdr e)) = Some (File m (data e))).
  { apply (proj2 (extractEntries_keeps workDir es2 ending _ Hdone)); [exact Hm|].
    intros e' Hin Hkind. apply Hlast; [exact Hin|].
    apply Ascii.eqb_neq. exact Hkind. }
  unfold ReadFile, Stat.
  destruct (Join workDir (Name (hdr e))); [contradiction|].
  rewrite Hkept. reflexivity.
Qed.

(** ** What has happened when the sign script starts *)

Section StartFacts.

Variable TrimWhitespace : string -> string.
Variable tarNewReader : string -> TarStream.
Variable ToLower : string -> string.

(** The closure starts the script only at its end: every step before it
    has succeeded. *)
Lemma signJob_started (integrated : Integrated) (env : Env)
    (rid appId archive : string) (w : World) (cmd : Cmd) :
  In (Started cmd)
     (trace (signJob TrimWhitespace tarNewReader ToLower integrated env rid appId
               archive w)) ->
  exists tempDir f app unsigned,
    mkdirTemp env = inr tempDir /\ absErr env = None /\
    copySignFiles env = inr f /\
    outcome (extractEntries tempDir (entries (tarNewReader archive))
               (ending (tarNewReader archive))
               (mkWorld (jobs w) (apps w) f (console w))) = Done tt /\
    apps w !! appId = Some app /\ files app !! "unsigned" = Some unsigned /\
    stdoutPipeErr env = None /\ stderrPipeErr env = None /\ startErr env = None.
Proof.
  unfold signJob.
  destruct (mkdirTemp env) as [e|tempDir] eqn:Htemp.
  { run_fail. intros []. }
  run_step. run_step. unfold defer, leaving. cbn [trace].
  destruct (absErr env) as [e|] eqn:Habs.
  { run_fail. intros []. }
  run_step.
  destruct (copySignFiles env) as [e|f] eqn:Hcopy.
  { run_fail. intros []. }
  run_step. run_step. simpl.
  destruct (extractEntries_frame tempDir (entries (tarNewReader archive))
              (ending (tarNewReader archive))
              (mkWorld (jobs w) (apps w) f (console w))) as (f' & [Hx|[e Hx]]);
    simpl in Hx.
  2: { erewrite bind_fail by exact Hx. intros []. }
  erewrite bind_eq by exact Hx. rewrite after_nil.
  run_step. simpl.
  destruct (apps w !! appId) as [app|] eqn:Happ.
  2: { intros []. }
  unfold GetFile.
  destruct (files app !! "unsigned") as [unsigned|] eqn:Hunsigned.
  2: { run_fail. intros []. }
  run_step.
  destruct (writeFile _ _ _ _) as [e|f2].
  { run_fail. intros []. }
  run_step. run_step.
  destruct (stdoutPipeErr env) eqn:Hout.
  { run_fail. intros []. }
  run_step.
  destruct (stderrPipeErr env) eqn:Herr.
  { run_fail. intros []. }
  run_step.
  destruct (startErr env) eqn:Hstart.
  { run_fail. intros []. }
  intros _. exists tempDir, f, app, unsigned.
  rewrite Hx. auto 10.
Qed.

(** X9: the entrypoint is started only on a prepared sandbox.  Whenever
    an attempt starts it, a job was taken whose queue entry exists, the
    sandbox was made and the sign files copied into it, the whole archive
    was extracted (the tar stream ended with io.EOF, no payload ended in
    an error, every directory and file could be made), the job's
    application exists and has an "unsigned" blob, and both output pipes
    were opened. *)
Theorem script_starts_only_on_prepared_sandbox (integrated : Integrated)
    (env : Env) (errNotFound : error) (w : World) (cmd : Cmd) :
  In (Started cmd)
     (trace (ProcessIntegratedJob TrimWhitespace tarNewReader ToLower integrated env
               errNotFound w)) ->
  exists archive id job workDir f app unsigned,
    takeLastJob env = Taken archive /\
    extractJobIdFromArchive TrimWhitespace tarNewReader archive = Value id /\
    jobs w !! id = Some job /\
    mkdirTemp env = inr workDir /\ absErr env = None /\
    copySignFiles env = inr f /\
    outcome (extractEntries workDir (entries (tarNewReader archive))
               (ending (tarNewReader archive))
               (mkWorld (jobs w) (apps w) f (console w))) = Done tt /\
    ending (tarNewReader archive) = None /\
    (forall e, In e (entries (tarNewReader archive)) ->
               Typeflag (hdr e) <> TypeDir -> dataErr e = None) /\
    apps w !! AppId job = Some app /\ files app !! "unsigned" = Some unsigned /\
    stdoutPipeErr env = None /\ stderrPipeErr env = None /\ startErr env = None.
Proof.
  intros Hin.
  destruct (ProcessIntegratedJob_events TrimWhitespace tarNewReader ToLower
              integrated env errNotFound w _ Hin)
    as (archive & id & job & workDir & w0 & H & _); [intros []|].
  destruct H as (Htake & Hid & Hne & Hjob & Htemp & Happ & Hj & Ha & Hs).
  assert (Hstart : In (Started (signCmd integrated env workDir))
                      (trace (signJob TrimWhitespace tarNewReader ToLower integrated
                                env id (AppId job) archive w))).
  { rewrite Hs, runScript_result. left. reflexivity. }
  destruct (signJob_started integrated env id (AppId job) archive w _ Hstart)
    as (tempDir & f & app & unsigned & Htemp' & Habs & Hcopy & Hx & Happ' & Hun
        & Hout & Herr & Hst).
  rewrite Htemp in Htemp'. injection Htemp' as <-.
  destruct (extractEntries_done _ _ _ _ Hx) as [Hend Hdata].
  exists archive, id, job, workDir, f, app, unsigned.
  repeat (split; [assumption|]).
  split.
  { intros e He Hkind. apply Hdata; [exact He|]. apply Ascii.eqb_neq, Hkind. }
  auto 10.
Qed.

End StartFacts.

(** ** The tests on a stdout line *)

Lemma prefix_inv (x s : string) :
  String.prefix x s = true -> exists t, s = x +:+ t.
Proof.
  revert s. induction x as [|c x IH]; intros s H.
  - exists s. reflexivity.
  - destruct s as [|d s]; simpl in H; [discriminate|].
    destruct (ascii_dec c d) as [->|]; [|discriminate].
    destruct (IH s H) as [t ->]. exists t. reflexivity.
Qed.

Lemma Contains_cons (c : ascii) (s x : string) :
  Contains (String c s) x = String.prefix x (String c s) || Contains s x.
Proof. reflexivity. Qed.

Lemma Contains_inv (s x : string) :
  Contains s x = true -> exists a b, s = a +:+ x +:+ b.
Proof.
  induction s as [|c s IH]; intros H.
  - simpl in H. rewrite orb_false_r in H. destruct x; [|discriminate].
    exists EmptyString, EmptyString. reflexivity.
  - rewrite Contains_cons in H. apply orb_true_iff in H as [H|H].
    + apply prefix_inv in H as [t ->]. exists "", t. reflexivity.
    + destruct (IH H) as (a & b & ->). exists (String c a), b. reflexivity.
Qed.

Lemma Contains_trans (s x y : string) :
  Contains s x = true -> Contains x y = true -> Contains s y = true.
Proof.
  intros Hs Hx.
  apply Contains_inv in Hs as (a & b & ->).
  apply Contains_inv in Hx as (c & d & ->).
  apply Contains_app_l. rewrite !string_app_assoc. apply Contains_middle.
Qed.

(** X10: the test for the phrase "two-factor authentication (2fa) code"
    among the tests on a stdout line (line 270) never decides: a line with
    that phrase has "2fa" and "code" in it, which the last test (line 272)
    accepts.  The stdout lines logged are those with "error", "failed",
    "exception" or "please enter", and those with "2fa" and one of "code"
    and "required". *)
Theorem important_phrase_test_is_subsumed (ToLower : string -> string)
    (line : string) :
  important ToLower line =
  let lineLower := ToLower line in
  Contains lineLower "error" || Contains lineLower "failed" ||
  Contains lineLower "exception" || Contains lineLower "please enter" ||
  (Contains lineLower "2fa" &&
   (Contains lineLower "code" || Contains lineLower "required")).
Proof.
  unfold important. cbv zeta.
  destruct (Contains (ToLower line) "two-factor authentication (2fa) code") eqn:Hphrase.
  - rewrite (Contains_trans _ _ "2fa" Hphrase) by reflexivity.
    rewrite (Contains_trans _ _ "code" Hphrase) by reflexivity.
    simpl. rewrite !orb_true_r. reflexivity.
  - destruct (Contains (ToLower line) "error"),
             (Contains (ToLower line) "failed"),
             (Contains (ToLower line) "exception"),
             (Contains (ToLower line) "please enter"); reflexivity.
Qed.

(** ** More on the wait loop *)

(** What a turn of the loop does to the flag and to the log. *)
Lemma pollOnce_flag (appId : string) (p : Poll) (st : LoopState) :
  let '(next, log) := pollOnce appId p st in
  match next with
  | inl _ => filter isTwoFactorMessage log = []
  | inr st' =>
      (filter isTwoFactorMessage log = [] /\
       twoFAMessageShown st' = twoFAMessageShown st) \/
      (length (filter isTwoFactorMessage log) = 1%nat /\
       twoFAMessageShown st = false /\ twoFAMessageShown st' = true)
  end.
Proof.
  unfold pollOnce. destruct (job p) as [[jobId j]|].
  - destruct (String.eqb (returnJobId st) "");
      destruct (checkInterval <=? sinceLastCheck p);
      destruct (String.eqb (TwoFactorCode j) "");
      destruct (twoFAMessageShown st);
      destruct (5 * Second <? sinceStartAgain p); simpl; auto.
  - destruct (isSigned p) as [e|[|]]; [reflexivity|reflexivity|].
    destruct (status p) as [[|] [|]]; simpl; auto.
Qed.

Lemma waitLoop_flag (fuel : nat) (maxWaitTime : Z) (appId : string)
    (polls : nat -> Poll) (i : nat) (st : LoopState) (result : option error)
    (log : list Event) :
  waitLoop fuel maxWaitTime appId polls i st = Some (result, log) ->
  (length (filter isTwoFactorMessage log) <= 1)%nat /\
  (twoFAMessageShown st = true -> filter isTwoFactorMessage log = []).
Proof.
  revert i st result log. induction fuel as [|fuel IH]; intros i st result log;
    [discriminate|].
  simpl. destruct (sinceStart (polls i) <? maxWaitTime).
  2: { intros [= <- <-]. simpl. split; [lia|reflexivity]. }
  pose proof (pollOnce_flag appId (polls i) st) as Hturn.
  destruct (pollOnce appId (polls i) st) as [[res|st'] log0].
  - intros [= <- <-]. rewrite Hturn. simpl. split; [lia|reflexivity].
  - destruct (waitLoop fuel maxWaitTime appId polls (S i) st')
      as [[res log']|] eqn:Hrest; [|discriminate].
    intros [= <- <-]. destruct (IH _ _ _ _ Hrest) as [Hle Hshown].
    rewrite filter_app, length_app.
    destruct Hturn as [[Hnone Hsame]|(Hone & Hwas & Hnow)].
    + rewrite Hnone. simpl. split; [exact Hle|].
      intros Hst. apply Hshown. congruence.
    + rewrite Hone, (Hshown Hnow). simpl. split; [lia|]. congruence.
Qed.

(** X11: a wait writes at most one log line about the two-factor code:
    the hint that fastlane will prompt, or the note that a code was
    provided, whichever comes first, and never both. *)
Theorem wait_logs_two_factor_message_once (fuel : nat) (integrated : Integrated)
    (triggerErr : option error) (appId : string) (polls : nat -> Poll)
    (result : option error) (log : list Event) :
  processIntegratedJobDirectly fuel integrated triggerErr appId polls
  = Some (result, log) ->
  (length (filter isTwoFactorMessage log) <= 1)%nat.
Proof.
  unfold processIntegratedJobDirectly.
  destruct triggerErr as [err|].
  { intros [= <- <-]. simpl. lia. }
  destruct (waitLoop fuel (GetJobTimeout integrated) appId polls 0
              (mkLoopState "" false)) as [[res log']|] eqn:Hwait; [|discriminate].
  intros [= <- <-].
  destruct (waitLoop_flag _ _ _ _ _ _ _ _ Hwait) as [Hle _].
  exact Hle.
Qed.

(** X12: the number of turns of a wait is bounded by the deadline.  When
    every sleep lasts at least the poll interval, the loop test is
    evaluated at most [deadline / 500 ms + 2] times before the wait
    returns. *)
Theorem wait_returns_within_deadline_turns (integrated : Integrated)
    (appId : string) (polls : nat -> Poll) (fuel : nat) :
  sleeps polls ->
  0 <= sinceStart (polls 0%nat) ->
  (Z.to_nat (GetJobTimeout integrated / pollInterval) + 1 < fuel)%nat ->
  exists result log,
    processIntegratedJobDirectly fuel integrated None appId polls
    = Some (result, log).
Proof.
  intros Hs Hstart Hfuel.
  set (T := GetJobTimeout integrated) in *.
  set (k := (Z.to_nat (T / pollInterval) + 1)%nat) in *.
  assert (Hdead : T <= sinceStart (polls (0 + k)%nat)).
  { pose proof (sleeps_advance polls 0 k Hs) as Hadv.
    assert (Hk : T < Z.of_nat k * pollInterval).
    { subst k. unfold pollInterval, Millisecond in *.
      destruct (Z.le_gt_cases 0 T) as [Hpos|Hneg].
      - rewrite Nat2Z.inj_add, Z2Nat.id by (apply Z.div_pos; lia).
        pose proof (Z.mul_succ_div_gt T (500 * 1000000) ltac:(lia)). lia.
      - assert (T / (500 * 1000000) < 0) by (apply Z.div_lt_upper_bound; lia).
        rewrite Nat2Z.inj_add. lia. }
    lia. }
  destruct (waitLoop_from T appId polls k 0 (mkLoopState "" false) Hdead)
    as (n & result & log & Hn & Hrun & _).
  exists result,
    (Log InfoLevel "triggered builder, waiting for completion" [("app_id", appId)]
       :: log).
  unfold processIntegratedJobDirectly. fold T.
  rewrite (Hrun fuel) by lia. reflexivity.
Qed.

(** ** More on the two-factor prompt *)

Lemma ReadString_None (input : string) :
  ~ In newline (list_ascii_of_string input) -> ReadString input = None.
Proof.
  induction input as [|c input IH]; simpl; intros Hno; [reflexivity|].
  destruct (Ascii.eqb_spec c newline) as [->|Hc].
  - exfalso. apply Hno. left. reflexivity.
  - rewrite IH; [reflexivity|]. intros H. apply Hno. right. exact H.
Qed.

Section PromptEdges.

Variable TrimSpace : string -> string.

(** X13: input that ends before a newline is refused.  When standard
    input holds no newline -- it is empty, or a code was typed and the
    input closed without Enter -- Prompt2FA fails with the "read 2FA
    code" error; what was typed is dropped, the queue is not touched and
    nothing is logged.  Only the prompt has been printed. *)
Theorem Prompt2FA_refuses_unfinished_line (stdin appId : string) (w : World) :
  ~ In newline (list_ascii_of_string stdin) ->
  Prompt2FA TrimSpace stdin appId w =
  mkResult (Failed (WithMessage (ExtError "EOF") "read 2FA code"))
    (mkWorld (jobs w) (apps w) (fs w) (console w +:+ "Enter 2FA code: ")) [].
Proof.
  intros Hno. unfold Prompt2FA.
  erewrite bind_eq by reflexivity. rewrite (ReadString_None _ Hno). reflexivity.
Qed.

(** X14: the code Prompt2FA stores is the code the wait loop reads.  In a
    queue with at most one entry for the application, and one entry for
    it, Prompt2FA puts the trimmed line into the two-factor slot of that
    entry and leaves every other entry alone; [GetByAppId] on the queue
    afterwards yields that entry with the code in its slot; and the queue
    still has at most one entry for the application. *)
Theorem Prompt2FA_code_reaches_the_wait (stdin line rest appId id : string)
    (j : ReturnJob) (w : World) :
  ReadString stdin = Some (line, rest) ->
  oneEntryFor appId (jobs w) ->
  jobs w !! id = Some j -> AppId j = appId ->
  let r := Prompt2FA TrimSpace stdin appId w in
  let stored := mkReturnJob appId (TrimSpace line) in
  jobs (final r) = <[id := stored]> (jobs w) /\
  GetByAppId (jobs (final r)) appId = Some (id, stored) /\
  oneEntryFor appId (jobs (final r)).
Proof.
  intros Hread Hone Hj Happ r stored. subst r stored.
  assert (Hjobs : jobs (final (Prompt2FA TrimSpace stdin appId w))
                  = <[id := mkReturnJob appId (TrimSpace line)]> (jobs w)).
  { unfold Prompt2FA.
    erewrite bind_eq by reflexivity. rewrite Hread.
    erewrite bind_eq by reflexivity. cbn [jobs].
    destruct (GetByAppId (jobs w) appId) as [[id' j']|] eqn:Hget.
    - apply GetByAppId_Some in Hget as [Hj' Happ'].
      erewrite bind_eq by (erewrite bind_eq by reflexivity; reflexivity).
      cbn [outcome final trace ret after jobs].
      rewrite (Hone id' id j' j Hj' Hj Happ' Happ), Happ'. reflexivity.
    - exfalso. exact (GetByAppId_None _ _ Hget id j Hj Happ). }
  rewrite Hjobs.
  assert (Hone' : oneEntryFor appId
                    (<[id := mkReturnJob appId (TrimSpace line)]> (jobs w))).
  { intros id1 id2 j1 j2 H1 H2 Ha1 Ha2.
    destruct (decide (id1 = id)) as [->|Hne1];
      destruct (decide (id2 = id)) as [->|Hne2]; [reflexivity| | |].
    - rewrite lookup_insert_ne in H2 by congruence.
      symmetry. exact (Hone id2 id j2 j H2 Hj Ha2 Happ).
    - rewrite lookup_insert_ne in H1 by congruence.
      exact (Hone id1 id j1 j H1 Hj Ha1 Happ).
    - rewrite lookup_insert_ne in H1 by congruence.
      rewrite lookup_insert_ne in H2 by congruence.
      exact (Hone id1 id2 j1 j2 H1 H2 Ha1 Ha2). }
  split; [reflexivity|]. split; [|exact Hone'].
  destruct (GetByAppId (<[id := mkReturnJob appId (TrimSpace line)]> (jobs w)) appId)
    as [[id' j']|] eqn:Hget.
  - apply GetByAppId_Some in Hget as [Hj' Happ'].
    assert (Hid : id' = id).
    { apply (Hone' id' id j' (mkReturnJob appId (TrimSpace line)) Hj');
        [apply lookup_insert_eq|exact Happ'|reflexivity]. }
    subst id'. rewrite lookup_insert_eq in Hj'. injection Hj' as <-. reflexivity.
  - exfalso.
    apply (GetByAppId_None _ _ Hget id (mkReturnJob appId (TrimSpace line)));
      [apply lookup_insert_eq|reflexivity].
Qed.

End PromptEdges.

(** ** The config package *)

Lemma list_ascii_app (a b : string) :
  list_ascii_of_string (a +:+ b)
  = (list_ascii_of_string a ++ list_ascii_of_string b)%list.
Proof.
  induction a as [|c a IH]; [reflexivity|].
  rewrite append_cons. simpl. rewrite IH. reflexivity.
Qed.

Lemma string_of_list_snoc (l : list ascii) (c : ascii) (s : string) :
  string_of_list_ascii (l ++ [c]) +:+ s = string_of_list_ascii l +:+ String c s.
Proof.
  induction l as [|d l IH]; [reflexivity|].
  simpl. rewrite !append_cons, IH. reflexivity.
Qed.

(** What the loop of [filepath.Ext] returns is a suffix of the path. *)
Lemma scanExt_suffix (before : list ascii) (seen : string) :
  scanExt before seen <> "" ->
  exists stem,
    string_of_list_ascii (rev before) +:+ seen = stem +:+ scanExt before seen.
Proof.
  revert seen. induction before as [|c before IH]; intros seen Hne; simpl in *.
  - contradiction.
  - destruct (Ascii.eqb c "/"); [contradiction|].
    rewrite string_of_list_snoc.
    destruct (Ascii.eqb c "."); [eauto|].
    apply IH, Hne.
Qed.

Lemma Ext_suffix (path : string) :
  Ext path <> "" -> exists stem, path = stem +:+ Ext path.
Proof.
  unfold Ext. intros Hne.
  destruct (scanExt_suffix _ _ Hne) as [stem Hstem].
  exists stem. rewrite <- Hstem, rev_involutive, string_of_list_ascii_of_string.
  rewrite append_nil_r. reflexivity.
Qed.

Lemma Ext_yml (stem : string) : Ext (stem +:+ ".yml") = ".yml".
Proof.
  unfold Ext. rewrite list_ascii_app, rev_app_distr. reflexivity.
Qed.

Lemma Ext_yaml (stem : string) : Ext (stem +:+ ".yaml") = ".yaml".
Proof.
  unfold Ext. rewrite list_ascii_app, rev_app_distr. reflexivity.
Qed.

(** A name that passes the extension test of Load ends in one of the two
    extensions. *)
Lemma isAllowedExt_yaml_suffix (fileName : string) :
  config.isAllowedExt [".yml"; ".yaml"] fileName = true ->
  exists stem, fileName = stem +:+ ".yml" \/ fileName = stem +:+ ".yaml".
Proof.
  unfold config.isAllowedExt. cbv zeta. simpl. intros H.
  destruct (String.eqb_spec (Ext fileName) ".yml") as [Hyml|_].
  { destruct (Ext_suffix fileName) as [stem Hstem]; [rewrite Hyml; discriminate|].
    exists stem. left. rewrite Hyml in Hstem. exact Hstem. }
  destruct (String.eqb_spec (Ext fileName) ".yaml") as [Hyaml|_]; [|discriminate].
  destruct (Ext_suffix fileName) as [stem Hstem]; [rewrite Hyaml; discriminate|].
  exists stem. right. rewrite Hyaml in Hstem. exact Hstem.
Qed.

(** X15: the configuration files that Load accepts are those whose name
    ends in ".yml" or ".yaml": the extension test holds for exactly these
    names (so for ".yml" itself, and not for "cfg.yml.bak" or
    "cfg.yml/"). *)
Theorem isAllowedExt_accepts_yaml_names (fileName : string) :
  config.isAllowedExt [".yml"; ".yaml"] fileName = true <->
  exists stem, fileName = stem +:+ ".yml" \/ fileName = stem +:+ ".yaml".
Proof.
  split; [apply isAllowedExt_yaml_suffix|].
  unfold config.isAllowedExt. cbv zeta.
  intros [stem [->| ->]].
  - rewrite Ext_yml. reflexivity.
  - rewrite Ext_yaml. reflexivity.
Qed.

Lemma EncodeToString_length (src : string) :
  String.length (EncodeToString src) = (2 * String.length src)%nat.
Proof.
  induction src as [|v src IH]; [reflexivity|]. simpl. rewrite IH. lia.
Qed.

Lemma EncodeToString_digits (src : string) (c : ascii) :
  In c (list_ascii_of_string (EncodeToString src)) ->
  In c (list_ascii_of_string hextable).
Proof.
  induction src as [|v src IH]; simpl; [tauto|].
  intros [<-|[<-|H]]; [| |exact (IH H)];
    destruct v as [[|] [|] [|] [|] [|] [|] [|] [|]]; vm_compute; tauto.
Qed.

Lemma string_of_list_length (l : list ascii) :
  String.length (string_of_list_ascii l) = length l.
Proof. induction l as [|c l IH]; [reflexivity|]. simpl. rewrite IH. reflexivity. Qed.

(** What getFile has done when it returns a configuration. *)
Lemma getFile_returns (env : config.LoadEnv) (fileName : string)
    (fileConfig : config.File) (read : config.Effects) :
  config.getFile env fileName = (inr fileConfig, read) ->
  config.unmarshalFile env = inr fileConfig /\
  config.saved read
  = (if config.statNotExist env then [(fileName, fileConfig)] else []) /\
  config.logged read
  = match config.loadExisting env with
    | config.NotExist =>
        [Log InfoLevel "creating config file" [("name", fileName)]]
    | _ => []
    end.
Proof.
  unfold config.getFile.
  destruct (config.loadDefault env); [discriminate|].
  destruct (config.loadExisting env); [|discriminate|];
    (destruct (config.loadEnvvars env); [discriminate|]);
    (destruct (config.unmarshalFile env) as [err|fc]; [discriminate|]);
    (destruct (config.statNotExist env);
     [destruct (config.saveFile (config.saveInitial env)); [discriminate|]|]);
    intros [= <- <-]; auto.
Qed.

Section LoadFacts.

Variable MakeIntegrated : IntegratedData -> Integrated.

(** X16: the configuration that Load leaves in [Current].  When Load does
    not end the process, the file name ends in ".yml" or ".yaml", the
    integrated builder is enabled in the configuration that getFile
    unmarshalled and is the one builder of [Current], under the name
    "Integrated"; the builder key of [Current] is the key of its file part
    and is not empty.  Either the configuration had a key: then it is
    kept, and Load itself does not call saveFile.  Or it had none: then
    the key is 64 digits of "0123456789abcdef", made from 32 random bytes,
    and Load calls saveFile with this file name and the configuration that
    holds the new key -- also when saving fails, which is only logged as a
    warning.  Before that, getFile has called saveFile with the
    configuration as unmarshalled when os.Stat found no file, and has
    logged "creating config file" when the load of the file found none: on
    a first start the file is written twice, the first time without a
    key. *)
Theorem Load_sets_builder_and_key (env : config.LoadEnv) (fileName : string)
    (current : config.Config) :
  let run := config.Load MakeIntegrated env fileName in
  config.ended run = config.Loaded current ->
  (exists stem, fileName = stem +:+ ".yml" \/ fileName = stem +:+ ".yaml") /\
  exists fileConfig,
    config.unmarshalFile env = inr fileConfig /\
    Enable (config.Builder_Integrated (config.File_Builder fileConfig)) = true /\
    config.Config_Builder current =
      {["Integrated" :=
          MakeIntegrated (config.Builder_Integrated (config.File_Builder fileConfig))]} /\
    config.Config_BuilderKey current = config.File_BuilderKey (config.Config_File current) /\
    config.Config_BuilderKey current <> "" /\
    config.ServerUrl (config.Config_File current) = config.ServerUrl fileConfig /\
    let initial :=
      if config.statNotExist env then [(fileName, fileConfig)] else [] in
    let creating :=
      match config.loadExisting env with
      | config.NotExist =>
          [Log InfoLevel "creating config file" [("name", fileName)]]
      | _ => []
      end in
    ((config.File_BuilderKey fileConfig <> "" /\
      config.Config_File current = fileConfig /\
      config.saved (config.effects run) = initial /\
      config.logged (config.effects run)
      = (creating ++ [Log InfoLevel "using existing builder key from config" []])%list)
     \/
     (config.File_BuilderKey fileConfig = "" /\
      String.length (config.Config_BuilderKey current) = 64%nat /\
      (forall c, In c (list_ascii_of_string (config.Config_BuilderKey current)) ->
                 In c (list_ascii_of_string hextable)) /\
      config.saved (config.effects run)
      = (initial ++ [(fileName, config.Config_File current)])%list /\
      config.logged (config.effects run)
      = (creating
         ++ [match config.saveFile (config.saveKey env) with
             | Some err =>
                 Log WarnLevel "failed to save builder key to config file"
                   [("error", Error err)]
             | None =>
                 Log InfoLevel "generated and saved new builder key to config file" []
             end])%list)).
Proof.
  intros run. subst run. unfold config.Load. cbv zeta.
  destruct (config.isAllowedExt [".yml"; ".yaml"] fileName) eqn:Hext;
    [|discriminate].
  apply isAllowedExt_yaml_suffix in Hext. cbn [negb].
  destruct (config.getFile env fileName) as [[err|fileConfig] read] eqn:Hget;
    [discriminate|].
  destruct (getFile_returns _ _ _ _ Hget) as (Hun & Hsaved & Hlogged).
  unfold config.MakeEnabled. cbv zeta.
  destruct (Enable (config.Builder_Integrated (config.File_Builder fileConfig)))
    eqn:Henabled.
  2: { rewrite map_size_empty. simpl. discriminate. }
  rewrite insert_empty, map_size_singleton. cbn [Nat.ltb Nat.leb].
  destruct (String.eqb_spec (config.File_BuilderKey fileConfig) "") as [Hkey|Hkey];
    cbn [negb].
  - destruct (config.randRead env) as [err|byteAt]; [discriminate|].
    unfold config.setCurrent.
    destruct (config.getProfileFromEnv env) as [err|profile]; [discriminate|].
    cbv beta iota delta [config.ended config.effects config.saved config.logged].
    intros Hcur.
    pose proof (f_equal (fun e => match e with
                                  | config.Loaded c => c
                                  | config.Fatal _ _ => current
                                  end) Hcur) as Hc.
    cbv beta iota in Hc. clear Hcur. subst current. split; [exact Hext|].
    exists fileConfig.
    cbv beta iota delta [config.Config_Builder config.Config_BuilderKey
                         config.Config_File config.File_BuilderKey config.ServerUrl].
    assert (Hlen : String.length
                     (EncodeToString (string_of_list_ascii (map byteAt (seq 0 32))))
                   = 64%nat).
    { rewrite EncodeToString_length, string_of_list_length, length_map, length_seq.
      reflexivity. }
    split; [exact Hun|]. split; [exact Henabled|].
    split; [reflexivity|]. split; [reflexivity|].
    split.
    { intros Hempty. assert (Hz : (64 = 0)%nat); [|discriminate].
      rewrite <- Hlen. exact (f_equal String.length Hempty). }
    split; [reflexivity|]. cbv zeta. right.
    split; [exact Hkey|]. split; [exact Hlen|].
    split; [intros c Hc; exact (EncodeToString_digits _ c Hc)|].
    rewrite <- Hsaved, <- Hlogged. split; reflexivity.
  - unfold config.setCurrent.
    destruct (config.getProfileFromEnv env) as [err|profile]; [discriminate|].
    cbv beta iota delta [config.ended config.effects config.saved config.logged].
    intros Hcur.
    pose proof (f_equal (fun e => match e with
                                  | config.Loaded c => c
                                  | config.Fatal _ _ => current
                                  end) Hcur) as Hc.
    cbv beta iota in Hc. clear Hcur. subst current. split; [exact Hext|].
    exists fileConfig.
    cbv beta iota delta [config.Config_Builder config.Config_BuilderKey
                         config.Config_File config.File_BuilderKey config.ServerUrl].
    split; [exact Hun|]. split; [exact Henabled|].
    split; [reflexivity|]. split; [reflexivity|].
    split; [exact Hkey|]. split; [reflexivity|]. cbv zeta. left.
    rewrite <- Hsaved, <- Hlogged. auto.
Qed.

End LoadFacts.

Section SecretFacts.

Variable TrimWhitespace : string -> string.
Variable tarNewReader : string -> TarStream.
Variable ToLower : string -> string.

(** X17: the secrets set from the configuration are the secrets of the
    sign script.  SetBuilderSecrets returns nil on the integrated builder,
    and whenever that builder's next attempt starts the entrypoint, the
    environment it is given holds, next to the ambient environment and
    the two flags, exactly "SECRET_KEY=" with the builder key of the
    current configuration and "SECRET_URL=" with its server URL. *)
Theorem configured_secrets_reach_the_entrypoint (Current : config.Config)
    (builder : Integrated) (env : Env) (errNotFound : error) (w : World)
    (cmd : Cmd) :
  In (Started cmd)
     (trace (ProcessIntegratedJob TrimWhitespace tarNewReader ToLower
               (snd (config.SetBuilderSecrets Current builder)) env errNotFound w)) ->
  fst (config.SetBuilderSecrets Current builder) = None /\
  forall entry,
    In entry (CmdEnv cmd) <->
    In entry (environ env) \/
    entry = "SECRET_KEY=" +:+ config.Config_BuilderKey Current \/
    entry = "SECRET_URL=" +:+ config.ServerUrl (config.Config_File Current) \/
    entry = "PYTHONUNBUFFERED=1" \/ entry = "INTEGRATED_BUILDER=1".
Proof.
  intros Hin. split; [reflexivity|].
  destruct (ProcessIntegratedJob_events TrimWhitespace tarNewReader ToLower _
              env errNotFound w _ Hin)
    as (archive & id & job & workDir & w0 & _ & [Hev|Hev]);
    [intros []| |discriminate].
  assert (Hcmd : CmdEnv cmd =
                 signEnv (environ env)
                   (<["SECRET_KEY" := config.Config_BuilderKey Current]>
                      (<["SECRET_URL" := config.ServerUrl (config.Config_File Current)]>
                         ∅))).
  { rewrite (f_equal (fun ev => match ev with
                                | Started c => CmdEnv c
                                | _ => CmdEnv cmd
                                end) Hev).
    reflexivity. }
  rewrite Hcmd, signEnv_eq. clear Hcmd Hev Hin.
  intros entry. rewrite !in_app_iff, in_map_iff. split.
  - intros [H|[([k v] & <- & Hkv)|[<-|[<-|[]]]]]; auto.
    assert (Hl : (<["SECRET_KEY" := config.Config_BuilderKey Current]>
                    (<["SECRET_URL" := config.ServerUrl (config.Config_File Current)]>
                       ∅) : gmap string string) !! k = Some v)
      by (apply (proj1 (elem_of_map_to_list _ _ _)), (proj2 (list_elem_of_In _ _)), Hkv).
    apply lookup_insert_Some in Hl as [[<- <-]|[_ Hl]]; [auto|].
    apply lookup_insert_Some in Hl as [[<- <-]|[_ Hl]]; [auto|].
    rewrite lookup_empty in Hl. discriminate.
  - intros [H|[->|[->|[->| ->]]]]; auto.
    + right; left. exists ("SECRET_KEY", config.Config_BuilderKey Current).
      split; [reflexivity|].
      apply (proj1 (list_elem_of_In _ _)), (proj2 (elem_of_map_to_list _ _ _)).
      apply lookup_insert_eq.
    + right; left.
      exists ("SECRET_URL", config.ServerUrl (config.Config_File Current)).
      split; [reflexivity|].
      apply (proj1 (list_elem_of_In _ _)), (proj2 (elem_of_map_to_list _ _ _)).
      rewrite lookup_insert_ne by discriminate. apply lookup_insert_eq.
    + right; right. simpl. auto.
    + right; right. simpl. auto.
Qed.

End SecretFacts.

(** ** What an attempt prints and logs *)

Section OutputFacts.

Variable TrimWhitespace : string -> string.
Variable tarNewReader : string -> TarStream.
Variable ToLower : string -> string.

Local Abbreviation quiet := (fun ev => isDeletionWarning ev = false).

(** The closure before the script: nothing has been printed yet. *)
Lemma signJob_cases_console (integrated : Integrated) (env : Env)
    (rid appId archive : string) (w : World) :
  (exists e w',
      signJob TrimWhitespace tarNewReader ToLower integrated env rid appId archive w
      = mkResult (Failed e) w' [] /\
      jobs w' = jobs w /\ console w' = console w)
  \/
  (exists workDir w0,
      jobs w0 = jobs w /\ apps w0 = apps w /\ console w0 = console w /\
      signJob TrimWhitespace tarNewReader ToLower integrated env rid appId archive w
      = leaving (removeSandbox workDir)
          (runScript TrimWhitespace ToLower integrated env rid appId workDir w0)).
Proof.
  unfold signJob.
  destruct (mkdirTemp env) as [e|tempDir] eqn:Htemp.
  { left. run_fail. eauto. }
  run_step. run_step. unfold defer.
  destruct (absErr env) as [e|].
  { left. run_fail. simpl. eauto. }
  run_step.
  destruct (copySignFiles env) as [e|f].
  { left. run_fail. simpl. eauto. }
  run_step. run_step. simpl.
  destruct (extractEntries_frame tempDir (entries (tarNewReader archive))
              (ending (tarNewReader archive))
              (mkWorld (jobs w) (apps w) f (console w))) as (f' & [Hx|[e Hx]]);
    simpl in Hx.
  2: { left. erewrite bind_fail by exact Hx. simpl. eauto. }
  erewrite bind_eq by exact Hx. rewrite after_nil.
  run_step. simpl.
  destruct (apps w !! appId) as [app|] eqn:Happ.
  2: { left. simpl. eauto. }
  destruct (GetFile app "unsigned") as [e|unsigned].
  { left. run_fail. simpl. eauto. }
  run_step.
  destruct (writeFile _ _ _ _) as [e|f2].
  { left. run_fail. simpl. eauto. }
  run_step. run_step.
  destruct (stdoutPipeErr env).
  { left. run_fail. simpl. eauto. }
  run_step.
  destruct (stderrPipeErr env).
  { left. run_fail. simpl. eauto. }
  run_step.
  destruct (startErr env).
  { left. run_fail. simpl. eauto. }
  run_step.
  right. eexists tempDir, _.
  split; [|split; [|split; [|reflexivity]]]; reflexivity.
Qed.

Lemma reportJob_failed_present (env : Env) (id : string) (err : error) (w : World)
    (j : ReturnJob) :
  jobs w !! id = Some j ->
  reportJob env id (Some err) w
  = mkResult (Failed err) (withJobs (delete id (jobs w)) w)
      [Log ErrorLevel "integrated sign job failed"
         [("error", Error err); ("job_id", runId env)]].
Proof.
  intros Hj. unfold reportJob.
  erewrite bind_eq by reflexivity.
  erewrite bind_eq by reflexivity.
  rewrite bool_decide_eq_true_2 by (rewrite Hj; eauto).
  erewrite bind_eq by reflexivity. reflexivity.
Qed.

Lemma finishJob_stored_present (rid appId : string) (workDir : Path) (out : string)
    (w : World) (m : Z) (content : string) (j : ReturnJob) :
  Stat (fs w) (Join workDir "signed.ipa") = Some (File m content) ->
  jobs w !! rid = Some j ->
  outcome (finishJob TrimWhitespace rid appId workDir None out w) = Done tt /\
  console (final (finishJob TrimWhitespace rid appId workDir None out w)) = console w /\
  jobs (final (finishJob TrimWhitespace rid appId workDir None out w))
  = delete rid (jobs w) /\
  trace (finishJob TrimWhitespace rid appId workDir None out w) = [].
Proof.
  intros H Hj. unfold finishJob. erewrite bind_eq by reflexivity.
  rewrite after_nil. simpl. rewrite H.
  run_step. run_step.
  destruct (ReadFile (fs w) (Join workDir "bundle_id.txt")) as [e|text].
  - run_step. run_step. simpl.
    rewrite bool_decide_eq_true_2 by (rewrite Hj; eauto). auto.
  - run_step. run_step. simpl.
    rewrite bool_decide_eq_true_2 by (rewrite Hj; eauto). auto.
Qed.

Lemma lineLog_quiet (ls : list OutLine) :
  Forall quiet (flat_map (lineLog ToLower) ls).
Proof.
  induction ls as [|l ls IH]; simpl; [constructor|].
  apply Forall_app. split; [|exact IH].
  destruct l as [line|line]; simpl; [destruct (important ToLower line)|];
    repeat constructor.
Qed.

(** An attempt, by what it prints and logs: it stays silent on standard
    output, or it starts the script and prints the script's lines. *)
Lemma ProcessIntegratedJob_output (integrated : Integrated) (env : Env)
    (errNotFound : error) (w : World) :
  let r := ProcessIntegratedJob TrimWhitespace tarNewReader ToLower integrated env
             errNotFound w in
  Forall quiet (trace r) /\
  ((Forall isLog (trace r) /\ console (final r) = console w) \/
   (exists workDir,
       In (Started (signCmd integrated env workDir)) (trace r) /\
       console (final r) = console w +:+ printedBy (procRun env))).
Proof.
  intros r. subst r.
  destruct (takeLastJob env) as [archive|written err|partial err] eqn:Htake.
  - destruct (extractJobIdFromArchive TrimWhitespace tarNewReader archive)
      as [id|reason] eqn:Hid.
    2: { unfold ProcessIntegratedJob. rewrite Htake, Hid. simpl.
         split; [constructor|]. left. split; [constructor|reflexivity]. }
    destruct (String.eqb_spec id "") as [->|Hne].
    { unfold ProcessIntegratedJob. rewrite Htake, Hid. simpl.
      split; [constructor|]. left. split; [constructor|reflexivity]. }
    destruct (jobs w !! id) as [job|] eqn:Hjob.
    2: { unfold ProcessIntegratedJob. rewrite Htake, Hid.
         run_step.
         pose proof Hne as Hne'. apply String.eqb_neq in Hne'. rewrite Hne'.
         erewrite bind_eq
           by (unfold GetById; erewrite bind_eq by reflexivity; reflexivity).
         rewrite after_nil. simpl. rewrite Hjob. simpl.
         split; [constructor|]. left. split; [constructor|reflexivity]. }
    rewrite (ProcessIntegratedJob_taken _ _ _ _ _ _ _ _ _ _ Htake Hid Hne Hjob).
    rewrite closure_report.
    destruct (signJob_cases_console integrated env id (AppId job) archive w)
      as [(e & w' & Hs & Hj & Hc)|(workDir & w0 & Hj & Ha & Hc & Hs)].
    + rewrite Hs. cbn [outcome final trace].
      rewrite (reportJob_failed_present env id e w' job) by (rewrite Hj; exact Hjob).
      simpl. split; [repeat constructor|]. left.
      split; [repeat constructor|exact Hc].
    + rewrite Hs, runScript_result. rewrite Hj, Ha, Hc.
      unfold leaving. cbn [outcome final trace].
      set (w1 := mkWorld (jobs w) (apps w) (fsAfter (procRun env))
                   (console w +:+ printedBy (procRun env))).
      assert (Hcases :
        (exists e tr,
            finishJob TrimWhitespace id (AppId job) workDir (waitErr (procRun env))
              (capturedBy (procRun env)) w1
            = mkResult (Failed e) w1 tr /\ Forall quiet tr) \/
        (outcome (finishJob TrimWhitespace id (AppId job) workDir
                    (waitErr (procRun env)) (capturedBy (procRun env)) w1)
         = Done tt /\
         console (final (finishJob TrimWhitespace id (AppId job) workDir
                    (waitErr (procRun env)) (capturedBy (procRun env)) w1))
         = console w1 /\
         trace (finishJob TrimWhitespace id (AppId job) workDir
                  (waitErr (procRun env)) (capturedBy (procRun env)) w1)
         = [])).
      { destruct (waitErr (procRun env)) as [err|].
        - left. rewrite finishJob_failed. eexists _, _.
          split; [reflexivity|repeat constructor].
        - destruct (Stat (fs w1) (Join workDir "signed.ipa")) as [[m|m content]|] eqn:Hst.
          + left. erewrite finishJob_directory by exact Hst. eexists _, _.
            split; [reflexivity|constructor].
          + right.
            destruct (finishJob_stored_present id (AppId job) workDir
                        (capturedBy (procRun env)) w1 m content job Hst Hjob)
              as (Ho & Hcon & _ & Htr).
            auto.
          + left. rewrite finishJob_missing by exact Hst. eexists _, _.
            split; [reflexivity|constructor]. }
      destruct Hcases as [(e & tr & -> & Htr)|(Ho & Hcon & Htr)].
      * cbn [outcome final trace].
        rewrite (reportJob_failed_present env id e (removeSandbox workDir w1) job)
          by exact Hjob.
        unfold after. cbn [outcome final trace]. split.
        -- apply Forall_app. split; [repeat constructor|].
           apply Forall_app. split; [|repeat constructor].
           constructor; [reflexivity|].
           apply Forall_app. split; [apply lineLog_quiet|].
           constructor; [reflexivity|exact Htr].
        -- right. exists workDir. split; [right; left; reflexivity|reflexivity].
      * rewrite Ho, Htr. unfold after, reportJob, emit. cbn [outcome final trace].
        split.
        -- apply Forall_app. split; [repeat constructor|].
           apply Forall_app. split; [|repeat constructor].
           constructor; [reflexivity|].
           apply Forall_app. split; [apply lineLog_quiet|repeat constructor].
        -- right. exists workDir. split; [right; left; reflexivity|].
           cbn [removeSandbox console]. exact Hcon.
  - unfold ProcessIntegratedJob. rewrite Htake.
    destruct (errors_Is err errNotFound);
      erewrite bind_eq by reflexivity; simpl;
      (split; [repeat constructor|]); left;
      (split; [repeat constructor|destruct w; reflexivity]).
  - unfold ProcessIntegratedJob. rewrite Htake.
    erewrite bind_eq by reflexivity.
    destruct (extractJobIdFromArchive TrimWhitespace tarNewReader partial)
      as [id|reason] eqn:Hid.
    2: { simpl. split; [repeat constructor|]. left.
         split; [repeat constructor|reflexivity]. }
    run_step.
    destruct (String.eqb_spec id "") as [->|Hne].
    { erewrite bind_eq by reflexivity. simpl.
      split; [repeat constructor|]. left.
      split; [repeat constructor|reflexivity]. }
    assert (Hdel : exists tr,
               Forall quiet tr /\ Forall isLog tr /\
               (deleted <- DeleteById id ;;
                if deleted
                then emit (Log InfoLevel "cleaned up job after archive read error"
                             [("job_id", id)])
                else ret tt) w
               = mkResult (Done tt) (withJobs (delete id (jobs w)) w) tr).
    { unfold DeleteById.
      erewrite bind_eq.
      2: { run_step. run_step. reflexivity. }
      destruct (bool_decide (is_Some (jobs w !! id))); eexists;
        (split; [|split; [|reflexivity]]); repeat constructor. }
    destruct Hdel as (tr & Hq & Hl & Hdel).
    erewrite bind_eq by exact Hdel. simpl. rewrite app_nil_r.
    split; [constructor; [reflexivity|exact Hq]|]. left.
    split; [constructor; [exact I|exact Hl]|reflexivity].
Qed.

(** X20: what an attempt prints.  An attempt that starts the entrypoint,
    and in which no write of one scanner goroutine meets a write of the
    other (so whenever only one stream delivers lines), appends to the
    program's standard output the lines the two scanners read, each
    followed by a newline, in the order they were handled, and nothing
    else; an attempt that does not start the entrypoint prints nothing. *)
Theorem attempt_prints_the_script_output (integrated : Integrated) (env : Env)
    (errNotFound : error) (w : World) :
  let r := ProcessIntegratedJob TrimWhitespace tarNewReader ToLower integrated env
             errNotFound w in
  ((forall cmd, ~ In (Started cmd) (trace r)) -> console (final r) = console w) /\
  (forall cmd,
      In (Started cmd) (trace r) ->
      raced (procRun env) = None \/
      existsb isStdoutLine (output (procRun env)) = false \/
      existsb isStderrLine (output (procRun env)) = false ->
      console (final r) = console w +:+ captured (output (procRun env))).
Proof.
  intros r. subst r.
  destruct (ProcessIntegratedJob_output integrated env errNotFound w)
    as (_ & [[Hlogs Hquiet]|(workDir & Hstart & Hrun)]).
  - split; [intros _; exact Hquiet|].
    intros cmd Hin. exfalso. rewrite Forall_forall in Hlogs.
    exact (Hlogs _ (proj2 (list_elem_of_In _ _) Hin)).
  - split.
    + intros Hnone. exfalso. exact (Hnone _ Hstart).
    + intros cmd _ Hserial. rewrite Hrun. unfold printedBy.
      rewrite (overlapped_None _ _ Hserial). reflexivity.
Qed.

(** X21: an attempt on its own never warns that a queue entry could not
    be deleted.  The entry it deletes is the one GetById found when the
    attempt began; neither the "unable to delete return job" nor the
    "unable to delete failed return job" warning is written unless
    something else deletes the entry while the attempt runs. *)
Theorem attempt_alone_never_warns_about_deletion (integrated : Integrated)
    (env : Env) (errNotFound : error) (w : World) (ev : Event) :
  In ev (trace (ProcessIntegratedJob TrimWhitespace tarNewReader ToLower integrated
                  env errNotFound w)) ->
  isDeletionWarning ev = false.
Proof.
  intros Hin.
  destruct (ProcessIntegratedJob_output integrated env errNotFound w) as [Hquiet _].
  rewrite Forall_forall in Hquiet.
  exact (Hquiet _ (proj2 (list_elem_of_In _ _) Hin)).
Qed.

End OutputFacts.

(** ** The further theorems at work on the fixtures *)

Lemma signed_run_leaves_no_sandbox :
  mkdirTemp (envWith (Taken jobArchive) signedRun) = inr tmpJob /\
  fs (final (attempt (Taken jobArchive) signedRun)) !! ["tmp"; "job"; "signed.ipa"]
  = None.
Proof.
  split; [reflexivity|].
  apply (sandbox_is_removed_after_every_attempt asciiTrim readJobArchive asciiLower
           integratedBuilder (envWith (Taken jobArchive) signedRun) errNotFound
           queuedWorld jobArchive "job-1" (mkReturnJob "app-1" "") tmpJob).
  - reflexivity.
  - vm_compute. reflexivity.
  - discriminate.
  - vm_compute. reflexivity.
  - reflexivity.
  - exists ["signed.ipa"]. reflexivity.
Defined.

Lemma failed_run_leaves_applications :
  outcome (attempt (Taken jobArchive) failedRun) <> Done tt /\
  apps (final (attempt (Taken jobArchive) failedRun)) = apps queuedWorld.
Proof.
  assert (Hfail : outcome (attempt (Taken jobArchive) failedRun) <> Done tt)
    by (vm_compute; discriminate).
  split; [exact Hfail|].
  exact (failed_attempt_leaves_applications asciiTrim readJobArchive asciiLower
           integratedBuilder (envWith (Taken jobArchive) failedRun) errNotFound
           queuedWorld Hfail).
Defined.

Lemma signed_run_returns_nil_for_a_signed_app :
  outcome (attempt (Taken jobArchive) signedRun) = Done tt /\
  ((exists written err,
       takeLastJob (envWith (Taken jobArchive) signedRun) = TakeFailed written err /\
       errors_Is err errNotFound = true /\
       final (attempt (Taken jobArchive) signedRun) = queuedWorld)
   \/
   (exists archive id job workDir perm content app',
       takeLastJob (envWith (Taken jobArchive) signedRun) = Taken archive /\
       extractJobIdFromArchive asciiTrim readJobArchive archive = Value id /\
       id <> "" /\ jobs queuedWorld !! id = Some job /\
       mkdirTemp (envWith (Taken jobArchive) signedRun) = inr workDir /\
       waitErr (procRun (envWith (Taken jobArchive) signedRun)) = None /\
       Stat (fsAfter (procRun (envWith (Taken jobArchive) signedRun)))
         (Join workDir "signed.ipa") = Some (File perm content) /\
       jobs (final (attempt (Taken jobArchive) signedRun)) = delete id (jobs queuedWorld) /\
       apps (final (attempt (Taken jobArchive) signedRun)) !! AppId job = Some app' /\
       files app' !! "signed" = Some content)).
Proof.
  assert (Hnil : outcome (attempt (Taken jobArchive) signedRun) = Done tt)
    by (vm_compute; reflexivity).
  split; [exact Hnil|].
  exact (nil_return_means_idle_or_signed asciiTrim readJobArchive asciiLower
           integratedBuilder (envWith (Taken jobArchive) signedRun) errNotFound
           queuedWorld Hnil).
Defined.

Lemma oversized_attempt_panics_untouched :
  outcome (ProcessIntegratedJob asciiTrim readOversized asciiLower integratedBuilder
             (envWith (Taken "x") signedRun) errNotFound queuedWorld)
  = Panicked "makeslice: len out of range" /\
  final (ProcessIntegratedJob asciiTrim readOversized asciiLower integratedBuilder
           (envWith (Taken "x") signedRun) errNotFound queuedWorld)
  = queuedWorld.
Proof.
  assert (Hpanic : outcome (ProcessIntegratedJob asciiTrim readOversized asciiLower
                              integratedBuilder (envWith (Taken "x") signedRun)
                              errNotFound queuedWorld)
                   = Panicked "makeslice: len out of range")
    by (vm_compute; reflexivity).
  split; [exact Hpanic|].
  destruct (attempt_panics_only_on_id_allocation asciiTrim readOversized asciiLower
              integratedBuilder (envWith (Taken "x") signedRun) errNotFound
              queuedWorld _ Hpanic) as (buf & e & _ & _ & _ & Hw & _).
  exact Hw.
Defined.

Lemma archive_of_unknown_job_fails_untouched :
  jobs tmpJobWorld !! "job-1" = None /\
  ProcessIntegratedJob asciiTrim readJobArchive asciiLower integratedBuilder
    (envWith (Taken jobArchive) signedRun) errNotFound tmpJobWorld
  = mkResult (Failed (errors_New "return job not found: job-1")) tmpJobWorld [].
Proof.
  split; [reflexivity|].
  apply (taken_archive_without_entry_fails_untouched asciiTrim readJobArchive
           asciiLower integratedBuilder (envWith (Taken jobArchive) signedRun)
           errNotFound tmpJobWorld jobArchive "job-1").
  - reflexivity.
  - vm_compute. reflexivity.
  - right. reflexivity.
Defined.

Lemma tree_archive_makes_its_directory :
  outcome (extractEntries tmpJob treeEntries None tmpJobWorld) = Done tt /\
  exists m, Stat (fs (final (extractEntries tmpJob treeEntries None tmpJobWorld)))
              ["tmp"; "job"; "config"] = Some (Dir m).
Proof.
  split; [vm_compute; reflexivity|].
  apply (extracted_directories_exist tmpJob treeEntries None tmpJobWorld
           (mkEntry (mkHeader "config" TypeDir 0 493) "" None)).
  - vm_compute. reflexivity.
  - left. reflexivity.
  - reflexivity.
Defined.

Lemma job_archive_arguments_can_be_read :
  outcome (extractEntries tmpJob jobEntries None tmpJobWorld) = Done tt /\
  ReadFile (fs (final (extractEntries tmpJob jobEntries None tmpJobWorld)))
    ["tmp"; "job"; "config"; "args.txt"] = inr "-a".
Proof.
  split; [vm_compute; reflexivity|].
  apply (extracted_file_holds_payload tmpJob
           [mkEntry (mkHeader "id.txt" "0"%char 6 420) ("job-1" +:+ nl) None] []
           None tmpJobWorld
           (mkEntry (mkHeader "config/args.txt" "0"%char 2 420) "-a" None)).
  - vm_compute. reflexivity.
  - discriminate.
  - intros e' [].
Defined.

Lemma fixture_script_started_on_prepared_sandbox :
  In (Started fixtureCmd) (trace (attempt (Taken jobArchive) signedRun)) /\
  exists archive id job workDir f app unsigned,
    takeLastJob (envWith (Taken jobArchive) signedRun) = Taken archive /\
    extractJobIdFromArchive asciiTrim readJobArchive archive = Value id /\
    jobs queuedWorld !! id = Some job /\
    mkdirTemp (envWith (Taken jobArchive) signedRun) = inr workDir /\
    absErr (envWith (Taken jobArchive) signedRun) = None /\
    copySignFiles (envWith (Taken jobArchive) signedRun) = inr f /\
    outcome (extractEntries workDir (entries (readJobArchive archive))
               (ending (readJobArchive archive))
               (mkWorld (jobs queuedWorld) (apps queuedWorld) f (console queuedWorld)))
    = Done tt /\
    ending (readJobArchive archive) = None /\
    (forall e, In e (entries (readJobArchive archive)) ->
               Typeflag (hdr e) <> TypeDir -> dataErr e = None) /\
    apps queuedWorld !! AppId job = Some app /\
    files app !! "unsigned" = Some unsigned /\
    stdoutPipeErr (envWith (Taken jobArchive) signedRun) = None /\
    stderrPipeErr (envWith (Taken jobArchive) signedRun) = None /\
    startErr (envWith (Taken jobArchive) signedRun) = None.
Proof.
  assert (Hstart : In (Started fixtureCmd)
                      (trace (attempt (Taken jobArchive) signedRun))).
  { vm_compute. right; left. reflexivity. }
  split; [exact Hstart|].
  exact (script_starts_only_on_prepared_sandbox asciiTrim readJobArchive asciiLower
           integratedBuilder (envWith (Taken jobArchive) signedRun) errNotFound
           queuedWorld fixtureCmd Hstart).
Defined.

Lemma prompted_wait_logs_the_hint_once :
  processIntegratedJobDirectly 14 integratedBuilder None "app-1" promptedPolls
  = Some (None, promptedLog) /\
  (length (filter isTwoFactorMessage promptedLog) <= 1)%nat.
Proof.
  assert (Hwait : processIntegratedJobDirectly 14 integratedBuilder None "app-1"
                    promptedPolls = Some (None, promptedLog))
    by (vm_compute; reflexivity).
  split; [exact Hwait|].
  exact (wait_logs_two_factor_message_once 14 integratedBuilder None "app-1"
           promptedPolls None promptedLog Hwait).
Defined.

Lemma pendingPolls_sleep : sleeps pendingPolls.
Proof.
  intros i. unfold pendingPolls. cbn [sinceStart].
  rewrite Nat2Z.inj_succ. unfold pollInterval, Millisecond. lia.
Defined.

Lemma quick_wait_returns_within_four_turns :
  sleeps pendingPolls /\
  exists result log,
    processIntegratedJobDirectly 4 quickBuilder None "app-1" pendingPolls
    = Some (result, log).
Proof.
  split; [exact pendingPolls_sleep|].
  apply (wait_returns_within_deadline_turns quickBuilder "app-1" pendingPolls 4).
  - exact pendingPolls_sleep.
  - vm_compute. discriminate.
  - vm_compute. lia.
Defined.

Lemma unfinished_code_is_refused :
  ~ In newline (list_ascii_of_string "123456") /\
  outcome (Prompt2FA asciiTrim "123456" "app-1" queuedWorld)
  = Failed (WithMessage (ExtError "EOF") "read 2FA code") /\
  jobs (final (Prompt2FA asciiTrim "123456" "app-1" queuedWorld)) = jobs queuedWorld.
Proof.
  assert (Hno : ~ In newline (list_ascii_of_string "123456"))
    by (vm_compute; intuition discriminate).
  split; [exact Hno|].
  rewrite (Prompt2FA_refuses_unfinished_line asciiTrim "123456" "app-1" queuedWorld Hno).
  split; reflexivity.
Defined.

Lemma queuedWorld_oneEntry : oneEntryFor "app-1" (jobs queuedWorld).
Proof.
  intros id1 id2 j1 j2 H1 H2 _ _.
  change (jobs queuedWorld)
    with ({["job-1" := mkReturnJob "app-1" ""]} : gmap string ReturnJob) in *.
  apply lookup_singleton_Some in H1 as [<- _].
  apply lookup_singleton_Some in H2 as [<- _].
  reflexivity.
Defined.

Lemma prompted_code_reaches_the_wait :
  ReadString (" 123456 " +:+ nl) = Some (" 123456 " +:+ nl, "") /\
  GetByAppId (jobs (final (Prompt2FA asciiTrim (" 123456 " +:+ nl) "app-1" queuedWorld)))
    "app-1"
  = Some ("job-1", mkReturnJob "app-1" (asciiTrim (" 123456 " +:+ nl))).
Proof.
  assert (Hread : ReadString (" 123456 " +:+ nl) = Some (" 123456 " +:+ nl, ""))
    by (vm_compute; reflexivity).
  split; [exact Hread|].
  destruct (Prompt2FA_code_reaches_the_wait asciiTrim (" 123456 " +:+ nl)
              (" 123456 " +:+ nl) "" "app-1" "job-1" (mkReturnJob "app-1" "")
              queuedWorld Hread queuedWorld_oneEntry) as (_ & Hget & _).
  - vm_compute. reflexivity.
  - reflexivity.
  - exact Hget.
Defined.

Lemma first_start_generates_a_key :
  config.ended (config.Load makeIntegrated firstStart "signer-cfg.yml")
  = config.Loaded firstConfig /\
  config.Config_BuilderKey firstConfig <> "" /\
  config.saved (config.effects (config.Load makeIntegrated firstStart "signer-cfg.yml"))
  = [("signer-cfg.yml", config.createDefaultFile);
     ("signer-cfg.yml", config.Config_File firstConfig)].
Proof.
  assert (Hload : config.ended (config.Load makeIntegrated firstStart "signer-cfg.yml")
                  = config.Loaded firstConfig)
    by (vm_compute; reflexivity).
  split; [exact Hload|].
  destruct (Load_sets_builder_and_key makeIntegrated firstStart "signer-cfg.yml"
              firstConfig Hload)
    as (_ & fileConfig & Hun & _ & _ & _ & Hne & _ & Hcase).
  split; [exact Hne|].
  assert (Hfile : fileConfig = config.createDefaultFile)
    by (symmetry; exact (f_equal (fun x => match x with
                                           | inr f => f
                                           | inl _ => fileConfig
                                           end) Hun)).
  subst fileConfig. cbv zeta in Hcase.
  destruct Hcase as [(Hkey & _)|(_ & _ & _ & Hsaved & _)].
  - exfalso. apply Hkey. reflexivity.
  - exact Hsaved.
Defined.

Lemma configured_attempt_is_given_the_key :
  In (Started configuredCmd)
     (trace (ProcessIntegratedJob asciiTrim readJobArchive asciiLower configuredBuilder
               (envWith (Taken jobArchive) signedRun) errNotFound queuedWorld)) /\
  (In "SECRET_KEY=k3y" (CmdEnv configuredCmd) <->
   In "SECRET_KEY=k3y" (environ (envWith (Taken jobArchive) signedRun)) \/
   "SECRET_KEY=k3y" = "SECRET_KEY=" +:+ config.Config_BuilderKey firstConfig \/
   "SECRET_KEY=k3y"
   = "SECRET_URL=" +:+ config.ServerUrl (config.Config_File firstConfig) \/
   "SECRET_KEY=k3y" = "PYTHONUNBUFFERED=1" \/
   "SECRET_KEY=k3y" = "INTEGRATED_BUILDER=1").
Proof.
  assert (Hstart : In (Started configuredCmd)
                      (trace (ProcessIntegratedJob asciiTrim readJobArchive asciiLower
                                configuredBuilder
                                (envWith (Taken jobArchive) signedRun) errNotFound
                                queuedWorld))).
  { vm_compute. right; left. reflexivity. }
  split; [exact Hstart|].
  destruct (configured_secrets_reach_the_entrypoint asciiTrim readJobArchive
              asciiLower firstConfig quickBuilder
              (envWith (Taken jobArchive) signedRun) errNotFound queuedWorld
              configuredCmd Hstart) as [_ Henv].
  apply Henv.
Defined.

Lemma job_archive_names_its_job :
  Z.of_nat (String.length jobArchive) <= maxAlloc /\
  (forall e, In e (entries (readJobArchive jobArchive)) ->
             isIdEntry e = true ->
             0 <= Size (hdr e) <= Z.of_nat (String.length jobArchive)) /\
  extractJobIdFromArchive asciiTrim readJobArchive jobArchive = Value "job-1".
Proof.
  assert (Hlen : Z.of_nat (String.length jobArchive) <= maxAlloc)
    by (vm_compute; discriminate).
  assert (Hsize : forall e, In e (entries (readJobArchive jobArchive)) ->
                            isIdEntry e = true ->
                            0 <= Size (hdr e) <= Z.of_nat (String.length jobArchive)).
  { intros e [<-|[<-|[]]] _; vm_compute; split; discriminate. }
  split; [exact Hlen|]. split; [exact Hsize|].
  exact (extractJobIdFromArchive_returns asciiTrim readJobArchive jobArchive Hlen Hsize).
Defined.

Lemma disk_error_is_returned :
  errors_Is (ExtError "disk error") errNotFound = false /\
  attempt (TakeFailed "" (ExtError "disk error")) signedRun
  = mkResult (Failed (ExtError "disk error")) queuedWorld
      [Log ErrorLevel "take last job" [("error", "disk error")]].
Proof.
  split; [vm_compute; reflexivity|].
  apply (take_error_is_returned asciiTrim readJobArchive asciiLower integratedBuilder
           (envWith (TakeFailed "" (ExtError "disk error")) signedRun) errNotFound
           queuedWorld "" (ExtError "disk error")).
  - reflexivity.
  - vm_compute. reflexivity.
Defined.

Lemma signed_run_prints_its_lines :
  In (Started fixtureCmd) (trace (attempt (Taken jobArchive) signedRun)) /\
  raced signedRun = None /\
  console (final (attempt (Taken jobArchive) signedRun))
  = console queuedWorld +:+ captured (output signedRun).
Proof.
  assert (Hstart : In (Started fixtureCmd)
                      (trace (attempt (Taken jobArchive) signedRun))).
  { vm_compute. right; left. reflexivity. }
  split; [exact Hstart|]. split; [reflexivity|].
  exact (proj2 (attempt_prints_the_script_output asciiTrim readJobArchive asciiLower
                  integratedBuilder (envWith (Taken jobArchive) signedRun)
                  errNotFound queuedWorld) fixtureCmd Hstart (or_introl eq_refl)).
Defined.

Lemma failed_run_warns_about_stderr_only :
  In (Log WarnLevel "sign script stderr" [("line", "ERROR: cert expired")])
     (trace (attempt (Taken jobArchive) failedRun)) /\
  isDeletionWarning
    (Log WarnLevel "sign script stderr" [("line", "ERROR: cert expired")]) = false.
Proof.
  assert (Hin : In (Log WarnLevel "sign script stderr" [("line", "ERROR: cert expired")])
                   (trace (attempt (Taken jobArchive) failedRun))).
  { vm_compute. right; right; left. reflexivity. }
  split; [exact Hin|].
  exact (attempt_alone_never_warns_about_deletion asciiTrim readJobArchive asciiLower
           integratedBuilder (envWith (Taken jobArchive) failedRun) errNotFound
           queuedWorld _ Hin).
Defined.
